(** * SegaOS: window manager, command handshake and Word RAM bank protocol

    A shallow embedding of the parts of the SegaOS sources that the
    synchronization kernel is made of:

    - [src/sub/wm.c], [include/wm.h]: window pool, z-order list, dirty
      rectangle accumulator, hit testing, titles;
    - [include/common.h] (the revision with the Word RAM helpers),
      [include/ga_regs.h]: command/status handshake and bank swap;
    - [src/sub/sub.c]: the command dispatcher of the Sub CPU.

    Integers are [Z] with the C wrap-around written out; [Window *] is an
    index into the static pool ([option nat], [None] is the null pointer). *)

From Stdlib Require Import ZArith Lia List Bool.
From stdpp Require Import base list strings.
Import ListNotations.
Open Scope Z_scope.

(** ** Machine integers *)

Definition to_u8 (z : Z) : Z := z mod 256.
Definition to_u16 (z : Z) : Z := z mod 65536.
Definition to_i16 (z : Z) : Z := (z + 32768) mod 65536 - 32768.

(** ** sega_os.h: graphics primitives *)

Record Rect : Type := mkRect { top : Z; left : Z; bottom : Z; right : Z }.
Record Point : Type := mkPoint { x : Z; y : Z }.

(** ** wm.h: configuration *)

Definition WM_MAX_WINDOWS : nat := 16.
Definition WM_MAX_DIRTY_RECTS : nat := 32.
Definition WM_TITLE_MAX : nat := 31.
Definition WM_SCREEN_W : Z := 320.
Definition WM_SCREEN_H : Z := 224.
Definition WM_MENUBAR_H : Z := 20.

Inductive WindowPart : Type :=
| WM_PART_NONE | WM_PART_MENUBAR | WM_PART_DESKTOP | WM_PART_DRAG
| WM_PART_CONTENT | WM_PART_CLOSE | WM_PART_GROW | WM_PART_GOAWAY.

Definition WM_STYLE_DOCUMENT : Z := 0.
Definition WM_STYLE_DIALOG : Z := 1.
Definition WM_STYLE_PLAIN : Z := 2.
Definition WM_STYLE_SHADOW : Z := 3.
Definition WM_STYLE_ALERT : Z := 4.

Definition WF_VISIBLE : Z := 0x01.
Definition WF_HILITED : Z := 0x02.
Definition WF_HAS_CLOSE : Z := 0x04.
Definition WF_HAS_GROW : Z := 0x08.
Definition WF_MODAL : Z := 0x10.
Definition WF_DIRTY : Z := 0x20.

(** [struct Window].  The three callbacks are function pointers; a
    non-null one is the number of the procedure it points to. *)
Record Window : Type := mkWindow {
  id : Z;
  style : Z;
  flags : Z;
  frame : Rect;
  content : Rect;
  titleBar : Rect;
  title : list Z;
  above : option nat;
  below : option nat;
  refCon : Z;
  drawProc : option nat;
  clickProc : option nat;
  dragProc : option nat;
  wDirtyCount : Z;
  wDirtyRects : list Rect
}.

Record DirtyRect : Type := mkDirty { rect : Rect; valid : Z }.

(** [WindowManager]: the single instance [wm] of wm.c. *)
Record WindowManager : Type := mkWM {
  pool : list Window;
  poolUsed : list Z;
  windowCount : Z;
  topWindow : option nat;
  bottomWindow : option nat;
  activeWindow : option nat;
  dirtyRects : list DirtyRect;
  dirtyCount : Z;
  desktopPattern : Z;
  menuBarDirty : Z;
  cursorPos : Point;
  cursorVisible : Z
}.

(** Field updates ([w->f = v] and [wm.f = v]). *)
Definition set_id v (w : Window) : Window :=
  mkWindow v (style w) (flags w) (frame w) (content w) (titleBar w) (title w)
    (above w) (below w) (refCon w) (drawProc w) (clickProc w) (dragProc w)
    (wDirtyCount w) (wDirtyRects w).
Definition set_style v (w : Window) : Window :=
  mkWindow (id w) v (flags w) (frame w) (content w) (titleBar w) (title w)
    (above w) (below w) (refCon w) (drawProc w) (clickProc w) (dragProc w)
    (wDirtyCount w) (wDirtyRects w).
Definition set_flags v (w : Window) : Window :=
  mkWindow (id w) (style w) v (frame w) (content w) (titleBar w) (title w)
    (above w) (below w) (refCon w) (drawProc w) (clickProc w) (dragProc w)
    (wDirtyCount w) (wDirtyRects w).
Definition set_frame v (w : Window) : Window :=
  mkWindow (id w) (style w) (flags w) v (content w) (titleBar w) (title w)
    (above w) (below w) (refCon w) (drawProc w) (clickProc w) (dragProc w)
    (wDirtyCount w) (wDirtyRects w).
Definition set_content v (w : Window) : Window :=
  mkWindow (id w) (style w) (flags w) (frame w) v (titleBar w) (title w)
    (above w) (below w) (refCon w) (drawProc w) (clickProc w) (dragProc w)
    (wDirtyCount w) (wDirtyRects w).
Definition set_titleBar v (w : Window) : Window :=
  mkWindow (id w) (style w) (flags w) (frame w) (content w) v (title w)
    (above w) (below w) (refCon w) (drawProc w) (clickProc w) (dragProc w)
    (wDirtyCount w) (wDirtyRects w).
Definition set_title v (w : Window) : Window :=
  mkWindow (id w) (style w) (flags w) (frame w) (content w) (titleBar w) v
    (above w) (below w) (refCon w) (drawProc w) (clickProc w) (dragProc w)
    (wDirtyCount w) (wDirtyRects w).
Definition set_above v (w : Window) : Window :=
  mkWindow (id w) (style w) (flags w) (frame w) (content w) (titleBar w)
    (title w) v (below w) (refCon w) (drawProc w) (clickProc w) (dragProc w)
    (wDirtyCount w) (wDirtyRects w).
Definition set_below v (w : Window) : Window :=
  mkWindow (id w) (style w) (flags w) (frame w) (content w) (titleBar w)
    (title w) (above w) v (refCon w) (drawProc w) (clickProc w) (dragProc w)
    (wDirtyCount w) (wDirtyRects w).

Definition set_pool v (s : WindowManager) : WindowManager :=
  mkWM v (poolUsed s) (windowCount s) (topWindow s) (bottomWindow s)
    (activeWindow s) (dirtyRects s) (dirtyCount s) (desktopPattern s)
    (menuBarDirty s) (cursorPos s) (cursorVisible s).
Definition set_poolUsed v (s : WindowManager) : WindowManager :=
  mkWM (pool s) v (windowCount s) (topWindow s) (bottomWindow s)
    (activeWindow s) (dirtyRects s) (dirtyCount s) (desktopPattern s)
    (menuBarDirty s) (cursorPos s) (cursorVisible s).
Definition set_windowCount v (s : WindowManager) : WindowManager :=
  mkWM (pool s) (poolUsed s) v (topWindow s) (bottomWindow s)
    (activeWindow s) (dirtyRects s) (dirtyCount s) (desktopPattern s)
    (menuBarDirty s) (cursorPos s) (cursorVisible s).
Definition set_topWindow v (s : WindowManager) : WindowManager :=
  mkWM (pool s) (poolUsed s) (windowCount s) v (bottomWindow s)
    (activeWindow s) (dirtyRects s) (dirtyCount s) (desktopPattern s)
    (menuBarDirty s) (cursorPos s) (cursorVisible s).
Definition set_bottomWindow v (s : WindowManager) : WindowManager :=
  mkWM (pool s) (poolUsed s) (windowCount s) (topWindow s) v
    (activeWindow s) (dirtyRects s) (dirtyCount s) (desktopPattern s)
    (menuBarDirty s) (cursorPos s) (cursorVisible s).
Definition set_activeWindow v (s : WindowManager) : WindowManager :=
  mkWM (pool s) (poolUsed s) (windowCount s) (topWindow s) (bottomWindow s)
    v (dirtyRects s) (dirtyCount s) (desktopPattern s)
    (menuBarDirty s) (cursorPos s) (cursorVisible s).
Definition set_dirtyRects v (s : WindowManager) : WindowManager :=
  mkWM (pool s) (poolUsed s) (windowCount s) (topWindow s) (bottomWindow s)
    (activeWindow s) v (dirtyCount s) (desktopPattern s)
    (menuBarDirty s) (cursorPos s) (cursorVisible s).
Definition set_dirtyCount v (s : WindowManager) : WindowManager :=
  mkWM (pool s) (poolUsed s) (windowCount s) (topWindow s) (bottomWindow s)
    (activeWindow s) (dirtyRects s) v (desktopPattern s)
    (menuBarDirty s) (cursorPos s) (cursorVisible s).
Definition set_menuBarDirty v (s : WindowManager) : WindowManager :=
  mkWM (pool s) (poolUsed s) (windowCount s) (topWindow s) (bottomWindow s)
    (activeWindow s) (dirtyRects s) (dirtyCount s) (desktopPattern s)
    v (cursorPos s) (cursorVisible s).

(** ** wm.c: internal helpers *)

Definition zero_rect : Rect := mkRect 0 0 0 0.

(** What [memset(&wm.pool[i], 0, sizeof(Window))] leaves. *)
Definition zero_window : Window :=
  mkWindow 0 0 0 zero_rect zero_rect zero_rect (replicate 32 0)
    None None 0 None None None 0 (replicate 4 zero_rect).

Definition zero_dirty : DirtyRect := mkDirty zero_rect 0.

(** [wm.pool[i]] and [wm.pool[i] = f(wm.pool[i])]. *)
Definition win_at (s : WindowManager) (i : nat) : Window :=
  nth i (pool s) zero_window.

Definition upd_win (i : nat) (f : Window -> Window) (s : WindowManager)
  : WindowManager :=
  set_pool (<[i := f (win_at s i)]> (pool s)) s.

Definition ptr_eqb (p q : option nat) : bool :=
  match p, q with
  | Some a, Some b => Nat.eqb a b
  | None, None => true
  | _, _ => false
  end.

(** [flags & mask] used as a condition. *)
Definition flag_set (f mask : Z) : bool := negb (Z.land f mask =? 0).

Definition rect_width (r : Rect) : Z := to_i16 (right r - left r).
Definition rect_height (r : Rect) : Z := to_i16 (bottom r - top r).

Definition rect_contains_point (r : Rect) (pt : Point) : bool :=
  (left r <=? x pt) && (x pt <? right r) && (top r <=? y pt)
  && (y pt <? bottom r).

Definition rect_intersects (a b : Rect) : bool :=
  negb ((right a <=? left b) || (right b <=? left a)
        || (bottom a <=? top b) || (bottom b <=? top a)).

Definition rect_union (a b : Rect) : Rect :=
  mkRect (if top a <? top b then top a else top b)
         (if left a <? left b then left a else left b)
         (if bottom b <? bottom a then bottom a else bottom b)
         (if right b <? right a then right a else right b).

Definition rect_clip_to_screen (r : Rect) : Rect :=
  mkRect (if top r <? 0 then 0 else top r)
         (if left r <? 0 then 0 else left r)
         (if WM_SCREEN_H <? bottom r then WM_SCREEN_H else bottom r)
         (if WM_SCREEN_W <? right r then WM_SCREEN_W else right r).

Definition BORDER_W : Z := 1.
Definition TITLEBAR_H : Z := 18.
Definition CLOSE_SIZE : Z := 12.
Definition SHADOW_W : Z := 1.

Definition compute_window_rects (w : Window) : Window :=
  let f := frame w in
  let tb := mkRect (to_i16 (top f + BORDER_W)) (to_i16 (left f + BORDER_W))
                   (to_i16 (top f + BORDER_W + TITLEBAR_H))
                   (to_i16 (right f - BORDER_W)) in
  let ct := mkRect (to_i16 (bottom tb + 1)) (to_i16 (left f + BORDER_W))
                   (to_i16 (bottom f - BORDER_W))
                   (to_i16 (right f - BORDER_W)) in
  if (style w =? WM_STYLE_PLAIN) || (style w =? WM_STYLE_SHADOW) then
    set_content (mkRect (to_i16 (top f + BORDER_W)) (left ct) (bottom ct)
                        (right ct))
      (set_titleBar (mkRect 0 (left tb) 0 (right tb)) w)
  else set_content ct (set_titleBar tb w).

(** The scan of [pool_alloc]: [for (i = 0; i < WM_MAX_WINDOWS; i++)],
    [n] iterations left from index [i]. *)
Fixpoint pool_scan (used : list Z) (i n : nat) : option nat :=
  match n with
  | O => None
  | S n' => if nth i used 0 =? 0 then Some i else pool_scan used (S i) n'
  end.

Definition pool_alloc (s : WindowManager) : option nat * WindowManager :=
  match pool_scan (poolUsed s) 0 WM_MAX_WINDOWS with
  | Some i =>
      let s1 := set_poolUsed (<[i := 1]> (poolUsed s)) s in
      let s2 := set_windowCount (to_u8 (windowCount s1 + 1)) s1 in
      let s3 := set_pool (<[i := zero_window]> (pool s2)) s2 in
      (Some i, upd_win i (set_id (Z.of_nat i)) s3)
  | None => (None, s)
  end.

Definition pool_free (win : option nat) (s : WindowManager) : WindowManager :=
  match win with
  | Some w =>
      if id (win_at s w) <? Z.of_nat WM_MAX_WINDOWS then
        let s1 :=
          set_poolUsed (<[Z.to_nat (id (win_at s w)) := 0]> (poolUsed s)) s in
        set_windowCount (to_u8 (windowCount s1 - 1)) s1
      else s
  | None => s
  end.

Definition zorder_unlink (w : nat) (s : WindowManager) : WindowManager :=
  let s1 :=
    match above (win_at s w) with
    | Some a => upd_win a (set_below (below (win_at s w))) s
    | None => set_topWindow (below (win_at s w)) s
    end in
  let s2 :=
    match below (win_at s1 w) with
    | Some b => upd_win b (set_above (above (win_at s1 w))) s1
    | None => set_bottomWindow (above (win_at s1 w)) s1
    end in
  upd_win w (set_below None) (upd_win w (set_above None) s2).

Definition zorder_push_top (w : nat) (s : WindowManager) : WindowManager :=
  let s1 := upd_win w (set_above None) s in
  let s2 := upd_win w (set_below (topWindow s1)) s1 in
  let s3 :=
    match topWindow s2 with
    | Some t => upd_win t (set_above (Some w)) s2
    | None => s2
    end in
  let s4 := set_topWindow (Some w) s3 in
  match bottomWindow s4 with
  | Some _ => s4
  | None => set_bottomWindow (Some w) s4
  end.

(** ** wm.c: dirty rectangles *)

(** The merge loop of [WM_InvalidateRect]: [n] iterations left from
    entry [i]; [Some] is the accumulator after the early [return]. *)
Fixpoint dirty_merge (rs : list DirtyRect) (clipped : Rect) (i n : nat)
  : option (list DirtyRect) :=
  match n with
  | O => None
  | S n' =>
      let d := nth i rs zero_dirty in
      if negb (valid d =? 0) && rect_intersects (rect d) clipped then
        Some (<[i := mkDirty (rect_union (rect d) clipped) (valid d)]> rs)
      else dirty_merge rs clipped (S i) n'
  end.

Definition WM_InvalidateRect (r : option Rect) (s : WindowManager)
  : WindowManager :=
  match r with
  | None => s
  | Some r0 =>
      let clipped := rect_clip_to_screen r0 in
      if (right clipped <=? left clipped) || (bottom clipped <=? top clipped)
      then s
      else
        match dirty_merge (dirtyRects s) clipped 0 (Z.to_nat (dirtyCount s))
        with
        | Some rs => set_dirtyRects rs s
        | None =>
            if dirtyCount s <? Z.of_nat WM_MAX_DIRTY_RECTS then
              let k := Z.to_nat (dirtyCount s) in
              let s1 :=
                set_dirtyRects (<[k := mkDirty clipped 1]> (dirtyRects s)) s in
              set_dirtyCount (to_u8 (dirtyCount s1 + 1)) s1
            else
              let d0 := nth 0 (dirtyRects s) zero_dirty in
              set_dirtyRects
                (<[0%nat := mkDirty (rect_union (rect d0) clipped) (valid d0)]>
                   (dirtyRects s)) s
        end
  end.

Definition WM_InvalidateWindow (win : option nat) (s : WindowManager)
  : WindowManager :=
  match win with
  | Some w => WM_InvalidateRect (Some (frame (win_at s w))) s
  | None => s
  end.

Definition WM_BeginUpdate (s : WindowManager) : Z := dirtyCount s.

Definition WM_GetDirtyRect (index : Z) (s : WindowManager)
  : option DirtyRect :=
  if index <? dirtyCount s then Some (nth (Z.to_nat index) (dirtyRects s) zero_dirty)
  else None.

Definition WM_EndUpdate (s : WindowManager) : WindowManager :=
  let rs := map (fun d => mkDirty (rect d) 0)
                (firstn WM_MAX_DIRTY_RECTS (dirtyRects s))
            ++ skipn WM_MAX_DIRTY_RECTS (dirtyRects s) in
  set_menuBarDirty 0 (set_dirtyCount 0 (set_dirtyRects rs s)).

(** ** wm.c: public API *)

Definition WM_Init : WindowManager :=
  mkWM (replicate WM_MAX_WINDOWS zero_window) (replicate WM_MAX_WINDOWS 0) 0
    None None None (replicate WM_MAX_DIRTY_RECTS zero_dirty) 0
    1 0 (mkPoint (WM_SCREEN_W / 2) (WM_SCREEN_H / 2)) 1.

(** The title loop shared by [WM_NewWindow] and [WM_SetTitle]:
    [for (i = 0; i < WM_TITLE_MAX && title[i]; i++) dst[i] = title[i];
     dst[i] = 0], with [n] iterations left before [i] reaches
    [WM_TITLE_MAX].  [title[i]] is [nth i src 0]: a C string ends at its
    first NUL.  The result is the array and the indices stored to, in
    order. *)
Fixpoint title_copy (src : list Z) (i n : nat) (dst : list Z)
    (writes : list nat) : list Z * list nat :=
  match n with
  | O => (<[i := 0]> dst, writes ++ [i])
  | S n' =>
      if nth i src 0 =? 0 then (<[i := 0]> dst, writes ++ [i])
      else title_copy src (S i) n' (<[i := nth i src 0]> dst) (writes ++ [i])
  end.

Definition store_title (src : list Z) (w : Window) : Window :=
  set_title (fst (title_copy src 0 WM_TITLE_MAX (title w) [])) w.

Definition or_flag (mask : Z) (w : Window) : Window :=
  set_flags (to_u8 (Z.lor (flags w) mask)) w.
Definition clear_flag (mask : Z) (w : Window) : Window :=
  set_flags (to_u8 (Z.land (flags w) (Z.lnot mask))) w.

Definition WM_NewWindow (bounds : Rect) (ttl : option (list Z)) (sty : Z)
    (flgs : Z) (s : WindowManager) : option nat * WindowManager :=
  match pool_alloc s with
  | (None, s0) => (None, s0)
  | (Some w, s0) =>
      let s1 := upd_win w (set_frame (rect_clip_to_screen bounds)) s0 in
      let s2 := upd_win w (set_style (to_u8 sty)) s1 in
      let s3 := upd_win w (set_flags flgs) s2 in
      let s4 :=
        match ttl with
        | Some t => upd_win w (store_title t) s3
        | None => s3
        end in
      let s5 :=
        if sty =? WM_STYLE_DOCUMENT then upd_win w (or_flag WF_HAS_CLOSE) s4
        else s4 in
      let s6 :=
        if (sty =? WM_STYLE_DIALOG) || (sty =? WM_STYLE_ALERT)
        then upd_win w (or_flag WF_MODAL) s5 else s5 in
      let s7 := upd_win w compute_window_rects s6 in
      let s8 := zorder_push_top w s7 in
      let s9 :=
        match activeWindow s8 with
        | Some a => upd_win a (clear_flag WF_HILITED) s8
        | None => s8
        end in
      let s10 := set_activeWindow (Some w) s9 in
      let s11 := upd_win w (or_flag WF_HILITED) s10 in
      let s12 :=
        if flag_set flgs WF_VISIBLE then WM_InvalidateWindow (Some w) s11
        else s11 in
      (Some w, s12)
  end.

Definition WM_DisposeWindow (win : option nat) (s : WindowManager)
  : WindowManager :=
  match win with
  | None => s
  | Some w =>
      let s1 := WM_InvalidateRect (Some (frame (win_at s w))) s in
      let s2 := zorder_unlink w s1 in
      let s3 :=
        if ptr_eqb (activeWindow s2) (Some w) then
          let s' := set_activeWindow (topWindow s2) s2 in
          match activeWindow s' with
          | Some a => upd_win a (or_flag WF_HILITED) s'
          | None => s'
          end
        else s2 in
      pool_free (Some w) s3
  end.

Definition WM_SelectWindow (win : option nat) (s : WindowManager)
  : WindowManager :=
  match win with
  | None => s
  | Some w =>
      if ptr_eqb (Some w) (topWindow s) then s
      else
        let s1 :=
          match activeWindow s with
          | Some a =>
              WM_InvalidateWindow (Some a) (upd_win a (clear_flag WF_HILITED) s)
          | None => s
          end in
        let s2 := zorder_push_top w (zorder_unlink w s1) in
        let s3 := set_activeWindow (Some w) s2 in
        WM_InvalidateWindow (Some w) (upd_win w (or_flag WF_HILITED) s3)
  end.

Definition WM_SendToBack (win : option nat) (s : WindowManager)
  : WindowManager :=
  match win with
  | None => s
  | Some w =>
      if ptr_eqb (Some w) (bottomWindow s) then s
      else
        let s1 := zorder_unlink w s in
        let s2 := upd_win w (set_below None) s1 in
        let s3 := upd_win w (set_above (bottomWindow s2)) s2 in
        let s4 :=
          match bottomWindow s3 with
          | Some b => upd_win b (set_below (Some w)) s3
          | None => s3
          end in
        let s5 := set_bottomWindow (Some w) s4 in
        let s6 :=
          match topWindow s5 with
          | Some _ => s5
          | None => set_topWindow (Some w) s5
          end in
        WM_InvalidateRect (Some (frame (win_at s6 w))) s6
  end.

Definition WM_ShowWindow (win : option nat) (s : WindowManager)
  : WindowManager :=
  match win with
  | None => s
  | Some w =>
      if flag_set (flags (win_at s w)) WF_VISIBLE then s
      else WM_InvalidateWindow (Some w) (upd_win w (or_flag WF_VISIBLE) s)
  end.

Definition WM_HideWindow (win : option nat) (s : WindowManager)
  : WindowManager :=
  match win with
  | None => s
  | Some w =>
      if negb (flag_set (flags (win_at s w)) WF_VISIBLE) then s
      else
        let s1 := upd_win w (clear_flag WF_VISIBLE) s in
        WM_InvalidateRect (Some (frame (win_at s1 w))) s1
  end.

Definition WM_MoveWindow (win : option nat) (px py : Z) (s : WindowManager)
  : WindowManager :=
  match win with
  | None => s
  | Some w =>
      let oldFrame := frame (win_at s w) in
      let dx := to_i16 (px - left oldFrame) in
      let dy := to_i16 (py - top oldFrame) in
      let moved :=
        mkRect (to_i16 (top oldFrame + dy)) (to_i16 (left oldFrame + dx))
               (to_i16 (bottom oldFrame + dy)) (to_i16 (right oldFrame + dx)) in
      let s1 := upd_win w (set_frame (rect_clip_to_screen moved)) s in
      let s2 := upd_win w compute_window_rects s1 in
      WM_InvalidateWindow (Some w) (WM_InvalidateRect (Some oldFrame) s2)
  end.

Definition WM_SizeWindow (win : option nat) (pw ph : Z) (s : WindowManager)
  : WindowManager :=
  match win with
  | None => s
  | Some w =>
      let oldFrame := frame (win_at s w) in
      let sized :=
        mkRect (top oldFrame) (left oldFrame)
               (to_i16 (top oldFrame + ph)) (to_i16 (left oldFrame + pw)) in
      let s1 := upd_win w (set_frame (rect_clip_to_screen sized)) s in
      let s2 := upd_win w compute_window_rects s1 in
      WM_InvalidateWindow (Some w) (WM_InvalidateRect (Some oldFrame) s2)
  end.

Definition WM_SetTitle (win : option nat) (ttl : option (list Z))
    (s : WindowManager) : WindowManager :=
  match win, ttl with
  | Some w, Some t =>
      let s1 := upd_win w (store_title t) s in
      WM_InvalidateRect (Some (titleBar (win_at s1 w))) s1
  | _, _ => s
  end.

(** ** wm.c: hit testing *)

(** The body of the loop of [WM_FindWindow] once the frame of [w]
    contains the point. *)
Definition hit_part (w : Window) (pt : Point) : WindowPart :=
  let cl := to_i16 (left (titleBar w) + 4) in
  let ct := to_i16 (top (titleBar w) + 3) in
  let closeBox :=
    mkRect ct cl (to_i16 (ct + CLOSE_SIZE)) (to_i16 (cl + CLOSE_SIZE)) in
  let gr := to_i16 (right (frame w) - 1) in
  let gb := to_i16 (bottom (frame w) - 1) in
  let growBox := mkRect (to_i16 (gb - 12)) (to_i16 (gr - 12)) gb gr in
  if flag_set (flags w) WF_HAS_CLOSE && rect_contains_point (titleBar w) pt
     && rect_contains_point closeBox pt
  then WM_PART_CLOSE
  else if flag_set (flags w) WF_HAS_GROW && rect_contains_point growBox pt
  then WM_PART_GROW
  else if rect_contains_point (titleBar w) pt then WM_PART_DRAG
  else if rect_contains_point (content w) pt then WM_PART_CONTENT
  else WM_PART_DRAG.

(** [for (win = wm.topWindow; win; win = win->below)]: the walk follows
    stored pointers, so it takes fuel; [None] is fuel exhausted. *)
Fixpoint find_walk (s : WindowManager) (pt : Point) (win : option nat)
    (fuel : nat) : option (WindowPart * option nat) :=
  match win with
  | None => Some (WM_PART_DESKTOP, None)
  | Some w =>
      match fuel with
      | O => None
      | S fuel' =>
          let W := win_at s w in
          if negb (flag_set (flags W) WF_VISIBLE)
          then find_walk s pt (below W) fuel'
          else if rect_contains_point (frame W) pt
               then Some (hit_part W pt, Some w)
               else find_walk s pt (below W) fuel'
      end
  end.

Definition WM_FindWindow (fuel : nat) (pt : Point) (s : WindowManager)
  : option (WindowPart * option nat) :=
  if y pt <? WM_MENUBAR_H then Some (WM_PART_MENUBAR, None)
  else find_walk s pt (topWindow s) fuel.

Definition WM_HitTest (fuel : nat) (pt : Point) (s : WindowManager)
  : option (WindowPart * option nat) := WM_FindWindow fuel pt s.

Definition WM_GetWindowById (i : Z) (s : WindowManager) : option nat :=
  if (i <? Z.of_nat WM_MAX_WINDOWS)
     && negb (nth (Z.to_nat i) (poolUsed s) 0 =? 0)
  then Some (Z.to_nat i) else None.

Definition WM_GetWindowCount (s : WindowManager) : Z := windowCount s.
Definition WM_GetTopWindow (s : WindowManager) : option nat := topWindow s.
Definition WM_GetBottomWindow (s : WindowManager) : option nat :=
  bottomWindow s.
Definition WM_GetActiveWindow (s : WindowManager) : option nat :=
  activeWindow s.

(** ** wm.c: desktop *)

Definition set_desktopPattern v (s : WindowManager) : WindowManager :=
  mkWM (pool s) (poolUsed s) (windowCount s) (topWindow s) (bottomWindow s)
    (activeWindow s) (dirtyRects s) (dirtyCount s) v
    (menuBarDirty s) (cursorPos s) (cursorVisible s).

(** The desktop area: the screen below the menu bar. *)
Definition desktop_rect : Rect :=
  mkRect WM_MENUBAR_H 0 WM_SCREEN_H WM_SCREEN_W.

Definition WM_SetDesktopPattern (pattern : Z) (s : WindowManager)
  : WindowManager :=
  if negb (pattern =? desktopPattern s) then
    WM_InvalidateRect (Some desktop_rect) (set_desktopPattern pattern s)
  else s.

(** * Gate array registers and the two processors *)

(** ** common.h: opcodes, status codes, Sub CPU states *)

Definition CMD_NONE : Z := 0x00.
Definition CMD_BOOT : Z := 0x01.
Definition CMD_INIT_OS : Z := 0x02.
Definition CMD_RENDER_FRAME : Z := 0x10.
Definition CMD_WRAM_SWAP : Z := 0x11.
Definition CMD_OPEN_WINDOW : Z := 0x20.
Definition CMD_CLOSE_WINDOW : Z := 0x21.
Definition CMD_MOVE_WINDOW : Z := 0x22.
Definition CMD_DRAW_TEXT : Z := 0x30.
Definition CMD_DRAW_ICON : Z := 0x31.
Definition CMD_CD_PLAY : Z := 0x40.
Definition CMD_CD_STOP : Z := 0x41.
Definition CMD_FILE_READ : Z := 0x50.
Definition CMD_FILE_WRITE : Z := 0x51.
Definition CMD_MOUSE_EVENT : Z := 0x60.

Definition STATUS_IDLE : Z := 0x00.
Definition STATUS_BUSY : Z := 0x01.
Definition STATUS_ACK : Z := 0x02.
Definition STATUS_DONE : Z := 0x03.
Definition STATUS_ERROR : Z := 0xFF.

Definition SUB_STATE_RESET : Z := 0.
Definition SUB_STATE_BOOTING : Z := 1.
Definition SUB_STATE_READY : Z := 2.
Definition SUB_STATE_RENDERING : Z := 3.
Definition SUB_STATE_CRASHED : Z := 0xFF.

(** ** ga_regs.h: the registers the code touches *)

Definition MEM_MODE_RET : Z := 0x0001.
Definition MEM_MODE_DMNA : Z := 0x0002.
Definition MEM_MODE_1M : Z := 0x0004.

(** [GA_COMM_FLAG] is accessed bytewise: [R_CFM] is its high byte (written
    by Main), [R_CFS] its low byte (written by Sub); [R_CMD i] is
    [GA_COMM_CMD0 + 2*i], [R_STATUS i] is [GA_COMM_STATUS0 + 2*i]. *)
Inductive reg : Type :=
| R_CFM | R_CFS | R_CMD (i : nat) | R_STATUS (i : nat) | R_MEM_MODE.

Record GateArray : Type := mkGA {
  cfm : Z;
  cfs : Z;
  cmd_regs : list Z;
  status_regs : list Z;
  mem_mode : Z
}.

Inductive Agent : Type := Main | Sub | Hardware.

Definition read_reg (r : reg) (g : GateArray) : Z :=
  match r with
  | R_CFM => cfm g
  | R_CFS => cfs g
  | R_CMD i => nth i (cmd_regs g) 0
  | R_STATUS i => nth i (status_regs g) 0
  | R_MEM_MODE => mem_mode g
  end.

(** A store to a register.  Flag bytes are 8 bits wide, the others 16.
    In [GA_MEM_MODE] the RET bit belongs to the Sub CPU and the DMNA bit
    to the Main CPU (ga_regs.h): a store by one processor leaves the
    other processor's bit as it is. *)
Definition write_reg (who : Agent) (r : reg) (v : Z) (g : GateArray)
  : GateArray :=
  match r with
  | R_CFM => mkGA (to_u8 v) (cfs g) (cmd_regs g) (status_regs g) (mem_mode g)
  | R_CFS => mkGA (cfm g) (to_u8 v) (cmd_regs g) (status_regs g) (mem_mode g)
  | R_CMD i =>
      mkGA (cfm g) (cfs g) (<[i := to_u16 v]> (cmd_regs g)) (status_regs g)
        (mem_mode g)
  | R_STATUS i =>
      mkGA (cfm g) (cfs g) (cmd_regs g) (<[i := to_u16 v]> (status_regs g))
        (mem_mode g)
  | R_MEM_MODE =>
      let peer :=
        match who with
        | Main => MEM_MODE_RET
        | Sub => MEM_MODE_DMNA
        | Hardware => 0
        end in
      mkGA (cfm g) (cfs g) (cmd_regs g) (status_regs g)
        (Z.lor (Z.land (to_u16 v) (Z.lnot peer)) (Z.land (mem_mode g) peer))
  end.

(** ** Collaborators of the dispatcher (blitter, menu bar, applications) *)

Inductive Ext : Type :=
| BLT_Init (base : Z)
| BLT_SetMode
| MenuBar_Init
| MenuBar_AddMenu (name : list Z)
| MenuBar_AddItem (menu : Z) (text : list Z) (commandID : Z) (fl : Z)
| MenuBar_AddSeparator (menu : Z)
| MEM_Init
| BLT_SetClipRect (r : Rect)
| BLT_FillRectPattern (r : Rect)
| BLT_DrawWindowFrame (w : nat)
| BLT_ResetClip
| MenuBar_Draw
| MenuBar_IsTracking
| MenuBar_DrawDropdown
| BLT_BlitBitmap1 (px py : Z)
| MenuBar_HandleMouseDown (px py : Z)
| MenuBar_HandleMouseMove (px py : Z)
| MenuBar_HandleMouseUp (px py : Z)
| Calc_Open
| Notepad_Open
| Paint_Open
| CallDrawProc (p : nat) (w : nat)
| CallClickProc (p : nat) (w : nat) (pt : Point)
| CallDragProc (p : nat) (w : nat) (pt : Point).

(** ** Programs of one processor

    Straight-line code over the shared registers.  [Spin r again k] is a
    busy-wait: [do { v = r; } while (again v);] then [k v].  [Call] is a
    collaborator that returns a value; [App] is application code that may
    call back into the window manager: it is handed the window manager's
    state and leaves a new one.  [Diverge] is a loop that cannot end. *)
Inductive Prog (A : Type) : Type :=
| Ret (a : A)
| Read (r : reg) (k : Z -> Prog A)
| Write (r : reg) (v : Z) (k : Prog A)
| Spin (r : reg) (again : Z -> bool) (k : Z -> Prog A)
| Call (e : Ext) (k : Z -> Prog A)
| App (e : Ext) (w : WindowManager) (k : WindowManager -> Prog A)
| Diverge.

Arguments Ret {A} a.
Arguments Read {A} r k.
Arguments Write {A} r v k.
Arguments Spin {A} r again k.
Arguments Call {A} e k.
Arguments App {A} e w k.
Arguments Diverge {A}.

Fixpoint bind {A B : Type} (p : Prog A) (f : A -> Prog B) : Prog B :=
  match p with
  | Ret a => f a
  | Read r k => Read r (fun v => bind (k v) f)
  | Write r v k => Write r v (bind k f)
  | Spin r again k => Spin r again (fun v => bind (k v) f)
  | Call e k => Call e (fun v => bind (k v) f)
  | App e w k => App e w (fun w' => bind (k w') f)
  | Diverge => Diverge
  end.

Notation "x <- p ;; q" := (bind p (fun x => q))
  (at level 100, p at next level, right associativity).
Notation "p ;;; q" := (bind p (fun _ => q))
  (at level 100, q at level 200, right associativity).

(** ** common.h: Main CPU side *)

Definition main_send_cmd (cmd p0 p1 p2 p3 : Z) : Prog unit :=
  Spin R_CFS (fun v => negb (v =? STATUS_IDLE)) (fun _ =>
  Write (R_CMD 0) p0 (
  Write (R_CMD 1) p1 (
  Write (R_CMD 2) p2 (
  Write (R_CMD 3) p3 (
  Write R_CFM cmd (Ret tt)))))).

Definition main_wait_done : Prog Z :=
  Spin R_CFS
    (fun v => negb (v =? STATUS_DONE) && negb (v =? STATUS_ERROR))
    (fun status =>
  Write R_CFM CMD_NONE (
  Spin R_CFS (fun v => negb (v =? STATUS_IDLE)) (fun _ =>
  Ret status))).

Definition main_read_result (index : nat) : Prog Z :=
  Read (R_STATUS index) (fun v => Ret v).

Definition main_send_param (index : nat) (value : Z) : Prog unit :=
  Write (R_CMD index) value (Ret tt).

Definition main_has_wram : Prog Z :=
  Read R_MEM_MODE (fun m =>
  Ret (if Z.land m MEM_MODE_DMNA =? 0 then 1 else 0)).

Definition main_request_swap : Prog unit :=
  Read R_MEM_MODE (fun mem =>
  Write R_MEM_MODE (Z.lor mem MEM_MODE_DMNA) (
  Spin R_MEM_MODE (fun m => negb (Z.land m MEM_MODE_DMNA =? 0)) (fun _ =>
  Ret tt))).

(** ** common.h: Sub CPU side *)

Definition sub_wait_cmd : Prog Z :=
  Spin R_CFM (fun c => c =? CMD_NONE) (fun c => Ret c).

Definition sub_read_param (index : nat) : Prog Z :=
  Read (R_CMD index) (fun v => Ret v).

Definition sub_write_result (index : nat) (value : Z) : Prog unit :=
  Write (R_STATUS index) value (Ret tt).

Definition sub_ack : Prog unit := Write R_CFS STATUS_BUSY (Ret tt).

Definition sub_done : Prog unit :=
  Write R_CFS STATUS_DONE (
  Spin R_CFM (fun c => negb (c =? CMD_NONE)) (fun _ =>
  Write R_CFS STATUS_IDLE (Ret tt))).

Definition sub_error : Prog unit :=
  Write R_CFS STATUS_ERROR (
  Spin R_CFM (fun c => negb (c =? CMD_NONE)) (fun _ =>
  Write R_CFS STATUS_IDLE (Ret tt))).

Definition sub_return_wram : Prog unit :=
  Read R_MEM_MODE (fun mem =>
  Write R_MEM_MODE (Z.lor mem MEM_MODE_RET) (
  Spin R_MEM_MODE (fun m => negb (Z.land m MEM_MODE_RET =? 0)) (fun _ =>
  Ret tt))).

Definition sub_has_wram : Prog Z :=
  Read R_MEM_MODE (fun m =>
  Ret (if Z.land m MEM_MODE_RET =? 0 then 1 else 0)).

(** ** The machine: two processors, the gate array, the bank switch

    What is observable of a run: stores to registers, the value that
    ended a busy-wait, collaborator calls, and bank swaps. *)
Inductive Obs : Type :=
| ObsWrite (a : Agent) (r : reg) (v : Z)
| ObsSaw (a : Agent) (r : reg) (v : Z)
| ObsCall (a : Agent) (e : Ext)
| ObsSwap.

(** The collaborators' side of a run: the value the [n]-th call returns,
    and what the [n]-th application call does to the window manager. *)
Record Env : Type := mkEnv {
  answer : nat -> Z;
  app_effect : nat -> WindowManager -> WindowManager
}.

(** In 1M mode each processor sees one of the two Word RAM banks;
    [main_bank] and [sub_bank] are the banks currently mapped. *)
Record Sys (A B : Type) : Type := mkSys {
  ga : GateArray;
  main_bank : nat;
  sub_bank : nat;
  ncalls : nat;
  trace : list Obs;
  mainp : Prog A;
  subp : Prog B
}.

Arguments mkSys {A B}.
Arguments ga {A B}.
Arguments main_bank {A B}.
Arguments sub_bank {A B}.
Arguments ncalls {A B}.
Arguments trace {A B}.
Arguments mainp {A B}.
Arguments subp {A B}.

(** One step of a processor's program; [None] when the step changes
    nothing (the program has returned, or its busy-wait goes round). *)
Definition exec {A : Type} (E : Env) (who : Agent) (g : GateArray) (n : nat)
    (p : Prog A) : option (GateArray * nat * list Obs * Prog A) :=
  match p with
  | Ret _ => None
  | Read r k => Some (g, n, [], k (read_reg r g))
  | Write r v k => Some (write_reg who r v g, n, [ObsWrite who r v], k)
  | Spin r again k =>
      let v := read_reg r g in
      if again v then None else Some (g, n, [ObsSaw who r v], k v)
  | Call e k => Some (g, S n, [ObsCall who e], k (answer E n))
  | App e w k => Some (g, S n, [ObsCall who e], k (app_effect E n w))
  | Diverge => None
  end.

(** The bank switch, as the comments of [sub_return_wram] and
    [main_request_swap] describe the hardware: once RET is set the banks
    are exchanged and RET and DMNA read 0 again. *)
Definition hw_swap (g : GateArray) : GateArray :=
  mkGA (cfm g) (cfs g) (cmd_regs g) (status_regs g)
    (Z.land (mem_mode g) (Z.lnot (Z.lor MEM_MODE_RET MEM_MODE_DMNA))).

Definition step {A B : Type} (E : Env) (a : Agent) (s : Sys A B) : Sys A B :=
  match a with
  | Main =>
      match exec E Main (ga s) (ncalls s) (mainp s) with
      | None => s
      | Some (g, n, o, p) =>
          mkSys g (main_bank s) (sub_bank s) n (trace s ++ o) p (subp s)
      end
  | Sub =>
      match exec E Sub (ga s) (ncalls s) (subp s) with
      | None => s
      | Some (g, n, o, p) =>
          mkSys g (main_bank s) (sub_bank s) n (trace s ++ o) (mainp s) p
      end
  | Hardware =>
      if Z.land (mem_mode (ga s)) MEM_MODE_RET =? 0 then s
      else mkSys (hw_swap (ga s)) (sub_bank s) (main_bank s) (ncalls s)
             (trace s ++ [ObsSwap]) (mainp s) (subp s)
  end.

Definition run {A B : Type} (E : Env) (sched : list Agent) (s : Sys A B)
  : Sys A B :=
  fold_left (fun s a => step E a s) sched s.

(** The value a program that only reads registers returns when it is run
    at once on the current registers. *)
Fixpoint peek {A : Type} (g : GateArray) (p : Prog A) : option A :=
  match p with
  | Ret a => Some a
  | Read r k => peek g (k (read_reg r g))
  | _ => None
  end.

(** The registers after [sub_init]: parameters and results cleared, Sub
    idle and ready, no command posted, 1M mode, no swap pending. *)
Definition ga_ready : GateArray :=
  mkGA CMD_NONE STATUS_IDLE (replicate 8 0)
    (<[0%nat := SUB_STATE_READY]> (replicate 8 0)) MEM_MODE_1M.

Definition boot {A B : Type} (g : GateArray) (pm : Prog A) (ps : Prog B)
  : Sys A B := mkSys g 0%nat 1%nat 0%nat [] pm ps.

(** ** sub.c: the dispatcher of the Sub CPU *)

Definition to_i8 (z : Z) : Z := (z + 128) mod 256 - 128.

(** The window manager and the file-level statics of sub.c. *)
Record SubState : Type := mkSub {
  wm : WindowManager;
  cursorX : Z;
  cursorY : Z;
  prevCursorX : Z;
  prevCursorY : Z;
  dragWindow : option nat;
  dragOffsetX : Z;
  dragOffsetY : Z;
  windowCounter : Z
}.

Definition set_wm v (l : SubState) : SubState :=
  mkSub v (cursorX l) (cursorY l) (prevCursorX l) (prevCursorY l)
    (dragWindow l) (dragOffsetX l) (dragOffsetY l) (windowCounter l).
Definition set_cursor (cx cy : Z) (l : SubState) : SubState :=
  mkSub (wm l) cx cy (cursorX l) (cursorY l)
    (dragWindow l) (dragOffsetX l) (dragOffsetY l) (windowCounter l).
Definition set_drag (w : option nat) (ox oy : Z) (l : SubState) : SubState :=
  mkSub (wm l) (cursorX l) (cursorY l) (prevCursorX l) (prevCursorY l)
    w ox oy (windowCounter l).
Definition set_dragWindow (w : option nat) (l : SubState) : SubState :=
  set_drag w (dragOffsetX l) (dragOffsetY l) l.
Definition set_windowCounter v (l : SubState) : SubState :=
  mkSub (wm l) (cursorX l) (cursorY l) (prevCursorX l) (prevCursorY l)
    (dragWindow l) (dragOffsetX l) (dragOffsetY l) v.

Definition sub_boot_state : SubState :=
  mkSub WM_Init 160 112 160 112 None 0 0 0.

Definition call (e : Ext) : Prog Z := Call e (fun v => Ret v).
Definition app_call (e : Ext) (w : WindowManager) : Prog WindowManager :=
  App e w (fun w' => Ret w').

Definition cstr (s : string) : list Z :=
  map (fun c => Z.of_nat (Ascii.nat_of_ascii c)) (String.list_ascii_of_string s).

Definition MIF_NONE : Z := 0x00.
Definition MIF_DISABLED : Z := 0x02.

(** [int8_t m = MenuBar_AddMenu(name); if (m >= 0) { items }]. *)
Definition add_menu (name : string)
    (items : Z -> Prog unit) : Prog unit :=
  m <- call (MenuBar_AddMenu (cstr name)) ;;
  if 0 <=? to_i8 m then items (to_u8 (to_i8 m)) else Ret tt.

Definition add_item (m : Z) (text : string) (cid fl : Z) : Prog unit :=
  call (MenuBar_AddItem m (cstr text) cid fl) ;;; Ret tt.

Definition os_init (l : SubState) : Prog SubState :=
  call (BLT_Init 0x0C0000) ;;;
  call BLT_SetMode ;;;
  let l1 := set_wm WM_Init l in
  call MenuBar_Init ;;;
  add_menu "File"%string (fun m =>
    add_item m "New"%string 0x0101 MIF_NONE ;;;
    add_item m "Open"%string 0x0102 MIF_NONE ;;;
    add_item m "Close"%string 0x0103 MIF_NONE ;;;
    call (MenuBar_AddSeparator m) ;;;
    add_item m "Quit"%string 0x0104 MIF_NONE) ;;;
  add_menu "Edit"%string (fun m =>
    add_item m "Undo"%string 0x0201 MIF_DISABLED ;;;
    call (MenuBar_AddSeparator m) ;;;
    add_item m "Cut"%string 0x0202 MIF_NONE ;;;
    add_item m "Copy"%string 0x0203 MIF_NONE ;;;
    add_item m "Paste"%string 0x0204 MIF_NONE) ;;;
  add_menu "Apps"%string (fun m =>
    add_item m "Calculator"%string 0x0301 MIF_NONE ;;;
    add_item m "Notepad"%string 0x0302 MIF_NONE ;;;
    add_item m "Paint"%string 0x0303 MIF_NONE) ;;;
  call MEM_Init ;;;
  Ret l1.

(** Step 3 of the render case: [for (win = WM_GetBottomWindow(); win;
    win = win->above)].  The walk follows stored pointers and a draw
    callback may relink them, so it takes fuel. *)
Fixpoint render_windows (fuel : nat) (win : option nat) (l : SubState)
  : Prog SubState :=
  match win with
  | None => Ret l
  | Some w =>
      match fuel with
      | O => Diverge
      | S fuel' =>
          let W := win_at (wm l) w in
          if flag_set (flags W) WF_VISIBLE then
            call (BLT_DrawWindowFrame w) ;;;
            match drawProc W with
            | Some p =>
                w' <- app_call (CallDrawProc p w) (wm l) ;;
                render_windows fuel' (above (win_at w' w)) (set_wm w' l)
            | None => render_windows fuel' (above W) l
            end
          else render_windows fuel' (above W) l
      end
  end.

(** [for (i = 0; i < count; i++)] of the render case, [n] iterations
    left from index [i]. *)
Fixpoint render_rects (fuel n i : nat) (l : SubState) : Prog SubState :=
  match n with
  | O => Ret l
  | S n' =>
      match WM_GetDirtyRect (Z.of_nat i) (wm l) with
      | None => render_rects fuel n' (S i) l
      | Some dr =>
          if valid dr =? 0 then render_rects fuel n' (S i) l
          else
            call (BLT_SetClipRect (rect dr)) ;;;
            call (BLT_FillRectPattern (rect dr)) ;;;
            l' <- render_windows fuel (WM_GetBottomWindow (wm l)) l ;;
            render_rects fuel n' (S i) l'
      end
  end.

Definition cmd_render_frame (fuel : nat) (l : SubState) : Prog SubState :=
  sub_write_result 0 SUB_STATE_RENDERING ;;;
  let count := WM_BeginUpdate (wm l) in
  sub_write_result 1 count ;;;
  l1 <- render_rects fuel (Z.to_nat count) 0 l ;;
  call BLT_ResetClip ;;;
  call MenuBar_Draw ;;;
  t <- call MenuBar_IsTracking ;;
  (if to_u8 t =? 0 then Ret 0 else call MenuBar_DrawDropdown) ;;;
  call (BLT_BlitBitmap1 (cursorX l1) (cursorY l1)) ;;;
  let l2 := set_wm (WM_EndUpdate (wm l1)) l1 in
  sub_return_wram ;;;
  sub_write_result 0 SUB_STATE_READY ;;;
  sub_done ;;;
  Ret l2.

Definition cmd_open_window (l : SubState) : Prog SubState :=
  px <- sub_read_param 0 ;;
  py <- sub_read_param 1 ;;
  pw <- sub_read_param 2 ;;
  ph <- sub_read_param 3 ;;
  let bounds :=
    mkRect (to_i16 py) (to_i16 px) (to_i16 (py + ph)) (to_i16 (px + pw)) in
  let r := WM_NewWindow bounds (Some (cstr "Untitled"%string)) WM_STYLE_DOCUMENT
             WF_VISIBLE (wm l) in
  sub_write_result 0
    (match fst r with Some w => id (win_at (snd r) w) | None => 0xFF end) ;;;
  sub_done ;;;
  Ret (set_wm (snd r) l).

Definition cmd_close_window (l : SubState) : Prog SubState :=
  winId <- sub_read_param 0 ;;
  match WM_GetWindowById (to_u8 winId) (wm l) with
  | Some w =>
      let l1 := set_wm (WM_DisposeWindow (Some w) (wm l)) l in
      sub_write_result 0 0 ;;; sub_done ;;; Ret l1
  | None => sub_write_result 0 0xFF ;;; sub_done ;;; Ret l
  end.

Definition cmd_cd_play (l : SubState) : Prog SubState :=
  track <- sub_read_param 0 ;;
  sub_done ;;; Ret l.

Definition cmd_wram_swap (l : SubState) : Prog SubState :=
  sub_return_wram ;;; sub_done ;;; Ret l.

(** ** input.h: mouse events *)

Definition INPUT_EVT_NONE : Z := 0x00.
Definition INPUT_EVT_MOUSE_MOVE : Z := 0x01.
Definition INPUT_EVT_MOUSE_DOWN : Z := 0x02.
Definition INPUT_EVT_MOUSE_UP : Z := 0x03.
Definition INPUT_EVT_MOUSE_DRAG : Z := 0x04.

Record InputEvent : Type := mkEvt {
  evt_type : Z; evt_buttons : Z; evt_x : Z; evt_y : Z; evt_dx : Z; evt_dy : Z
}.

Definition Input_DecodeMouseEvent : Prog InputEvent :=
  posX <- sub_read_param 0 ;;
  posY <- sub_read_param 1 ;;
  packed <- sub_read_param 2 ;;
  deltaX <- sub_read_param 3 ;;
  Ret (mkEvt (to_u8 (Z.shiftr packed 8)) (to_u8 (Z.land packed 0xFF))
         (to_i16 posX) (to_i16 posY) (to_i16 deltaX) 0).

(** [Input_SendMouseEvent] once it has decided to send: the parameters
    are stored with [main_send_param] and the opcode is posted, without
    waiting for the Sub CPU on either side. *)
Definition Input_SendMouseEvent (mx my evtType buttons mdx : Z) : Prog unit :=
  main_send_param 0 (to_u16 mx) ;;;
  main_send_param 1 (to_u16 my) ;;;
  main_send_param 2 (Z.lor (Z.shiftl (to_u16 evtType) 8) (to_u16 buttons)) ;;;
  main_send_param 3 (to_u16 mdx) ;;;
  Write R_CFM CMD_MOUSE_EVENT (Ret tt).

(** [switch (hit.part)] of a mouse-down. *)
Definition mouse_down (evt : InputEvent) (hit : WindowPart * option nat)
    (l : SubState) : Prog SubState :=
  let clickPt := mkPoint (evt_x evt) (evt_y evt) in
  match fst hit, snd hit with
  | WM_PART_CONTENT, Some w =>
      let w1 := WM_SelectWindow (Some w) (wm l) in
      match clickProc (win_at w1 w) with
      | Some p =>
          w2 <- app_call (CallClickProc p w clickPt) w1 ;; Ret (set_wm w2 l)
      | None => Ret (set_wm w1 l)
      end
  | WM_PART_DRAG, Some w =>
      let w1 := WM_SelectWindow (Some w) (wm l) in
      Ret (set_drag (Some w)
             (to_i16 (evt_x evt - left (frame (win_at w1 w))))
             (to_i16 (evt_y evt - top (frame (win_at w1 w))))
             (set_wm w1 l))
  | WM_PART_CLOSE, Some w =>
      Ret (set_wm (WM_DisposeWindow (Some w) (wm l)) l)
  | WM_PART_MENUBAR, _ =>
      call (MenuBar_HandleMouseDown (evt_x evt) (evt_y evt)) ;;; Ret l
  | _, _ => Ret l
  end.

Definition mouse_drag (evt : InputEvent) (l : SubState) : Prog SubState :=
  t <- call MenuBar_IsTracking ;;
  if negb (to_u8 t =? 0) then
    call (MenuBar_HandleMouseMove (evt_x evt) (evt_y evt)) ;;; Ret l
  else
    match dragWindow l with
    | Some d =>
        let newX := to_i16 (evt_x evt - dragOffsetX l) in
        let newY := to_i16 (evt_y evt - dragOffsetY l) in
        let newY' := if newY <? WM_MENUBAR_H then WM_MENUBAR_H else newY in
        Ret (set_wm (WM_MoveWindow (Some d) newX newY' (wm l)) l)
    | None =>
        match WM_GetActiveWindow (wm l) with
        | Some a =>
            match dragProc (win_at (wm l) a) with
            | Some p =>
                w' <- app_call
                        (CallDragProc p a (mkPoint (evt_x evt) (evt_y evt)))
                        (wm l) ;;
                Ret (set_wm w' l)
            | None => Ret l
            end
        | None => Ret l
        end
    end.

(** [switch (sel.commandID)] of a mouse-up over an open menu. *)
Definition menu_command (commandID : Z) (l : SubState) : Prog SubState :=
  if commandID =? 0x0101 then
    let c := to_u8 (windowCounter l + 1) in
    let ttl := cstr "Window "%string ++ [48 + c / 10; 48 + c mod 10] in
    let bl := to_i16 (30 + (c * 12) mod 120) in
    let bt := to_i16 (40 + (c * 10) mod 80) in
    let bounds := mkRect bt bl (to_i16 (bt + 120)) (to_i16 (bl + 180)) in
    Ret (set_wm (snd (WM_NewWindow bounds (Some ttl) WM_STYLE_DOCUMENT
                        (Z.lor WF_VISIBLE WF_HAS_GROW) (wm l)))
           (set_windowCounter c l))
  else if commandID =? 0x0103 then
    match WM_GetActiveWindow (wm l) with
    | Some a => Ret (set_wm (WM_DisposeWindow (Some a) (wm l)) l)
    | None => Ret l
    end
  else if commandID =? 0x0301 then
    w' <- app_call Calc_Open (wm l) ;; Ret (set_wm w' l)
  else if commandID =? 0x0302 then
    w' <- app_call Notepad_Open (wm l) ;; Ret (set_wm w' l)
  else if commandID =? 0x0303 then
    w' <- app_call Paint_Open (wm l) ;; Ret (set_wm w' l)
  else Ret l.

Definition mouse_up (evt : InputEvent) (l : SubState) : Prog SubState :=
  t <- call MenuBar_IsTracking ;;
  l1 <- (if negb (to_u8 t =? 0) then
           sel <- call (MenuBar_HandleMouseUp (evt_x evt) (evt_y evt)) ;;
           if negb (to_u16 sel =? 0) then menu_command (to_u16 sel) l
           else Ret l
         else Ret l) ;;
  Ret (set_dragWindow None l1).

Definition cmd_mouse_event (fuel : nat) (l : SubState) : Prog SubState :=
  evt <- Input_DecodeMouseEvent ;;
  let l1 := set_cursor (evt_x evt) (evt_y evt) l in
  let dirtyOld :=
    mkRect (prevCursorY l1) (prevCursorX l1) (to_i16 (prevCursorY l1 + 16))
           (to_i16 (prevCursorX l1 + 11)) in
  let dirtyNew :=
    mkRect (cursorY l1) (cursorX l1) (to_i16 (cursorY l1 + 16))
           (to_i16 (cursorX l1 + 11)) in
  let l2 :=
    set_wm (WM_InvalidateRect (Some dirtyNew)
              (WM_InvalidateRect (Some dirtyOld) (wm l1))) l1 in
  l3 <- (if evt_type evt =? INPUT_EVT_MOUSE_DOWN then
           match WM_HitTest fuel (mkPoint (evt_x evt) (evt_y evt)) (wm l2) with
           | Some hit => mouse_down evt hit l2
           | None => Diverge
           end
         else if evt_type evt =? INPUT_EVT_MOUSE_MOVE then
           t <- call MenuBar_IsTracking ;;
           if negb (to_u8 t =? 0) then
             call (MenuBar_HandleMouseMove (evt_x evt) (evt_y evt)) ;;; Ret l2
           else Ret l2
         else if evt_type evt =? INPUT_EVT_MOUSE_DRAG then mouse_drag evt l2
         else if evt_type evt =? INPUT_EVT_MOUSE_UP then mouse_up evt l2
         else Ret l2) ;;
  sub_done ;;;
  Ret l3.

(** [switch (cmd)] of [process_command]. *)
Definition dispatch (fuel : nat) (cmd : Z) (l : SubState) : Prog SubState :=
  if cmd =? CMD_INIT_OS then l1 <- os_init l ;; sub_done ;;; Ret l1
  else if cmd =? CMD_RENDER_FRAME then cmd_render_frame fuel l
  else if cmd =? CMD_OPEN_WINDOW then cmd_open_window l
  else if cmd =? CMD_CLOSE_WINDOW then cmd_close_window l
  else if cmd =? CMD_CD_PLAY then cmd_cd_play l
  else if cmd =? CMD_MOUSE_EVENT then cmd_mouse_event fuel l
  else if cmd =? CMD_WRAM_SWAP then cmd_wram_swap l
  else sub_error ;;; Ret l.

Definition process_command (fuel : nat) (cmd : Z) (l : SubState)
  : Prog SubState :=
  sub_ack ;;; dispatch fuel cmd l.

(** The opcodes that have a [case] in the switch. *)
Definition has_case (cmd : Z) : bool :=
  (cmd =? CMD_INIT_OS) || (cmd =? CMD_RENDER_FRAME) || (cmd =? CMD_OPEN_WINDOW)
  || (cmd =? CMD_CLOSE_WINDOW) || (cmd =? CMD_CD_PLAY)
  || (cmd =? CMD_MOUSE_EVENT) || (cmd =? CMD_WRAM_SWAP).

(** One turn of [sub_main]: [cmd = sub_wait_cmd(); process_command(cmd);]. *)
Definition sub_main_turn (fuel : nat) (l : SubState) : Prog SubState :=
  c <- sub_wait_cmd ;; process_command fuel c l.

(** * Specification vocabulary *)

(** The shape the C types give the arrays of the window manager. *)
Definition wm_wf (s : WindowManager) : bool :=
  (length (pool s) =? WM_MAX_WINDOWS)%nat
  && (length (poolUsed s) =? WM_MAX_WINDOWS)%nat
  && (length (dirtyRects s) =? WM_MAX_DIRTY_RECTS)%nat
  && forallb (fun W => (length (title W) =? 32)%nat) (pool s).

(** Every slot of the pool is in use. *)
Definition pool_full (s : WindowManager) : bool :=
  forallb (fun i => negb (nth i (poolUsed s) 0 =? 0)) (seq 0 WM_MAX_WINDOWS).

(** Index of the first NUL of a character array, if it has one. *)
Fixpoint find_nul (t : list Z) : option nat :=
  match t with
  | [] => None
  | c :: r => if c =? 0 then Some O else option_map S (find_nul r)
  end.

(** Length of the C string that starts a list of characters. *)
Definition c_len (src : list Z) : nat :=
  match find_nul src with Some n => n | None => length src end.

(** The title array [t] holds the C string [src] cut to [WM_TITLE_MAX]
    characters, NUL-terminated inside the 32-byte array. *)
Definition title_holds (t src : list Z) : Prop :=
  length t = 32%nat
  /\ find_nul t = Some (Nat.min (c_len src) WM_TITLE_MAX)
  /\ forall j, (j < Nat.min (c_len src) WM_TITLE_MAX)%nat ->
               nth j t 0 = nth j src 0.

(** The pending entries of the dirty accumulator. *)
Definition dirty_entries (s : WindowManager) : list DirtyRect :=
  firstn (Z.to_nat (dirtyCount s)) (dirtyRects s).

Definition rect_nonempty (r : Rect) : bool :=
  (left r <? right r) && (top r <? bottom r).

(** [inner] lies inside [outer]. *)
Definition rect_inside (inner outer : Rect) : bool :=
  (left outer <=? left inner) && (right inner <=? right outer)
  && (top outer <=? top inner) && (bottom inner <=? bottom outer).

(** ** The z-order list *)

(** Walk from [p] along [below] (front to back), as the loop of
    [WM_FindWindow] does; [None] when the fuel runs out before the null
    pointer is reached. *)
Fixpoint walk_below (s : WindowManager) (p : option nat) (fuel : nat)
  : option (list nat) :=
  match p with
  | None => Some []
  | Some w =>
      match fuel with
      | O => None
      | S fuel' =>
          option_map (cons w) (walk_below s (below (win_at s w)) fuel')
      end
  end.

(** Walk from [p] along [above] (back to front), as the painter's loop of
    the render command does. *)
Fixpoint walk_above (s : WindowManager) (p : option nat) (fuel : nat)
  : option (list nat) :=
  match p with
  | None => Some []
  | Some w =>
      match fuel with
      | O => None
      | S fuel' =>
          option_map (cons w) (walk_above s (above (win_at s w)) fuel')
      end
  end.

(** A pool slot is live: it is what [WM_GetWindowById] accepts. *)
Definition live (s : WindowManager) (w : nat) : bool :=
  (w <? WM_MAX_WINDOWS)%nat && negb (nth w (poolUsed s) 0 =? 0).

(** The calls that change the z-order. *)
Inductive zop : Type :=
| OpNew (bounds : Rect) (ttl : option (list Z)) (sty flgs : Z)
| OpDispose (w : nat)
| OpSelect (w : nat)
| OpSendToBack (w : nat).

Definition zop_ok (o : zop) (s : WindowManager) : bool :=
  match o with
  | OpNew _ _ _ _ => true
  | OpDispose w | OpSelect w | OpSendToBack w => live s w
  end.

Definition zop_apply (o : zop) (s : WindowManager) : WindowManager :=
  match o with
  | OpNew bounds ttl sty flgs => snd (WM_NewWindow bounds ttl sty flgs s)
  | OpDispose w => WM_DisposeWindow (Some w) s
  | OpSelect w => WM_SelectWindow (Some w) s
  | OpSendToBack w => WM_SendToBack (Some w) s
  end.

(** Run a sequence of calls; [None] if one of them names a window that
    is not live when it is made. *)
Fixpoint zops_run (ops : list zop) (s : WindowManager)
  : option WindowManager :=
  match ops with
  | [] => Some s
  | o :: r => if zop_ok o s then zops_run r (zop_apply o s) else None
  end.

(** The property of C2. *)
Definition zorder_consistent (s : WindowManager) : Prop :=
  (forall a b, above (win_at s a) = Some b -> below (win_at s b) = Some a)
  /\ (forall a b, below (win_at s a) = Some b -> above (win_at s b) = Some a)
  /\ exists l,
       walk_below s (topWindow s) WM_MAX_WINDOWS = Some l
       /\ walk_above s (bottomWindow s) WM_MAX_WINDOWS = Some (rev l)
       /\ NoDup l
       /\ (forall w, w ∈ l <-> live s w = true)
       /\ topWindow s = head l
       /\ bottomWindow s = last l.

(** The representation behind it: the z-order is the list [l], front to
    back.  [seg s p l n]: the windows of [l] are chained in this order
    between the neighbours [p] (above the first) and [n] (below the
    last). *)
Definition hd_or (n : option nat) (l : list nat) : option nat :=
  match l with [] => n | x :: _ => Some x end.

Definition last_or (p : option nat) (l : list nat) : option nat :=
  match last l with Some x => Some x | None => p end.

Fixpoint seg (s : WindowManager) (p : option nat) (l : list nat)
    (n : option nat) : Prop :=
  match l with
  | [] => True
  | w :: r =>
      above (win_at s w) = p /\ below (win_at s w) = hd_or n r
      /\ seg s (Some w) r n
  end.

Definition zlinks (s : WindowManager) (l : list nat) : Prop :=
  length (pool s) = WM_MAX_WINDOWS
  /\ NoDup l
  /\ (forall w, w ∈ l -> (w < WM_MAX_WINDOWS)%nat)
  /\ (forall w, w ∉ l ->
        above (win_at s w) = None /\ below (win_at s w) = None)
  /\ topWindow s = head l
  /\ bottomWindow s = last l
  /\ seg s None l None.

Definition zrep (s : WindowManager) (l : list nat) : Prop :=
  zlinks s l
  /\ length (poolUsed s) = WM_MAX_WINDOWS
  /\ (forall w, w ∈ l <-> live s w = true)
  /\ (forall w, w ∈ l -> id (win_at s w) = Z.of_nat w).

(** Two states with the same pool size, list ends, slots in use, links
    and ids. *)
Definition links_eq (s s' : WindowManager) : Prop :=
  length (pool s') = length (pool s)
  /\ topWindow s' = topWindow s
  /\ bottomWindow s' = bottomWindow s
  /\ poolUsed s' = poolUsed s
  /\ forall w, above (win_at s' w) = above (win_at s w)
               /\ below (win_at s' w) = below (win_at s w)
               /\ id (win_at s' w) = id (win_at s w).

(** ** Runs of the two processors *)

#[export] Instance Agent_eq_dec : EqDecision Agent.
Proof. solve_decision. Defined.

(** [leads E s turns f]: from [s] exactly one agent at a time can change
    the state, in the order [turns]; every other step leaves the state as
    it is (a busy-wait going round, a program that has returned, no swap
    pending); after the last turn the state is [f] and nothing moves. *)
Inductive leads {A B : Type} (E : Env)
  : Sys A B -> list Agent -> Sys A B -> Prop :=
| leads_nil s : (forall a, step E a s = s) -> leads E s [] s
| leads_cons s a turns f :
    (forall b, b <> a -> step E b s = s) ->
    leads E (step E a s) turns f ->
    leads E s (a :: turns) f.

(** A stretch of a schedule in which every agent gets to move. *)
Definition fair_round (r : list Agent) : Prop :=
  Main ∈ r /\ Sub ∈ r /\ Hardware ∈ r.

(** The stores the Sub CPU makes to its status flag, in order. *)
Definition cfs_writes (t : list Obs) : list Z :=
  omap (fun o => match o with
                 | ObsWrite Sub R_CFS v => Some v
                 | _ => None
                 end) t.

(** The collaborator calls of a run, in order. *)
Definition calls_of (t : list Obs) : list Ext :=
  omap (fun o => match o with ObsCall _ e => Some e | _ => None end) t.

(** What the Main CPU does with one command: send it, wait for its
    completion, read result register 0. *)
Definition main_command (cmd p0 p1 p2 p3 : Z) : Prog (Z * Z) :=
  main_send_cmd cmd p0 p1 p2 p3 ;;;
  status <- main_wait_done ;;
  r <- main_read_result 0 ;;
  Ret (status, r).

(** Both processors after boot: the Main CPU has one command to send,
    the Sub CPU is at the top of the loop of [sub_main]. *)
Definition handshake_sys (fuel : nat) (l : SubState) (cmd p0 p1 p2 p3 : Z)
  : Sys (Z * Z) SubState :=
  boot ga_ready (main_command cmd p0 p1 p2 p3) (sub_main_turn fuel l).

(** The error path of the dispatcher: acknowledge, [sub_error]. *)
Definition error_path (l : SubState) : Prog SubState :=
  Write R_CFS STATUS_BUSY (
  Write R_CFS STATUS_ERROR (
  Spin R_CFM (fun c => negb (c =? CMD_NONE)) (fun _ =>
  Write R_CFS STATUS_IDLE (Ret l)))).

(** The path of an unrecognized opcode: whose turn it is at each step,
    and the state at the end. *)
Definition unknown_turns : list Agent :=
  [Main; Main; Main; Main; Main; Main; Sub; Sub; Sub; Main; Main; Sub; Sub;
   Main; Main].

Definition unknown_final (l : SubState) (cmd p0 p1 p2 p3 : Z)
  : Sys (Z * Z) SubState :=
  mkSys
    (mkGA CMD_NONE STATUS_IDLE
       [to_u16 p0; to_u16 p1; to_u16 p2; to_u16 p3; 0; 0; 0; 0]
       [SUB_STATE_READY; 0; 0; 0; 0; 0; 0; 0] MEM_MODE_1M)
    0%nat 1%nat 0%nat
    [ObsSaw Main R_CFS STATUS_IDLE; ObsWrite Main (R_CMD 0) p0;
     ObsWrite Main (R_CMD 1) p1; ObsWrite Main (R_CMD 2) p2;
     ObsWrite Main (R_CMD 3) p3; ObsWrite Main R_CFM cmd;
     ObsSaw Sub R_CFM cmd; ObsWrite Sub R_CFS STATUS_BUSY;
     ObsWrite Sub R_CFS STATUS_ERROR; ObsSaw Main R_CFS STATUS_ERROR;
     ObsWrite Main R_CFM CMD_NONE; ObsSaw Sub R_CFM CMD_NONE;
     ObsWrite Sub R_CFS STATUS_IDLE; ObsSaw Main R_CFS STATUS_IDLE]
    (Ret (STATUS_ERROR, SUB_STATE_READY))
    (Ret l).

(** ** Rectangles on the screen *)

Definition screen_rect : Rect := mkRect 0 0 WM_SCREEN_H WM_SCREEN_W.

(** Every pending entry of [s] is covered by the entry of [s'] at the
    same index. *)
Definition dirty_grows (s s' : WindowManager) : Prop :=
  forall i, (i < Z.to_nat (dirtyCount s))%nat ->
    (i < Z.to_nat (dirtyCount s'))%nat
    /\ rect_inside (rect (nth i (dirtyRects s) zero_dirty))
                   (rect (nth i (dirtyRects s') zero_dirty)) = true.

(** Some pending entry of [s] covers [r]. *)
Definition dirty_covers (s : WindowManager) (r : Rect) : Prop :=
  exists i, (i < Z.to_nat (dirtyCount s))%nat
            /\ rect_inside r (rect (nth i (dirtyRects s) zero_dirty)) = true.

(** ** The window list of a state *)

(** The windows front to back, as a walk from [wm.topWindow] along
    [below] meets them. *)
Definition z_list (s : WindowManager) : option (list nat) :=
  walk_below s (topWindow s) WM_MAX_WINDOWS.

(** The calls of the public API that change the state: those of the
    z-order and the ones that leave it alone. *)
Inductive wm_call : Type :=
| CallZ (o : zop)
| CallShow (w : nat)
| CallHide (w : nat)
| CallMove (w : nat) (px py : Z)
| CallSize (w : nat) (pw ph : Z)
| CallSetTitle (w : nat) (ttl : list Z)
| CallInvalidateRect (r : Rect)
| CallInvalidateWindow (w : nat)
| CallEndUpdate
| CallSetDesktopPattern (pattern : Z).

Definition call_ok (c : wm_call) (s : WindowManager) : bool :=
  match c with
  | CallZ o => zop_ok o s
  | CallShow w | CallHide w | CallMove w _ _ | CallSize w _ _
  | CallSetTitle w _ | CallInvalidateWindow w => live s w
  | CallInvalidateRect _ | CallEndUpdate | CallSetDesktopPattern _ => true
  end.

Definition call_apply (c : wm_call) (s : WindowManager) : WindowManager :=
  match c with
  | CallZ o => zop_apply o s
  | CallShow w => WM_ShowWindow (Some w) s
  | CallHide w => WM_HideWindow (Some w) s
  | CallMove w px py => WM_MoveWindow (Some w) px py s
  | CallSize w pw ph => WM_SizeWindow (Some w) pw ph s
  | CallSetTitle w ttl => WM_SetTitle (Some w) (Some ttl) s
  | CallInvalidateRect r => WM_InvalidateRect (Some r) s
  | CallInvalidateWindow w => WM_InvalidateWindow (Some w) s
  | CallEndUpdate => WM_EndUpdate s
  | CallSetDesktopPattern p => WM_SetDesktopPattern p s
  end.

Fixpoint calls_run (cs : list wm_call) (s : WindowManager)
  : option WindowManager :=
  match cs with
  | [] => Some s
  | c :: r => if call_ok c s then calls_run r (call_apply c s) else None
  end.

(** States reached from [WM_Init] by calls of the window manager whose
    window arguments are live windows. *)
Definition reachable (s : WindowManager) : Prop :=
  exists cs, calls_run cs WM_Init = Some s.

(** The second state has the links, the count and the active window of
    the first. *)
Definition keeps (s s' : WindowManager) : Prop :=
  links_eq s s' /\ windowCount s' = windowCount s
  /\ activeWindow s' = activeWindow s.

(** The z-order list [l] together with the counters kept beside it. *)
Definition wm_inv (s : WindowManager) (l : list nat) : Prop :=
  zrep s l
  /\ windowCount s = Z.of_nat (length l)
  /\ match activeWindow s with
     | Some a => a ∈ l
     | None => l = []
     end.

(** Window [x] is drawn highlighted. *)
Definition hil (s : WindowManager) (x : nat) : bool :=
  flag_set (flags (win_at s x)) WF_HILITED.

(** Window [x] is shown. *)
Definition vis (s : WindowManager) (x : nat) : bool :=
  flag_set (flags (win_at s x)) WF_VISIBLE.

(** Of the windows of [l] exactly the active one is highlighted. *)
Definition hilite_inv (s : WindowManager) (l : list nat) : Prop :=
  forall x, x ∈ l -> (hil s x = true <-> activeWindow s = Some x).

(** The invariant of the reachable states. *)
Definition wm_ok (s : WindowManager) (l : list nat) : Prop :=
  wm_inv s l /\ hilite_inv s l.

(** A pending entry of the dirty accumulator as the render loop wants
    it: marked valid, not empty, on the screen. *)
Definition dirty_entry_ok (d : DirtyRect) : Prop :=
  valid d = 1 /\ rect_nonempty (rect d) = true
  /\ rect_inside (rect d) screen_rect = true.

Definition dirty_ok (s : WindowManager) : Prop :=
  length (dirtyRects s) = WM_MAX_DIRTY_RECTS
  /\ 0 <= dirtyCount s <= Z.of_nat WM_MAX_DIRTY_RECTS
  /\ forall i, (i < Z.to_nat (dirtyCount s))%nat ->
       dirty_entry_ok (nth i (dirtyRects s) zero_dirty).

(** Every window record has the 32 title bytes of [struct Window]. *)
Definition titles_ok (s : WindowManager) : Prop :=
  forall i, length (title (win_at s i)) = 32%nat.

(** [r] carried to the corner ([px], [py]), size unchanged. *)
Definition translate_rect (r : Rect) (px py : Z) : Rect :=
  mkRect py px (py + (bottom r - top r)) (px + (right r - left r)).

(** A value of type [int16_t]. *)
Definition is_i16 (z : Z) : Prop := -32768 <= z < 32768.

(** The styles that [compute_window_rects] gives no title bar. *)
Definition untitled_style (W : Window) : bool :=
  (style W =? WM_STYLE_PLAIN) || (style W =? WM_STYLE_SHADOW).

(** The lowest pool slot that is not in use. *)
Definition first_free (s : WindowManager) (w : nat) : Prop :=
  (w < WM_MAX_WINDOWS)%nat /\ live s w = false
  /\ forall j, (j < w)%nat -> live s j = true.

(** The first window of [l] that is visible and whose frame holds
    [pt]. *)
Definition first_hit (s : WindowManager) (pt : Point) (l : list nat)
  : option nat :=
  List.find (fun w => flag_set (flags (win_at s w)) WF_VISIBLE
                      && rect_contains_point (frame (win_at s w)) pt) l.

(** ** States used as examples *)

(** Sixteen document windows opened from the initial state. *)
Definition sixteen_windows : WindowManager :=
  Nat.iter 16
    (fun s => snd (WM_NewWindow (mkRect 30 20 150 200) (Some (cstr "W"))
                     WM_STYLE_DOCUMENT WF_VISIBLE s))
    WM_Init.


Definition long_title : list Z :=
  cstr "A title that is far longer than thirty-one characters".

(** A document window with close and grow boxes, frame (10,10)-(100,100),
    opened on the initial state. *)
Definition close_grow_window : WindowManager :=
  snd (WM_NewWindow (mkRect 10 10 100 100) (Some (cstr "Untitled"))
         WM_STYLE_DOCUMENT (Z.lor WF_VISIBLE WF_HAS_GROW) WM_Init).

(** Three new windows, then select, send to back, dispose, new. *)
Definition z_example_ops : list zop :=
  [ OpNew (mkRect 30 20 150 200) (Some (cstr "A")) WM_STYLE_DOCUMENT WF_VISIBLE;
    OpNew (mkRect 40 30 160 210) (Some (cstr "B")) WM_STYLE_DIALOG WF_VISIBLE;
    OpNew (mkRect 50 40 170 220) None WM_STYLE_PLAIN 0;
    OpSelect 0; OpSendToBack 2; OpDispose 1;
    OpNew (mkRect 60 50 180 230) (Some (cstr "D")) WM_STYLE_DOCUMENT WF_VISIBLE;
    OpSelect 2 ].

Definition z_example_state : WindowManager :=
  match zops_run z_example_ops WM_Init with
  | Some s => s
  | None => WM_Init
  end.

(** Collaborators that answer 0 and applications that leave the window
    manager alone. *)
Definition quiet_env : Env := mkEnv (fun _ => 0) (fun _ w => w).

(** A fair schedule of [n] rounds. *)
Definition round_robin (n : nat) : list (list Agent) :=
  replicate n [Main; Sub; Hardware].

(** An accumulator filled with 32 disjoint strips, 10 pixels apart. *)
Definition full_dirty : WindowManager :=
  fold_left
    (fun s i =>
       WM_InvalidateRect
         (Some (mkRect 0 (Z.of_nat i * 10) 5 (Z.of_nat i * 10 + 5))) s)
    (seq 0 32) WM_Init.

(** The example state after its front window, the active one, is sent to
    the back. *)
Definition back_example_state : WindowManager :=
  WM_SendToBack (Some 2%nat) z_example_state.

(** The machine after the rounds of a schedule. *)
Definition after {A B : Type} (E : Env) (rounds : list (list Agent))
    (s : Sys A B) : Sys A B := run E (concat rounds) s.

(** ** Commands of the window manager over the registers *)

(** The bounds [CMD_OPEN_WINDOW] makes of its four parameter registers
    (x, y, width, height). *)
Definition open_window_bounds (p0 p1 p2 p3 : Z) : Rect :=
  mkRect (to_i16 (to_u16 p1)) (to_i16 (to_u16 p0))
         (to_i16 (to_u16 p1 + to_u16 p3)) (to_i16 (to_u16 p0 + to_u16 p2)).

(** What [CMD_OPEN_WINDOW] asks of the window manager. *)
Definition open_window_call (l : SubState) (p0 p1 p2 p3 : Z)
  : option nat * WindowManager :=
  WM_NewWindow (open_window_bounds p0 p1 p2 p3)
    (Some (cstr "Untitled"%string)) WM_STYLE_DOCUMENT WF_VISIBLE (wm l).

(** ** One frame of the Main CPU *)

(** The registers after a program that only stores has run. *)
Fixpoint poke {A : Type} (who : Agent) (g : GateArray) (p : Prog A)
  : GateArray :=
  match p with
  | Write r v k => poke who (write_reg who r v g) k
  | _ => g
  end.

(** A value of type [uint8_t]. *)
Definition is_u8 (z : Z) : Prop := 0 <= z < 256.

(** One turn of the loop of [main_loop] in which the mouse has an event:
    [Input_SendMouseEvent(); main_send_cmd(CMD_RENDER_FRAME, 0, 0, 320,
    224); main_wait_done();]. *)
Definition main_loop_body (mx my evtType buttons mdx : Z) : Prog Z :=
  Input_SendMouseEvent mx my evtType buttons mdx ;;;
  main_send_cmd CMD_RENDER_FRAME 0 0 320 224 ;;;
  main_wait_done.

Definition frame_sys (fuel : nat) (l : SubState)
    (mx my evtType buttons mdx : Z) : Sys Z SubState :=
  boot ga_ready (main_loop_body mx my evtType buttons mdx)
    (sub_main_turn fuel l).

(** The same turn without a mouse event. *)
Definition render_sys (fuel : nat) (l : SubState) : Sys Z SubState :=
  boot ga_ready (main_send_cmd CMD_RENDER_FRAME 0 0 320 224 ;;; main_wait_done)
    (sub_main_turn fuel l).

(** Two machines in the same state, the first with more history. *)
Definition same_but_trace {A B : Type} (pre : list Obs) (s1 s2 : Sys A B)
  : Prop :=
  ga s1 = ga s2 /\ main_bank s1 = main_bank s2 /\ sub_bank s1 = sub_bank s2
  /\ ncalls s1 = ncalls s2 /\ mainp s1 = mainp s2 /\ subp s1 = subp s2
  /\ trace s1 = pre ++ trace s2.

(** The loop turn of [main_loop] with a mouse-move event, at the moment
    the Sub CPU has seen the event's opcode and acknowledged it: the
    Main CPU has made the five stores of [Input_SendMouseEvent] and is
    about to call [main_send_cmd]. *)
Definition acked_sys (E : Env) (fuel : nat) (l : SubState) (mx my mdx : Z)
  : Sys Z SubState :=
  run E (replicate 5 Main ++ [Sub; Sub])
    (frame_sys fuel l mx my INPUT_EVT_MOUSE_MOVE 0 mdx).

(** Where a drag should leave a frame: carried by the way the cursor
    went between the mouse-down and the drag event. *)
Definition drag_target (f : Rect) (down drag : InputEvent) : Rect :=
  translate_rect f (left f + (evt_x drag - evt_x down))
    (top f + (evt_y drag - evt_y down)).

(** The Sub CPU at boot with the windows of the example state. *)
Definition drag_example_state : SubState :=
  set_wm z_example_state sub_boot_state.

(** ** The menus of [os_init] *)

(** The collaborator calls of [os_init] when the three menus get the
    ids [mf], [me] and [ma]. *)
Definition os_init_calls (mf me ma : Z) : list Ext :=
  [BLT_Init 0x0C0000; BLT_SetMode; MenuBar_Init;
   MenuBar_AddMenu (cstr "File");
   MenuBar_AddItem mf (cstr "New") 0x0101 MIF_NONE;
   MenuBar_AddItem mf (cstr "Open") 0x0102 MIF_NONE;
   MenuBar_AddItem mf (cstr "Close") 0x0103 MIF_NONE;
   MenuBar_AddSeparator mf;
   MenuBar_AddItem mf (cstr "Quit") 0x0104 MIF_NONE;
   MenuBar_AddMenu (cstr "Edit");
   MenuBar_AddItem me (cstr "Undo") 0x0201 MIF_DISABLED;
   MenuBar_AddSeparator me;
   MenuBar_AddItem me (cstr "Cut") 0x0202 MIF_NONE;
   MenuBar_AddItem me (cstr "Copy") 0x0203 MIF_NONE;
   MenuBar_AddItem me (cstr "Paste") 0x0204 MIF_NONE;
   MenuBar_AddMenu (cstr "Apps");
   MenuBar_AddItem ma (cstr "Calculator") 0x0301 MIF_NONE;
   MenuBar_AddItem ma (cstr "Notepad") 0x0302 MIF_NONE;
   MenuBar_AddItem ma (cstr "Paint") 0x0303 MIF_NONE;
   MEM_Init].
(** * Window manager: properties *)

(** ** Array reads after array writes *)

Lemma nth_insert_eq {A} (l : list A) (i : nat) (v d : A) :
  (i < length l)%nat -> nth i (<[i := v]> l) d = v.
Proof.
  revert i; induction l as [|a l IH]; intros [|i] H; simpl in *;
    try lia; auto.
  apply IH; lia.
Qed.

Lemma nth_insert_ne {A} (l : list A) (i j : nat) (v d : A) :
  i <> j -> nth j (<[i := v]> l) d = nth j l d.
Proof.
  revert i j; induction l as [|a l IH]; intros [|i] [|j] H; simpl;
    try congruence; auto.
Qed.

Lemma win_at_upd_eq s i f :
  (i < length (pool s))%nat -> win_at (upd_win i f s) i = f (win_at s i).
Proof. intros H. unfold win_at, upd_win; simpl. now apply nth_insert_eq. Qed.

Lemma win_at_upd_ne s i j f :
  i <> j -> win_at (upd_win i f s) j = win_at s j.
Proof. intros H. unfold win_at, upd_win; simpl. now apply nth_insert_ne. Qed.

Lemma pool_length_upd s i f : length (pool (upd_win i f s)) = length (pool s).
Proof. unfold upd_win; simpl. apply length_insert. Qed.

(** ** Pool exhaustion *)

Lemma pool_scan_none used i n :
  forallb (fun j => negb (nth j used 0 =? 0)) (seq i n) = true ->
  pool_scan used i n = None.
Proof.
  revert i; induction n as [|n IH]; intros i H; simpl in *; [reflexivity|].
  apply andb_true_iff in H as [H1 H2].
  apply negb_true_iff in H1. rewrite H1. now apply IH.
Qed.

Lemma pool_alloc_full s : pool_full s = true -> pool_alloc s = (None, s).
Proof.
  intros H. unfold pool_alloc. now rewrite (pool_scan_none _ _ _ H).
Qed.

(** C6: with all 16 slots in use, [WM_NewWindow] returns the null
    reference and the window manager's state (pool records, [poolUsed],
    [windowCount], z-order pointers, active window, dirty accumulator)
    is the one it was called with. *)
Theorem NewWindow_pool_exhausted s bounds ttl sty flgs :
  pool_full s = true ->
  WM_NewWindow bounds ttl sty flgs s = (None, s).
Proof.
  intros H. unfold WM_NewWindow. now rewrite (pool_alloc_full _ H).
Qed.

Lemma NewWindow_pool_exhausted_witness :
  pool_full sixteen_windows = true
  /\ windowCount sixteen_windows = 16
  /\ WM_NewWindow (mkRect 30 20 150 200) (Some (cstr "W")) WM_STYLE_DOCUMENT
       WF_VISIBLE sixteen_windows = (None, sixteen_windows).
Proof.
  split; [vm_compute; reflexivity|].
  split; [vm_compute; reflexivity|].
  apply (NewWindow_pool_exhausted sixteen_windows); vm_compute; reflexivity.
Defined.

(** ** Titles *)

Lemma find_nul_intro t k :
  (k < length t)%nat -> nth k t 0 = 0 ->
  (forall j, (j < k)%nat -> nth j t 0 <> 0) -> find_nul t = Some k.
Proof.
  revert k; induction t as [|c t IH]; intros k Hk Hz Hnz; simpl in *; [lia|].
  destruct k as [|k].
  - rewrite Hz. reflexivity.
  - pose proof (Hnz O ltac:(lia)) as H0. simpl in H0.
    apply Z.eqb_neq in H0. rewrite H0.
    rewrite (IH k); [reflexivity | lia | exact Hz |].
    intros j Hj. apply (Hnz (S j)). lia.
Qed.

Lemma find_nul_none t :
  (forall j, (j < length t)%nat -> nth j t 0 <> 0) -> find_nul t = None.
Proof.
  induction t as [|c t IH]; intros H; simpl in *; [reflexivity|].
  pose proof (H O ltac:(lia)) as H0. simpl in H0.
  apply Z.eqb_neq in H0. rewrite H0. rewrite IH; [reflexivity|].
  intros j Hj. apply (H (S j)). lia.
Qed.

Lemma c_len_eq src i :
  nth i src 0 = 0 -> (forall j, (j < i)%nat -> nth j src 0 <> 0) ->
  c_len src = i.
Proof.
  intros Hz Hnz. unfold c_len.
  destruct (Nat.lt_ge_cases i (length src)) as [Hlt|Hge].
  - now rewrite (find_nul_intro src i Hlt Hz Hnz).
  - assert (i = length src) as ->.
    { destruct (Nat.eq_dec i (length src)) as [|Hne]; [assumption|].
      exfalso. apply (Hnz (length src)); [lia|]. apply nth_overflow. lia. }
    now rewrite find_nul_none.
Qed.

Lemma c_len_ge src i :
  (forall j, (j < i)%nat -> nth j src 0 <> 0) -> (i <= c_len src)%nat.
Proof.
  revert i; induction src as [|c src IH]; intros i H.
  - destruct i as [|i]; [lia|]. exfalso. apply (H O); [lia|]. reflexivity.
  - destruct i as [|i]; [lia|]. unfold c_len in *. simpl.
    pose proof (H O ltac:(lia)) as H0. simpl in H0.
    apply Z.eqb_neq in H0. rewrite H0.
    assert (i <= match find_nul src with Some n => n | None => length src end)%nat
      as Hi by (apply IH; intros j Hj; apply (H (S j)); lia).
    destruct (find_nul src); simpl; lia.
Qed.

(** What the title loop computes, from any point of its run. *)
Lemma title_copy_spec src n : forall i dst ws,
  length dst = 32%nat -> (i + n = WM_TITLE_MAX)%nat ->
  (forall j, (j < i)%nat -> nth j src 0 <> 0 /\ nth j dst 0 = nth j src 0) ->
  Forall (fun k => (k <= WM_TITLE_MAX)%nat) ws ->
  title_holds (fst (title_copy src i n dst ws)) src
  /\ Forall (fun k => (k <= WM_TITLE_MAX)%nat) (snd (title_copy src i n dst ws)).
Proof.
  unfold WM_TITLE_MAX.
  induction n as [|n IH]; intros i dst ws Hlen Hin Hpre Hws; simpl.
  - assert (i = 31)%nat as -> by lia.
    assert (Nat.min (c_len src) 31 = 31)%nat as Hmin.
    { pose proof (c_len_ge src 31 (fun j Hj => proj1 (Hpre j Hj))). lia. }
    split.
    + unfold title_holds, WM_TITLE_MAX. rewrite Hmin, length_insert.
      split; [assumption|]. split.
      * apply find_nul_intro.
        -- rewrite length_insert; lia.
        -- apply nth_insert_eq; lia.
        -- intros j Hj. rewrite nth_insert_ne by lia.
           destruct (Hpre j Hj) as [H1 H2]. congruence.
      * intros j Hj. rewrite nth_insert_ne by lia. apply (Hpre j Hj).
    + apply Forall_app. split; [assumption|]. constructor; [lia|constructor].
  - destruct (nth i src 0 =? 0) eqn:Hc; simpl.
    + apply Z.eqb_eq in Hc.
      assert (c_len src = i) as Hl
        by (apply c_len_eq; [assumption | intros j Hj; apply (Hpre j Hj)]).
      assert (Nat.min (c_len src) 31 = i)%nat as Hmin by lia.
      split.
      * unfold title_holds, WM_TITLE_MAX. rewrite Hmin, length_insert.
        split; [assumption|]. split.
        -- apply find_nul_intro.
           ++ rewrite length_insert; lia.
           ++ apply nth_insert_eq; lia.
           ++ intros j Hj. rewrite nth_insert_ne by lia.
              destruct (Hpre j Hj) as [H1 H2]. congruence.
        -- intros j Hj. rewrite nth_insert_ne by lia. apply (Hpre j Hj).
      * apply Forall_app. split; [assumption|]. constructor; [lia|constructor].
    + apply Z.eqb_neq in Hc. apply IH.
      * rewrite length_insert; assumption.
      * lia.
      * intros j Hj. destruct (Nat.eq_dec j i) as [-> | Hne].
        -- split; [assumption|]. apply nth_insert_eq; lia.
        -- rewrite nth_insert_ne by lia. apply Hpre. lia.
      * apply Forall_app. split; [assumption|]. constructor; [lia|constructor].
Qed.

Lemma store_title_holds src W :
  length (title W) = 32%nat -> title_holds (title (store_title src W)) src.
Proof.
  intros H. unfold store_title. cbn [title set_title].
  apply (title_copy_spec src WM_TITLE_MAX 0 (title W) []); auto.
  intros j Hj; lia.
Qed.

Lemma pool_scan_some used : forall n i k,
  pool_scan used i n = Some k ->
  (i <= k < i + n)%nat /\ nth k used 0 = 0.
Proof.
  induction n as [|n IH]; intros i k H; simpl in H; [discriminate|].
  destruct (nth i used 0 =? 0) eqn:E.
  - injection H as <-. apply Z.eqb_eq in E. split; [lia | assumption].
  - apply IH in H. destruct H as [H1 H2]. split; [lia | assumption].
Qed.

Lemma pool_alloc_some s w s0 :
  length (pool s) = WM_MAX_WINDOWS ->
  pool_alloc s = (Some w, s0) ->
  (w < WM_MAX_WINDOWS)%nat /\ nth w (poolUsed s) 0 = 0
  /\ length (pool s0) = WM_MAX_WINDOWS
  /\ win_at s0 w = set_id (Z.of_nat w) zero_window
  /\ (forall j, j <> w -> win_at s0 j = win_at s j)
  /\ topWindow s0 = topWindow s /\ bottomWindow s0 = bottomWindow s
  /\ activeWindow s0 = activeWindow s
  /\ poolUsed s0 = <[w := 1]> (poolUsed s)
  /\ dirtyRects s0 = dirtyRects s /\ dirtyCount s0 = dirtyCount s.
Proof.
  intros Hlen H. unfold pool_alloc in H.
  destruct (pool_scan (poolUsed s) 0 WM_MAX_WINDOWS) as [i|] eqn:E;
    [|discriminate].
  injection H as <- <-. apply pool_scan_some in E. destruct E as [E1 E2].
  split; [lia|]. split; [assumption|].
  split; [unfold upd_win; simpl; now rewrite !length_insert|].
  split.
  { rewrite win_at_upd_eq by (simpl; rewrite length_insert; lia).
    f_equal. unfold win_at; simpl. apply nth_insert_eq. lia. }
  split.
  { intros j Hj. rewrite win_at_upd_ne by congruence.
    unfold win_at; simpl. apply nth_insert_ne. congruence. }
  repeat split; reflexivity.
Qed.

Lemma title_upd s i j f :
  (forall W, title (f W) = title W) ->
  title (win_at (upd_win j f s) i) = title (win_at s i).
Proof.
  intros Hf. destruct (Nat.eq_dec j i) as [-> | Hne].
  - destruct (Nat.lt_ge_cases i (length (pool s))) as [Hlt|Hge].
    + rewrite win_at_upd_eq by assumption. apply Hf.
    + unfold win_at, upd_win; simpl. now rewrite list_insert_ge by lia.
  - now rewrite win_at_upd_ne.
Qed.

Lemma title_compute_window_rects W :
  title (compute_window_rects W) = title W.
Proof. unfold compute_window_rects. now destruct (_ || _). Qed.

Lemma pool_InvalidateRect r s : pool (WM_InvalidateRect r s) = pool s.
Proof.
  unfold WM_InvalidateRect. destruct r as [r|]; [|reflexivity].
  destruct (_ || _); [reflexivity|].
  destruct (dirty_merge _ _ _ _); [reflexivity|].
  now destruct (_ <? _).
Qed.

Lemma win_at_InvalidateRect r s i :
  win_at (WM_InvalidateRect r s) i = win_at s i.
Proof. unfold win_at. now rewrite pool_InvalidateRect. Qed.

Lemma win_at_InvalidateWindow w s i :
  win_at (WM_InvalidateWindow w s) i = win_at s i.
Proof.
  destruct w; [|reflexivity]. unfold WM_InvalidateWindow.
  apply win_at_InvalidateRect.
Qed.

Lemma win_at_set_topWindow v s i : win_at (set_topWindow v s) i = win_at s i.
Proof. reflexivity. Qed.

Lemma win_at_set_bottomWindow v s i :
  win_at (set_bottomWindow v s) i = win_at s i.
Proof. reflexivity. Qed.

Lemma win_at_set_activeWindow v s i :
  win_at (set_activeWindow v s) i = win_at s i.
Proof. reflexivity. Qed.

Ltac strip_setters :=
  rewrite ?win_at_set_topWindow, ?win_at_set_bottomWindow,
    ?win_at_set_activeWindow.

Lemma title_push_top w s i :
  title (win_at (zorder_push_top w s) i) = title (win_at s i).
Proof.
  unfold zorder_push_top. cbv zeta.
  destruct (topWindow _); destruct (bottomWindow _);
    repeat (strip_setters; rewrite ?title_upd by (intros W; destruct W; reflexivity));
    reflexivity.
Qed.

Lemma wm_wf_pool s : wm_wf s = true -> length (pool s) = WM_MAX_WINDOWS.
Proof.
  unfold wm_wf. rewrite !andb_true_iff. intros [[[H _] _] _].
  now apply Nat.eqb_eq in H.
Qed.

Lemma wm_wf_title s i :
  wm_wf s = true -> length (title (win_at s i)) = 32%nat.
Proof.
  unfold wm_wf. rewrite !andb_true_iff. intros [_ H].
  rewrite forallb_forall in H. unfold win_at.
  destruct (nth_in_or_default i (pool s) zero_window) as [Hin | ->].
  - apply Nat.eqb_eq. apply H. assumption.
  - reflexivity.
Qed.

Ltac keep_title :=
  repeat first
    [ rewrite win_at_set_activeWindow
    | rewrite win_at_InvalidateWindow
    | rewrite win_at_InvalidateRect
    | rewrite title_push_top
    | rewrite title_upd by
        (intros ?; first [ apply title_compute_window_rects
                         | match goal with W : Window |- _ =>
                             destruct W; reflexivity end ]) ].

Lemma NewWindow_title s bounds ttl sty flgs :
  length (pool s) = WM_MAX_WINDOWS ->
  match WM_NewWindow bounds ttl sty flgs s with
  | (Some w, s') =>
      title_holds (title (win_at s' w))
        (match ttl with Some t => t | None => [] end)
  | (None, _) => True
  end.
Proof.
  intros Hlen. unfold WM_NewWindow.
  destruct (pool_alloc s) as [[w|] s0] eqn:E; [|exact I].
  destruct (pool_alloc_some _ _ _ Hlen E) as (Hw & _ & Hl0 & Hw0 & _).
  cbv zeta.
  destruct (flag_set flgs WF_VISIBLE);
    destruct (activeWindow _);
    destruct ((sty =? WM_STYLE_DIALOG) || (sty =? WM_STYLE_ALERT));
    destruct (sty =? WM_STYLE_DOCUMENT);
    destruct ttl as [t|];
    cbn [activeWindow set_activeWindow win_at pool]; fold win_at;
    keep_title;
    try (rewrite win_at_upd_eq by (rewrite !pool_length_upd, Hl0; exact Hw);
         apply store_title_holds; keep_title; rewrite Hw0; reflexivity);
    try (rewrite Hw0; vm_compute; repeat split; intros j Hj; lia).
Qed.

Lemma SetTitle_title s w src :
  wm_wf s = true -> (w < WM_MAX_WINDOWS)%nat ->
  title_holds (title (win_at (WM_SetTitle (Some w) (Some src) s) w)) src.
Proof.
  intros Hwf Hw. unfold WM_SetTitle. cbv zeta.
  rewrite win_at_InvalidateRect.
  rewrite win_at_upd_eq by (rewrite (wm_wf_pool _ Hwf); exact Hw).
  apply store_title_holds. now apply wm_wf_title.
Qed.

(** C10: titles are bounded and terminated.  For a window manager whose
    arrays have the sizes of wm.h: the window [WM_NewWindow] returns
    holds its title argument cut to 31 characters and NUL-terminated (the
    empty string for a null title); so does the window of [WM_SetTitle];
    and the title loop stores to no index past 31. *)
Theorem title_bounded_terminated s :
  wm_wf s = true ->
  (forall bounds ttl sty flgs,
      match WM_NewWindow bounds ttl sty flgs s with
      | (Some w, s') =>
          title_holds (title (win_at s' w))
            (match ttl with Some t => t | None => [] end)
      | (None, _) => True
      end)
  /\ (forall w src, (w < WM_MAX_WINDOWS)%nat ->
        title_holds (title (win_at (WM_SetTitle (Some w) (Some src) s) w)) src)
  /\ (forall w src,
        Forall (fun k => (k <= WM_TITLE_MAX)%nat)
          (snd (title_copy src 0 WM_TITLE_MAX (title (win_at s w)) []))).
Proof.
  intros Hwf. split; [|split].
  - intros. apply NewWindow_title. now apply wm_wf_pool.
  - intros. now apply SetTitle_title.
  - intros w src.
    apply (title_copy_spec src WM_TITLE_MAX 0 (title (win_at s w)) []); auto.
    + now apply wm_wf_title.
    + intros j Hj; lia.
Qed.

Lemma title_bounded_terminated_witness :
  wm_wf WM_Init = true
  /\ title_holds
       (title (win_at (WM_SetTitle (Some 0%nat) (Some long_title) WM_Init) 0))
       long_title.
Proof.
  split; [reflexivity|].
  apply (proj1 (proj2 (title_bounded_terminated WM_Init eq_refl))).
  unfold WM_MAX_WINDOWS. lia.
Defined.

(** ** Hit testing *)

Lemma leb_true a b : a <= b -> (a <=? b) = true.
Proof. apply Z.leb_le. Qed.

Lemma ltb_true a b : a < b -> (a <? b) = true.
Proof. apply Z.ltb_lt. Qed.

Lemma ltb_false a b : b <= a -> (a <? b) = false.
Proof. intros; apply Z.ltb_ge; assumption. Qed.

Lemma leb_false a b : b < a -> (a <=? b) = false.
Proof. intros; apply Z.leb_gt; assumption. Qed.

(** C4, as the code has it: the menu-bar band is tested before any
    window.  For a visible frontmost window with close and grow boxes,
    frame (10,10)-(100,100) and title bar (11,11)-(99,29), the point
    (15,14) lies in the band ([y < 20]) and [WM_FindWindow] answers
    MenuBar with no window; at the points of the close box below the band
    it answers Close with that window. *)
Theorem FindWindow_close_box fuel s w :
  topWindow s = Some w ->
  flag_set (flags (win_at s w)) WF_VISIBLE = true ->
  flag_set (flags (win_at s w)) WF_HAS_CLOSE = true ->
  flag_set (flags (win_at s w)) WF_HAS_GROW = true ->
  frame (win_at s w) = mkRect 10 10 100 100 ->
  titleBar (win_at s w) = mkRect 11 11 29 99 ->
  WM_FindWindow (S fuel) (mkPoint 15 14) s = Some (WM_PART_MENUBAR, None)
  /\ forall px py, 15 <= px < 27 -> 20 <= py < 26 ->
       WM_FindWindow (S fuel) (mkPoint px py) s = Some (WM_PART_CLOSE, Some w).
Proof.
  intros Htop Hvis Hclose Hgrow Hframe Htb. split; [reflexivity|].
  intros px py Hx Hy. unfold WM_FindWindow. cbn [y x].
  rewrite (ltb_false py WM_MENUBAR_H) by (unfold WM_MENUBAR_H; lia).
  rewrite Htop. cbn [find_walk]. rewrite Hvis. cbn [negb].
  unfold hit_part. rewrite Hframe, Htb, Hclose.
  unfold rect_contains_point. cbn [left right top bottom x y].
  change (to_i16 (11 + 4)) with 15. change (to_i16 (11 + 3)) with 14.
  change (to_i16 (14 + CLOSE_SIZE)) with 26.
  change (to_i16 (15 + CLOSE_SIZE)) with 27.
  rewrite !leb_true by lia. rewrite !ltb_true by lia. reflexivity.
Qed.

Lemma FindWindow_close_box_witness :
  WM_FindWindow 16 (mkPoint 15 14) close_grow_window
    = Some (WM_PART_MENUBAR, None)
  /\ WM_FindWindow 16 (mkPoint 15 20) close_grow_window
     = Some (WM_PART_CLOSE, Some 0%nat).
Proof.
  destruct (FindWindow_close_box 15 close_grow_window 0
              eq_refl eq_refl eq_refl eq_refl eq_refl eq_refl) as [H1 H2].
  split; [exact H1 | apply H2; lia].
Defined.

(** C4 as stated fails: the window is as the claim describes it, and the
    point (15,14) is answered MenuBar, not Close. *)
Lemma FindWindow_point_15_14_is_menubar :
  topWindow close_grow_window = Some 0%nat
  /\ flag_set (flags (win_at close_grow_window 0)) WF_VISIBLE = true
  /\ flag_set (flags (win_at close_grow_window 0)) WF_HAS_CLOSE = true
  /\ flag_set (flags (win_at close_grow_window 0)) WF_HAS_GROW = true
  /\ frame (win_at close_grow_window 0) = mkRect 10 10 100 100
  /\ titleBar (win_at close_grow_window 0) = mkRect 11 11 29 99
  /\ WM_FindWindow 16 (mkPoint 15 14) close_grow_window
     = Some (WM_PART_MENUBAR, None)
  /\ WM_FindWindow 16 (mkPoint 15 14) close_grow_window
     <> Some (WM_PART_CLOSE, Some 0%nat).
Proof. repeat split; try reflexivity. vm_compute. discriminate. Qed.

(** ** Dirty rectangles *)

Lemma rect_union_self r : rect_union r r = r.
Proof.
  destruct r as [t l b r]. unfold rect_union. cbn [top left bottom right].
  now rewrite !Z.ltb_irrefl.
Qed.

Lemma rect_intersects_self r :
  rect_nonempty r = true -> rect_intersects r r = true.
Proof.
  unfold rect_nonempty, rect_intersects. rewrite andb_true_iff, !Z.ltb_lt.
  intros [H1 H2]. now rewrite !leb_false by lia.
Qed.

Lemma nonempty_not_empty r :
  rect_nonempty r = true ->
  (right r <=? left r) || (bottom r <=? top r) = false.
Proof.
  unfold rect_nonempty. rewrite andb_true_iff, !Z.ltb_lt.
  intros [H1 H2]. now rewrite !leb_false by lia.
Qed.

Lemma rect_intersects_sym a b : rect_intersects a b = rect_intersects b a.
Proof.
  unfold rect_intersects. f_equal.
  destruct (right a <=? left b), (right b <=? left a),
    (bottom a <=? top b), (bottom b <=? top a); reflexivity.
Qed.

Lemma Invalidate_nonempty s r :
  rect_nonempty (rect_clip_to_screen r) = true ->
  WM_InvalidateRect (Some r) s
  = match dirty_merge (dirtyRects s) (rect_clip_to_screen r) 0
            (Z.to_nat (dirtyCount s)) with
    | Some rs => set_dirtyRects rs s
    | None =>
        if dirtyCount s <? Z.of_nat WM_MAX_DIRTY_RECTS then
          set_dirtyCount (to_u8 (dirtyCount s + 1))
            (set_dirtyRects
               (<[Z.to_nat (dirtyCount s) :=
                    mkDirty (rect_clip_to_screen r) 1]> (dirtyRects s)) s)
        else
          set_dirtyRects
            (<[0%nat :=
                 mkDirty (rect_union (rect (nth 0 (dirtyRects s) zero_dirty))
                            (rect_clip_to_screen r))
                   (valid (nth 0 (dirtyRects s) zero_dirty))]>
               (dirtyRects s)) s
    end.
Proof.
  intros Hne. unfold WM_InvalidateRect.
  now rewrite (nonempty_not_empty _ Hne).
Qed.

(** The first insertion into an empty accumulator. *)
Lemma Invalidate_first s r :
  dirtyCount s = 0 -> rect_nonempty (rect_clip_to_screen r) = true ->
  dirtyCount (WM_InvalidateRect (Some r) s) = 1
  /\ dirtyRects (WM_InvalidateRect (Some r) s)
     = <[0%nat := mkDirty (rect_clip_to_screen r) 1]> (dirtyRects s).
Proof.
  intros H0 Hne. rewrite (Invalidate_nonempty _ _ Hne), H0.
  cbn. split; reflexivity.
Qed.

(** C5, as the code has it: [WM_InvalidateRect] merges into the first
    pending entry the new rectangle intersects and returns.  From an
    empty accumulator, a rectangle that is non-empty once clipped to the
    screen, invalidated twice, leaves one entry (the clipped rectangle);
    two disjoint rectangles followed by a third that intersects both
    leave two entries: the bounding union of the first and the third, and
    the second as it was. *)
Theorem InvalidateRect_merge s :
  wm_wf s = true -> dirtyCount s = 0 ->
  (forall r, rect_nonempty (rect_clip_to_screen r) = true ->
     dirty_entries (WM_InvalidateRect (Some r) (WM_InvalidateRect (Some r) s))
     = [mkDirty (rect_clip_to_screen r) 1])
  /\ (forall a b c,
        rect_nonempty (rect_clip_to_screen a) = true ->
        rect_nonempty (rect_clip_to_screen b) = true ->
        rect_nonempty (rect_clip_to_screen c) = true ->
        rect_intersects (rect_clip_to_screen a) (rect_clip_to_screen b) = false ->
        rect_intersects (rect_clip_to_screen c) (rect_clip_to_screen a) = true ->
        rect_intersects (rect_clip_to_screen c) (rect_clip_to_screen b) = true ->
        dirty_entries
          (WM_InvalidateRect (Some c)
             (WM_InvalidateRect (Some b) (WM_InvalidateRect (Some a) s)))
        = [mkDirty (rect_union (rect_clip_to_screen a) (rect_clip_to_screen c)) 1;
           mkDirty (rect_clip_to_screen b) 1]).
Proof.
  intros Hwf H0.
  assert (exists d0 d1 rest, dirtyRects s = d0 :: d1 :: rest) as (d0 & d1 & rest & Hd).
  { unfold wm_wf in Hwf. rewrite !andb_true_iff in Hwf.
    destruct Hwf as [[[_ _] Hl] _]. apply Nat.eqb_eq in Hl.
    destruct (dirtyRects s) as [|d0 [|d1 rest]]; try discriminate; eauto. }
  split.
  - intros r Hne.
    destruct (Invalidate_first s r H0 Hne) as [Hc Hr].
    set (s1 := WM_InvalidateRect (Some r) s) in *. clearbody s1.
    rewrite (Invalidate_nonempty _ _ Hne), Hc, Hr, Hd.
    change (Z.to_nat 1) with 1%nat. cbn [dirty_merge insert list_insert nth].
    cbn [valid rect Z.eqb negb andb].
    rewrite (rect_intersects_self _ Hne), rect_union_self.
    unfold dirty_entries. cbn. rewrite Hc. reflexivity.
  - intros a b c Ha Hb Hc Hab Hca Hcb.
    destruct (Invalidate_first s a H0 Ha) as [Hc1 Hr1].
    set (s1 := WM_InvalidateRect (Some a) s) in *. clearbody s1.
    assert (dirtyCount (WM_InvalidateRect (Some b) s1) = 2
            /\ dirtyRects (WM_InvalidateRect (Some b) s1)
               = mkDirty (rect_clip_to_screen a) 1
                 :: mkDirty (rect_clip_to_screen b) 1 :: rest) as [Hc2 Hr2].
    { rewrite (Invalidate_nonempty _ _ Hb), Hc1, Hr1, Hd.
      change (Z.to_nat 1) with 1%nat. cbn [dirty_merge insert list_insert nth].
      cbn [valid rect Z.eqb negb andb]. rewrite Hab.
      cbn. split; reflexivity. }
    set (s2 := WM_InvalidateRect (Some b) s1) in *. clearbody s2.
    rewrite (Invalidate_nonempty _ _ Hc), Hc2, Hr2.
    change (Z.to_nat 2) with 2%nat. cbn [dirty_merge insert list_insert nth].
    cbn [valid rect Z.eqb negb andb].
    rewrite (rect_intersects_sym _ (rect_clip_to_screen c)), Hca.
    unfold dirty_entries. cbn. rewrite Hc2. reflexivity.
Qed.

Lemma InvalidateRect_merge_witness :
  dirty_entries
    (WM_InvalidateRect (Some (mkRect 0 5 10 25))
       (WM_InvalidateRect (Some (mkRect 0 20 10 30))
          (WM_InvalidateRect (Some (mkRect 0 0 10 10)) WM_Init)))
  = [mkDirty (mkRect 0 0 10 25) 1; mkDirty (mkRect 0 20 10 30) 1].
Proof.
  exact (proj2 (InvalidateRect_merge WM_Init eq_refl eq_refl)
           (mkRect 0 0 10 10) (mkRect 0 20 10 30) (mkRect 0 5 10 25)
           eq_refl eq_refl eq_refl eq_refl eq_refl eq_refl).
Defined.

(** C5 as stated fails twice: a non-empty rectangle that lies off the
    screen leaves no entry at all, and two disjoint rectangles followed
    by one that spans both leave two entries, not one. *)
Lemma InvalidateRect_not_one_entry :
  rect_nonempty (mkRect 0 400 10 500) = true
  /\ dirty_entries
       (WM_InvalidateRect (Some (mkRect 0 400 10 500))
          (WM_InvalidateRect (Some (mkRect 0 400 10 500)) WM_Init)) = []
  /\ rect_intersects (mkRect 0 0 10 10) (mkRect 0 20 10 30) = false
  /\ rect_intersects (mkRect 0 5 10 25) (mkRect 0 0 10 10) = true
  /\ rect_intersects (mkRect 0 5 10 25) (mkRect 0 20 10 30) = true
  /\ length
       (dirty_entries
          (WM_InvalidateRect (Some (mkRect 0 5 10 25))
             (WM_InvalidateRect (Some (mkRect 0 20 10 30))
                (WM_InvalidateRect (Some (mkRect 0 0 10 10)) WM_Init))))
     = 2%nat.
Proof. repeat split; reflexivity. Qed.

(** ** Z-order: reading links after stores *)

Lemma proj_upd {A} (g : Window -> A) s i j f :
  (forall W, g (f W) = g W) ->
  g (win_at (upd_win j f s) i) = g (win_at s i).
Proof.
  intros Hf. destruct (Nat.eq_dec j i) as [-> | Hne].
  - destruct (Nat.lt_ge_cases i (length (pool s))) as [Hlt|Hge].
    + rewrite win_at_upd_eq by assumption. apply Hf.
    + unfold win_at, upd_win; simpl. now rewrite list_insert_ge by lia.
  - now rewrite win_at_upd_ne.
Qed.

Lemma above_upd_set_above s j v x :
  (j < length (pool s))%nat ->
  above (win_at (upd_win j (set_above v) s) x)
  = if Nat.eqb x j then v else above (win_at s x).
Proof.
  intros Hj. destruct (Nat.eqb_spec x j) as [-> | Hne].
  - now rewrite win_at_upd_eq.
  - rewrite win_at_upd_ne by congruence. reflexivity.
Qed.

Lemma below_upd_set_below s j v x :
  (j < length (pool s))%nat ->
  below (win_at (upd_win j (set_below v) s) x)
  = if Nat.eqb x j then v else below (win_at s x).
Proof.
  intros Hj. destruct (Nat.eqb_spec x j) as [-> | Hne].
  - now rewrite win_at_upd_eq.
  - rewrite win_at_upd_ne by congruence. reflexivity.
Qed.

Lemma above_upd_set_below s j v x :
  above (win_at (upd_win j (set_below v) s) x) = above (win_at s x).
Proof. apply (proj_upd above). intros W; destruct W; reflexivity. Qed.

Lemma below_upd_set_above s j v x :
  below (win_at (upd_win j (set_above v) s) x) = below (win_at s x).
Proof. apply (proj_upd below). intros W; destruct W; reflexivity. Qed.

Lemma id_upd_set_above s j v x :
  id (win_at (upd_win j (set_above v) s) x) = id (win_at s x).
Proof. apply (proj_upd id). intros W; destruct W; reflexivity. Qed.

Lemma id_upd_set_below s j v x :
  id (win_at (upd_win j (set_below v) s) x) = id (win_at s x).
Proof. apply (proj_upd id). intros W; destruct W; reflexivity. Qed.

(** ** Z-order: chained segments *)

Lemma seg_ext s s' l : forall p n,
  (forall x, x ∈ l -> above (win_at s' x) = above (win_at s x)
                      /\ below (win_at s' x) = below (win_at s x)) ->
  seg s p l n -> seg s' p l n.
Proof.
  induction l as [|w r IH]; intros p n H Hs; cbn [seg] in *; [exact I|].
  destruct Hs as (Ha & Hb & Hr).
  destruct (H w ltac:(left)) as [E1 E2].
  rewrite E1, E2. repeat split; auto.
  apply IH; [|assumption]. intros x Hx. apply H. now right.
Qed.

Lemma last_cons2 (w y : nat) r : last (w :: y :: r) = last (y :: r).
Proof. reflexivity. Qed.

Lemma last_or_cons p w r : last_or p (w :: r) = last_or (Some w) r.
Proof.
  unfold last_or. destruct r as [|y r]; [reflexivity|].
  rewrite last_cons2. destruct (last (y :: r)) eqn:E; [reflexivity|].
  apply last_None in E. discriminate.
Qed.

Lemma seg_app s l1 : forall l2 p n,
  seg s p (l1 ++ l2) n
  <-> seg s p l1 (hd_or n l2) /\ seg s (last_or p l1) l2 n.
Proof.
  induction l1 as [|w r IH]; intros l2 p n.
  - unfold last_or; simpl. tauto.
  - rewrite last_or_cons. cbn [app seg]. rewrite IH.
    assert (hd_or n (r ++ l2) = hd_or (hd_or n l2) r) as ->
      by (destruct r; reflexivity).
    tauto.
Qed.

(** Changing what lies below the last window of a segment. *)
Lemma seg_retarget_next s s' l : forall p n n',
  NoDup l ->
  seg s p l n ->
  (forall x, x ∈ l -> above (win_at s' x) = above (win_at s x)) ->
  (forall x, x ∈ l -> last l <> Some x ->
             below (win_at s' x) = below (win_at s x)) ->
  (forall x, last l = Some x -> below (win_at s' x) = n') ->
  seg s' p l n'.
Proof.
  induction l as [|w r IH]; intros p n n' Hnd Hs Ha Hb Hl; [exact I|].
  cbn [seg] in *. destruct Hs as (Hwa & Hwb & Hr).
  apply NoDup_cons in Hnd as [Hw Hnd].
  split; [rewrite Ha; [assumption | now left]|]. split.
  - destruct r as [|y r].
    + apply Hl. reflexivity.
    + rewrite Hb; [assumption | now left |].
      rewrite last_cons2. intros E. apply Hw.
      apply last_Some_elem_of in E. exact E.
  - apply (IH (Some w) n n'); auto.
    + intros x Hx. apply Ha. now right.
    + intros x Hx Hne. apply Hb; [now right|].
      destruct r; [now apply elem_of_nil in Hx|]. now rewrite last_cons2.
    + intros x Hx. apply Hl. destruct r; [discriminate|].
      now rewrite last_cons2.
Qed.

(** Changing what lies above the first window of a segment. *)
Lemma seg_retarget_prev s s' l : forall p p' n,
  NoDup l ->
  seg s p l n ->
  (forall x, x ∈ l -> below (win_at s' x) = below (win_at s x)) ->
  (forall x, x ∈ l -> head l <> Some x ->
             above (win_at s' x) = above (win_at s x)) ->
  (forall x, head l = Some x -> above (win_at s' x) = p') ->
  seg s' p' l n.
Proof.
  intros p p' n Hnd Hs Hb Ha Hh.
  destruct l as [|w r]; [exact I|].
  cbn [seg] in *. destruct Hs as (Hwa & Hwb & Hr).
  apply NoDup_cons in Hnd as [Hw Hnd].
  split; [apply Hh; reflexivity|].
  split; [rewrite Hb; [assumption | now left]|].
  apply (seg_ext s); [|assumption].
  intros x Hx. split.
  - apply Ha; [now right|]. cbn. intros [= ->]. contradiction.
  - apply Hb. now right.
Qed.

(** ** Z-order: what [zorder_unlink] stores *)

Lemma unlink_ptrs s w :
  length (pool s) = WM_MAX_WINDOWS -> (w < WM_MAX_WINDOWS)%nat ->
  (forall a, above (win_at s w) = Some a -> (a < WM_MAX_WINDOWS)%nat /\ a <> w) ->
  (forall b, below (win_at s w) = Some b -> (b < WM_MAX_WINDOWS)%nat /\ b <> w) ->
  let pa := above (win_at s w) in
  let pb := below (win_at s w) in
  let s' := zorder_unlink w s in
  length (pool s') = WM_MAX_WINDOWS
  /\ poolUsed s' = poolUsed s
  /\ activeWindow s' = activeWindow s
  /\ topWindow s' = match pa with None => pb | Some _ => topWindow s end
  /\ bottomWindow s' = match pb with None => pa | Some _ => bottomWindow s end
  /\ forall x,
       above (win_at s' x)
       = (if Nat.eqb x w then None
          else if decide (pb = Some x) then pa else above (win_at s x))
       /\ below (win_at s' x)
          = (if Nat.eqb x w then None
             else if decide (pa = Some x) then pb else below (win_at s x))
       /\ id (win_at s' x) = id (win_at s x).
Proof.
  intros Hlen Hw Ha Hb. cbv zeta. unfold zorder_unlink.
  remember (above (win_at s w)) as pa eqn:Epa.
  remember (below (win_at s w)) as pb eqn:Epb.
  assert (forall a, pa = Some a -> (a < WM_MAX_WINDOWS)%nat /\ a <> w) as Ha'
    by exact Ha.
  assert (forall b, pb = Some b -> (b < WM_MAX_WINDOWS)%nat /\ b <> w) as Hb'
    by exact Hb.
  (* the first store leaves the record of [w] as it was *)
  set (s1 := match pa with
             | Some a => upd_win a (set_below pb) s
             | None => set_topWindow pb s
             end).
  assert (win_at s1 w = win_at s w) as E1.
  { subst s1. destruct pa as [a|]; [|reflexivity].
    destruct (Ha' a eq_refl) as [_ Hne]. now rewrite win_at_upd_ne. }
  assert (length (pool s1) = WM_MAX_WINDOWS) as Hl1.
  { subst s1. destruct pa; [now rewrite pool_length_upd | assumption]. }
  rewrite E1, <- Epa, <- Epb.
  set (s2 := match pb with
             | Some b => upd_win b (set_above pa) s1
             | None => set_bottomWindow pa s1
             end).
  assert (length (pool s2) = WM_MAX_WINDOWS) as Hl2.
  { subst s2. destruct pb; [now rewrite pool_length_upd | assumption]. }
  clear Epa Epb Ha Hb E1.
  split; [now rewrite !pool_length_upd|].
  split; [subst s2 s1; destruct pa, pb; reflexivity|].
  split; [subst s2 s1; destruct pa, pb; reflexivity|].
  split; [subst s2 s1; destruct pa, pb; reflexivity|].
  split; [subst s2 s1; destruct pa, pb; reflexivity|].
  intros x. split; [|split].
  - rewrite above_upd_set_below.
    rewrite above_upd_set_above by (rewrite Hl2; exact Hw).
    destruct (Nat.eqb_spec x w) as [->|Hxw]; [reflexivity|].
    subst s2. destruct pb as [b|] eqn:Epb.
    + destruct (Hb' b eq_refl) as [Hb16 Hbw].
      rewrite above_upd_set_above by (rewrite Hl1; exact Hb16).
      destruct (Nat.eqb_spec x b) as [->|Hxb].
      * now rewrite decide_True.
      * rewrite decide_False by congruence.
        subst s1. destruct pa; [apply above_upd_set_below | reflexivity].
    + rewrite decide_False by discriminate.
      rewrite win_at_set_bottomWindow.
      subst s1. destruct pa; [apply above_upd_set_below | reflexivity].
  - rewrite below_upd_set_below by (rewrite pool_length_upd, Hl2; exact Hw).
    destruct (Nat.eqb_spec x w) as [->|Hxw]; [reflexivity|].
    rewrite below_upd_set_above.
    assert (below (win_at s2 x) = below (win_at s1 x)) as ->.
    { subst s2. destruct pb; [apply below_upd_set_above | reflexivity]. }
    subst s1. destruct pa as [a|] eqn:Epa.
    + destruct (Ha' a eq_refl) as [Ha16 Haw].
      rewrite below_upd_set_below by (rewrite Hlen; exact Ha16).
      destruct (Nat.eqb_spec x a) as [->|Hxa].
      * now rewrite decide_True.
      * now rewrite decide_False by congruence.
    + now rewrite decide_False by discriminate.
  - rewrite id_upd_set_below, id_upd_set_above.
    assert (id (win_at s2 x) = id (win_at s1 x)) as ->.
    { subst s2. destruct pb; [apply id_upd_set_above | reflexivity]. }
    subst s1. destruct pa; [apply id_upd_set_below | reflexivity].
Qed.

Lemma last_or_None l : last_or None l = last l.
Proof. unfold last_or. now destruct (last l). Qed.

Lemma hd_or_None l : hd_or None l = head l.
Proof. now destruct l. Qed.

Lemma unlink_zlinks s l1 w l2 :
  zlinks s (l1 ++ w :: l2) ->
  zlinks (zorder_unlink w s) (l1 ++ l2)
  /\ poolUsed (zorder_unlink w s) = poolUsed s
  /\ activeWindow (zorder_unlink w s) = activeWindow s
  /\ forall x, id (win_at (zorder_unlink w s) x) = id (win_at s x).
Proof.
  intros (Hlen & Hnd & Hbound & Hout & Htop & Hbot & Hseg).
  apply seg_app in Hseg. destruct Hseg as [Hs1 Hs2].
  cbn [seg hd_or] in Hs1, Hs2. destruct Hs2 as (Hpa & Hpb & Hs2).
  rewrite last_or_None in Hpa. rewrite hd_or_None in Hpb.
  apply NoDup_app in Hnd as (Hnd1 & Hdisj & Hnd2).
  apply NoDup_cons in Hnd2 as [Hw2 Hnd2].
  assert (w ∉ l1) as Hw1.
  { intros Hin. apply (Hdisj w Hin). now left. }
  assert (forall x, x ∈ l1 -> x ∉ l2) as Hd12.
  { intros x Hx Hx2. apply (Hdisj x Hx). now right. }
  assert (w < WM_MAX_WINDOWS)%nat as Hw
    by (apply Hbound; apply elem_of_app; right; now left).
  destruct (unlink_ptrs s w Hlen Hw) as (Hl' & Hpu & Hact & Htop' & Hbot' & Hp).
  { intros a E. rewrite Hpa in E. apply last_Some_elem_of in E.
    split; [apply Hbound; apply elem_of_app; now left|].
    intros ->. contradiction. }
  { intros b E. rewrite Hpb in E. apply head_Some_elem_of in E.
    split; [apply Hbound; apply elem_of_app; right; now right|].
    intros ->. contradiction. }
  rewrite Hpa, Hpb in *.
  set (s' := zorder_unlink w s) in *.
  assert (forall x, x ∈ l1 -> Nat.eqb x w = false) as Hne1.
  { intros x Hx. apply Nat.eqb_neq. intros ->. contradiction. }
  assert (forall x, x ∈ l2 -> Nat.eqb x w = false) as Hne2.
  { intros x Hx. apply Nat.eqb_neq. intros ->. contradiction. }
  split; [|split; [assumption | split; [assumption | intros x; apply Hp]]].
  split; [assumption|].
  split; [apply NoDup_app; auto|].
  split; [intros x Hx; apply Hbound; apply elem_of_app in Hx as [Hx|Hx];
          apply elem_of_app; [now left | right; now right]|].
  split.
  { intros x Hx. apply not_elem_of_app in Hx as [Hx1 Hx2].
    destruct (Hp x) as (Ea & Eb & _). rewrite Ea, Eb.
    destruct (Nat.eqb_spec x w) as [->|Hxw]; [split; reflexivity|].
    assert (x ∉ l1 ++ w :: l2) as Hx.
    { rewrite not_elem_of_app, not_elem_of_cons. auto. }
    destruct (Hout x Hx) as [E1 E2].
    rewrite decide_False, decide_False; [split; assumption | |].
    - intros E. apply last_Some_elem_of in E. contradiction.
    - intros E. apply head_Some_elem_of in E. contradiction. }
  split.
  { rewrite Htop', Htop.
    destruct l1 as [|a l1]; [reflexivity|].
    destruct (last (a :: l1)) eqn:E; [reflexivity|].
    apply last_None in E. discriminate. }
  split.
  { rewrite Hbot', Hbot. rewrite !last_app.
    destruct l2 as [|b l2]; [reflexivity|]. cbn [head].
    rewrite last_cons.
    destruct (last (b :: l2)) eqn:E; [reflexivity|].
    apply last_None in E. discriminate. }
  apply seg_app. rewrite last_or_None, hd_or_None. split.
  - apply (seg_retarget_next s s' l1 None (Some w) (head l2)); auto.
    + intros x Hx. destruct (Hp x) as (Ea & _). rewrite Ea, (Hne1 x Hx).
      rewrite decide_False; [reflexivity|].
      intros E. apply head_Some_elem_of in E. now apply (Hd12 x).
    + intros x Hx Hl. destruct (Hp x) as (_ & Eb & _). rewrite Eb, (Hne1 x Hx).
      now rewrite decide_False.
    + intros x Hl. destruct (Hp x) as (_ & Eb & _). rewrite Eb.
      rewrite (Hne1 x) by (now apply last_Some_elem_of).
      now rewrite decide_True.
  - apply (seg_retarget_prev s s' l2 (Some w) (last l1) None); auto.
    + intros x Hx. destruct (Hp x) as (_ & Eb & _). rewrite Eb, (Hne2 x Hx).
      rewrite decide_False; [reflexivity|].
      intros E. apply last_Some_elem_of in E. now apply (Hd12 x).
    + intros x Hx Hh. destruct (Hp x) as (Ea & _). rewrite Ea, (Hne2 x Hx).
      now rewrite decide_False.
    + intros x Hh. destruct (Hp x) as (Ea & _). rewrite Ea.
      rewrite (Hne2 x) by (now apply head_Some_elem_of).
      now rewrite decide_True.
Qed.

(** ** Z-order: linking at the top and at the bottom *)

Lemma push_top_zlinks s l w :
  zlinks s l -> w ∉ l -> (w < WM_MAX_WINDOWS)%nat ->
  zlinks (zorder_push_top w s) (w :: l)
  /\ poolUsed (zorder_push_top w s) = poolUsed s
  /\ activeWindow (zorder_push_top w s) = activeWindow s
  /\ forall x, id (win_at (zorder_push_top w s) x) = id (win_at s x).
Proof.
  intros (Hlen & Hnd & Hbound & Hout & Htop & Hbot & Hseg) Hw Hw16.
  unfold zorder_push_top. cbv zeta.
  set (s1 := upd_win w (set_above None) s).
  assert (topWindow s1 = head l) as Ht1 by exact Htop.
  rewrite Ht1.
  set (s2 := upd_win w (set_below (head l)) s1).
  assert (topWindow s2 = head l) as Ht2 by exact Htop.
  rewrite Ht2.
  assert (length (pool s1) = WM_MAX_WINDOWS) as Hl1
    by (subst s1; now rewrite pool_length_upd).
  assert (length (pool s2) = WM_MAX_WINDOWS) as Hl2
    by (subst s2; now rewrite pool_length_upd).
  set (s3 := match head l with
             | Some t => upd_win t (set_above (Some w)) s2
             | None => s2
             end).
  assert (length (pool s3) = WM_MAX_WINDOWS) as Hl3
    by (subst s3; destruct (head l); [now rewrite pool_length_upd | assumption]).
  assert (forall x, above (win_at s3 x)
                    = if decide (head l = Some x) then Some w
                      else if Nat.eqb x w then None else above (win_at s x))
    as Habove.
  { intros x. subst s3. destruct (head l) as [t|] eqn:Eh.
    - assert (t ∈ l) as Ht by (now apply head_Some_elem_of).
      rewrite above_upd_set_above by (rewrite Hl2; now apply Hbound).
      destruct (Nat.eqb_spec x t) as [->|Hxt].
      + now rewrite decide_True.
      + rewrite decide_False by congruence.
        subst s2. rewrite above_upd_set_below. subst s1.
        now rewrite above_upd_set_above by (rewrite Hlen; exact Hw16).
    - rewrite decide_False by discriminate.
      subst s2. rewrite above_upd_set_below. subst s1.
      now rewrite above_upd_set_above by (rewrite Hlen; exact Hw16). }
  assert (forall x, below (win_at s3 x)
                    = if Nat.eqb x w then head l else below (win_at s x))
    as Hbelow.
  { intros x.
    assert (below (win_at s3 x) = below (win_at s2 x)) as ->
      by (subst s3; destruct (head l); [apply below_upd_set_above | reflexivity]).
    subst s2. rewrite below_upd_set_below by (rewrite Hl1; exact Hw16).
    destruct (Nat.eqb x w); [reflexivity|].
    subst s1. apply below_upd_set_above. }
  assert (forall x, id (win_at s3 x) = id (win_at s x)) as Hid.
  { intros x.
    assert (id (win_at s3 x) = id (win_at s2 x)) as ->
      by (subst s3; destruct (head l); [apply id_upd_set_above | reflexivity]).
    subst s2 s1. now rewrite id_upd_set_below, id_upd_set_above. }
  assert (bottomWindow (set_topWindow (Some w) s3) = last l) as Hb3.
  { cbn. subst s3 s2 s1. destruct (head l); exact Hbot. }
  assert (poolUsed s3 = poolUsed s) as Hpu
    by (subst s3 s2 s1; destruct (head l); reflexivity).
  assert (activeWindow s3 = activeWindow s) as Hact
    by (subst s3 s2 s1; destruct (head l); reflexivity).
  assert (forall x, x ∈ l -> Nat.eqb x w = false) as Hne.
  { intros x Hx. apply Nat.eqb_neq. intros ->. contradiction. }
  set (s4 := set_topWindow (Some w) s3) in *.
  set (f := match bottomWindow s4 with
            | Some _ => s4
            | None => set_bottomWindow (Some w) s4
            end).
  assert (forall x, win_at f x = win_at s3 x) as Hwf
    by (intros x; subst f; destruct (bottomWindow s4); reflexivity).
  assert (bottomWindow f = last (w :: l)) as Hbf.
  { subst f. rewrite Hb3. destruct l as [|t r]; [reflexivity|].
    rewrite last_cons2. destruct (last (t :: r)) eqn:E.
    - exact Hb3.
    - apply last_None in E. discriminate. }
  assert (topWindow f = Some w) as Htf
    by (subst f; destruct (bottomWindow s4); reflexivity).
  assert (length (pool f) = WM_MAX_WINDOWS) as Hlf
    by (subst f; destruct (bottomWindow s4); exact Hl3).
  split.
  { unfold zlinks.
    split; [exact Hlf|].
    split; [apply NoDup_cons; auto|].
    split; [intros x Hx; apply elem_of_cons in Hx as [->|Hx]; auto|].
    split.
    { intros x Hx. apply not_elem_of_cons in Hx as [Hxw Hxl].
      rewrite Hwf, Habove, Hbelow.
      apply Nat.eqb_neq in Hxw. rewrite Hxw.
      rewrite decide_False.
      - now apply Hout.
      - intros E. apply head_Some_elem_of in E. contradiction. }
    split; [exact Htf|]. split; [exact Hbf|].
    cbn [seg]. rewrite Hwf, Habove, Hbelow, Nat.eqb_refl, hd_or_None.
    split.
    { rewrite decide_False; [reflexivity|].
      intros E. apply head_Some_elem_of in E. contradiction. }
    split; [reflexivity|].
    apply (seg_retarget_prev s f l None (Some w) None); auto.
    - intros x Hx. now rewrite Hwf, Hbelow, (Hne x Hx).
    - intros x Hx Hh. rewrite Hwf, Habove, (Hne x Hx). now rewrite decide_False.
    - intros x Hh. rewrite Hwf, Habove. now rewrite decide_True. }
  split; [subst f; destruct (bottomWindow s4); exact Hpu|].
  split; [subst f; destruct (bottomWindow s4); exact Hact|].
  intros x. rewrite Hwf. apply Hid.
Qed.

(** The second half of [WM_SendToBack]: linking [w] at the bottom. *)
Lemma push_bottom_zlinks s l w :
  zlinks s l -> w ∉ l -> (w < WM_MAX_WINDOWS)%nat ->
  let s2 := upd_win w (set_below None) s in
  let s3 := upd_win w (set_above (bottomWindow s2)) s2 in
  let s4 := match bottomWindow s3 with
            | Some b => upd_win b (set_below (Some w)) s3
            | None => s3
            end in
  let s5 := set_bottomWindow (Some w) s4 in
  let s6 := match topWindow s5 with
            | Some _ => s5
            | None => set_topWindow (Some w) s5
            end in
  zlinks s6 (l ++ [w])
  /\ poolUsed s6 = poolUsed s
  /\ activeWindow s6 = activeWindow s
  /\ forall x, id (win_at s6 x) = id (win_at s x).
Proof.
  intros (Hlen & Hnd & Hbound & Hout & Htop & Hbot & Hseg) Hw Hw16.
  intros s2 s3.
  assert (bottomWindow s2 = last l) as Hb2 by exact Hbot.
  assert (bottomWindow s3 = last l) as Hb3 by exact Hbot.
  subst s3. rewrite Hb3, Hb2.
  set (s3 := upd_win w (set_above (last l)) s2).
  assert (length (pool s2) = WM_MAX_WINDOWS) as Hl2
    by (subst s2; now rewrite pool_length_upd).
  assert (length (pool s3) = WM_MAX_WINDOWS) as Hl3
    by (subst s3; now rewrite pool_length_upd).
  intros s4.
  assert (length (pool s4) = WM_MAX_WINDOWS) as Hl4
    by (subst s4; destruct (last l); [now rewrite pool_length_upd | assumption]).
  assert (forall x, below (win_at s4 x)
                    = if decide (last l = Some x) then Some w
                      else if Nat.eqb x w then None else below (win_at s x))
    as Hbelow.
  { intros x. subst s4. destruct (last l) as [b|] eqn:El.
    - assert (b ∈ l) as Hbl by (now apply last_Some_elem_of).
      rewrite below_upd_set_below by (rewrite Hl3; now apply Hbound).
      destruct (Nat.eqb_spec x b) as [->|Hxb].
      + now rewrite decide_True.
      + rewrite decide_False by congruence.
        subst s3. rewrite below_upd_set_above. subst s2.
        now rewrite below_upd_set_below by (rewrite Hlen; exact Hw16).
    - rewrite decide_False by discriminate.
      subst s3. rewrite below_upd_set_above. subst s2.
      now rewrite below_upd_set_below by (rewrite Hlen; exact Hw16). }
  assert (forall x, above (win_at s4 x)
                    = if Nat.eqb x w then last l else above (win_at s x))
    as Habove.
  { intros x.
    assert (above (win_at s4 x) = above (win_at s3 x)) as ->
      by (subst s4; destruct (last l); [apply above_upd_set_below | reflexivity]).
    subst s3. rewrite above_upd_set_above by (rewrite Hl2; exact Hw16).
    destruct (Nat.eqb x w); [reflexivity|].
    subst s2. apply above_upd_set_below. }
  assert (forall x, id (win_at s4 x) = id (win_at s x)) as Hid.
  { intros x.
    assert (id (win_at s4 x) = id (win_at s3 x)) as ->
      by (subst s4; destruct (last l); [apply id_upd_set_below | reflexivity]).
    subst s3 s2. now rewrite id_upd_set_above, id_upd_set_below. }
  assert (topWindow s4 = head l) as Ht4
    by (subst s4 s3 s2; destruct (last l); exact Htop).
  assert (poolUsed s4 = poolUsed s) as Hpu
    by (subst s4 s3 s2; destruct (last l); reflexivity).
  assert (activeWindow s4 = activeWindow s) as Hact
    by (subst s4 s3 s2; destruct (last l); reflexivity).
  assert (forall x, x ∈ l -> Nat.eqb x w = false) as Hne.
  { intros x Hx. apply Nat.eqb_neq. intros ->. contradiction. }
  intros s5 s6.
  assert (forall x, win_at s6 x = win_at s4 x) as Hw6
    by (intros x; subst s6; destruct (topWindow s5); reflexivity).
  assert (topWindow s6 = head (l ++ [w])) as Ht6.
  { subst s6. change (topWindow s5) with (topWindow s4). rewrite Ht4.
    destruct l as [|t r]; [reflexivity|]. cbn. exact Ht4. }
  assert (bottomWindow s6 = Some w) as Hb6
    by (subst s6; destruct (topWindow s5); reflexivity).
  assert (length (pool s6) = WM_MAX_WINDOWS) as Hl6
    by (subst s6; destruct (topWindow s5); exact Hl4).
  split.
  { unfold zlinks.
    split; [exact Hl6|].
    split.
    { apply NoDup_app. split; [assumption|]. split.
      - intros x Hx Hxw. apply list_elem_of_singleton in Hxw. subst. contradiction.
      - apply NoDup_singleton. }
    split.
    { intros x Hx. apply elem_of_app in Hx as [Hx|Hx]; auto.
      apply list_elem_of_singleton in Hx. now subst. }
    split.
    { intros x Hx. apply not_elem_of_app in Hx as [Hxl Hxw].
      rewrite list_elem_of_singleton in Hxw.
      rewrite Hw6, Habove, Hbelow.
      apply Nat.eqb_neq in Hxw. rewrite Hxw.
      rewrite decide_False.
      - now apply Hout.
      - intros E. apply last_Some_elem_of in E. contradiction. }
    split; [exact Ht6|]. split; [now rewrite last_snoc|].
    apply seg_app. rewrite last_or_None. cbn [hd_or seg]. split.
    - apply (seg_retarget_next s s6 l None None (Some w)); auto.
      + intros x Hx. now rewrite Hw6, Habove, (Hne x Hx).
      + intros x Hx Hl. rewrite Hw6, Hbelow, (Hne x Hx).
        now rewrite decide_False.
      + intros x Hl. rewrite Hw6, Hbelow. now rewrite decide_True.
    - rewrite Hw6, Habove, Hbelow, Nat.eqb_refl.
      split; [reflexivity|]. split; [|exact I].
      rewrite decide_False; [reflexivity|].
      intros E. apply last_Some_elem_of in E. contradiction. }
  split; [subst s6; destruct (topWindow s5); exact Hpu|].
  split; [subst s6; destruct (topWindow s5); exact Hact|].
  intros x. rewrite Hw6. apply Hid.
Qed.

(** ** Z-order: stores that leave the list alone *)

Lemma links_eq_refl s : links_eq s s.
Proof. repeat split; reflexivity. Qed.

Lemma links_eq_trans s1 s2 s3 :
  links_eq s1 s2 -> links_eq s2 s3 -> links_eq s1 s3.
Proof.
  intros (A1 & A2 & A3 & A4 & A5) (B1 & B2 & B3 & B4 & B5).
  split; [congruence|]. split; [congruence|]. split; [congruence|].
  split; [congruence|]. intros w.
  destruct (A5 w) as (? & ? & ?); destruct (B5 w) as (? & ? & ?).
  repeat split; congruence.
Qed.

Lemma links_eq_upd s j f :
  (forall W, above (f W) = above W) -> (forall W, below (f W) = below W) ->
  (forall W, id (f W) = id W) ->
  links_eq s (upd_win j f s).
Proof.
  intros Ha Hb Hi. split; [apply pool_length_upd|].
  split; [reflexivity|]. split; [reflexivity|]. split; [reflexivity|].
  intros w. split; [|split].
  - now apply (proj_upd above).
  - now apply (proj_upd below).
  - now apply (proj_upd id).
Qed.

Lemma links_eq_or_flag s j mask : links_eq s (upd_win j (or_flag mask) s).
Proof. apply links_eq_upd; intros W; destruct W; reflexivity. Qed.

Lemma links_eq_clear_flag s j mask : links_eq s (upd_win j (clear_flag mask) s).
Proof. apply links_eq_upd; intros W; destruct W; reflexivity. Qed.

Lemma InvalidateRect_fields r s :
  pool (WM_InvalidateRect r s) = pool s
  /\ poolUsed (WM_InvalidateRect r s) = poolUsed s
  /\ topWindow (WM_InvalidateRect r s) = topWindow s
  /\ bottomWindow (WM_InvalidateRect r s) = bottomWindow s
  /\ activeWindow (WM_InvalidateRect r s) = activeWindow s.
Proof.
  unfold WM_InvalidateRect. destruct r as [r|]; [|repeat split].
  destruct (_ || _); [repeat split|].
  destruct (dirty_merge _ _ _ _); [repeat split|].
  destruct (_ <? _); repeat split.
Qed.

Lemma links_eq_InvalidateRect r s : links_eq s (WM_InvalidateRect r s).
Proof.
  destruct (InvalidateRect_fields r s) as (Hp & Hu & Ht & Hb & _).
  unfold links_eq, win_at. rewrite Hp, Hu, Ht, Hb. repeat split.
Qed.

Lemma links_eq_InvalidateWindow w s : links_eq s (WM_InvalidateWindow w s).
Proof.
  destruct w; [apply links_eq_InvalidateRect | apply links_eq_refl].
Qed.

Lemma links_eq_set_activeWindow v s : links_eq s (set_activeWindow v s).
Proof. repeat split. Qed.

Lemma activeWindow_InvalidateWindow w s :
  activeWindow (WM_InvalidateWindow w s) = activeWindow s.
Proof.
  destruct w; [|reflexivity]. apply InvalidateRect_fields.
Qed.

Lemma zlinks_links_eq s s' l : links_eq s s' -> zlinks s l -> zlinks s' l.
Proof.
  intros (A1 & A2 & A3 & A4 & A5) (Hlen & Hnd & Hbound & Hout & Htop & Hbot & Hseg).
  unfold zlinks. rewrite A1, A2, A3.
  split; [assumption|]. split; [assumption|]. split; [assumption|].
  split.
  { intros w Hw. destruct (A5 w) as (-> & -> & _). now apply Hout. }
  split; [assumption|]. split; [assumption|].
  apply (seg_ext s); [|assumption].
  intros x _. destruct (A5 x) as (? & ? & _). split; assumption.
Qed.

Lemma zrep_links_eq s s' l : links_eq s s' -> zrep s l -> zrep s' l.
Proof.
  intros Heq (Hz & Hlu & Hlive & Hid).
  pose proof Heq as (A1 & A2 & A3 & A4 & A5).
  split; [now apply (zlinks_links_eq s)|].
  unfold live in *. rewrite A4.
  split; [assumption|]. split; [assumption|].
  intros w Hw. destruct (A5 w) as (_ & _ & ->). now apply Hid.
Qed.

Lemma zlinks_ext s s' l :
  length (pool s') = length (pool s) ->
  topWindow s' = topWindow s -> bottomWindow s' = bottomWindow s ->
  (forall w, above (win_at s' w) = above (win_at s w)
             /\ below (win_at s' w) = below (win_at s w)) ->
  zlinks s l -> zlinks s' l.
Proof.
  intros A1 A2 A3 A5 (Hlen & Hnd & Hbound & Hout & Htop & Hbot & Hseg).
  unfold zlinks. rewrite A1, A2, A3.
  split; [assumption|]. split; [assumption|]. split; [assumption|].
  split.
  { intros w Hw. destruct (A5 w) as (-> & ->). now apply Hout. }
  split; [assumption|]. split; [assumption|].
  apply (seg_ext s); [|assumption]. intros x _. apply A5.
Qed.

(** ** Z-order: the four calls keep the representation *)

Lemma Dispose_zrep s l w :
  zrep s l -> live s w = true ->
  exists l', zrep (WM_DisposeWindow (Some w) s) l'.
Proof.
  intros Hrep Hlv.
  assert (w ∈ l) as Hin by (apply Hrep; exact Hlv).
  apply list_elem_of_split in Hin. destruct Hin as (l1 & l2 & ->).
  exists (l1 ++ l2). unfold WM_DisposeWindow.
  set (s1 := WM_InvalidateRect (Some (frame (win_at s w))) s).
  assert (zrep s1 (l1 ++ w :: l2)) as Hrep1
    by (apply (zrep_links_eq s); [apply links_eq_InvalidateRect | assumption]).
  destruct Hrep1 as (Hz1 & Hlu1 & Hlive1 & Hid1).
  pose proof Hz1 as (_ & Hnd & _).
  destruct (unlink_zlinks s1 l1 w l2 Hz1) as (Hz2 & Hpu2 & Hact2 & Hid2).
  cbv zeta. set (s2 := zorder_unlink w s1) in *.
  set (s3 := if ptr_eqb (activeWindow s2) (Some w)
             then match activeWindow (set_activeWindow (topWindow s2) s2) with
                  | Some a =>
                      upd_win a (or_flag WF_HILITED)
                        (set_activeWindow (topWindow s2) s2)
                  | None => set_activeWindow (topWindow s2) s2
                  end
             else s2).
  assert (links_eq s2 s3) as H23.
  { subst s3. destruct (ptr_eqb _ _); [|apply links_eq_refl].
    destruct (activeWindow (set_activeWindow (topWindow s2) s2)).
    - apply (links_eq_trans _ (set_activeWindow (topWindow s2) s2));
        [apply links_eq_set_activeWindow | apply links_eq_or_flag].
    - apply links_eq_set_activeWindow. }
  pose proof H23 as (B1 & B2 & B3 & B4 & B5).
  assert (w ∈ l1 ++ w :: l2) as Hwl by (apply elem_of_app; right; now left).
  assert (id (win_at s3 w) = Z.of_nat w) as Hidw.
  { destruct (B5 w) as (_ & _ & ->). rewrite Hid2. now apply Hid1. }
  assert (w < WM_MAX_WINDOWS)%nat as Hw16.
  { destruct Hz1 as (_ & _ & Hb & _). now apply Hb. }
  unfold pool_free. rewrite Hidw.
  rewrite (ltb_true (Z.of_nat w) (Z.of_nat WM_MAX_WINDOWS)) by lia.
  rewrite Nat2Z.id. cbv zeta.
  apply NoDup_app in Hnd as (Hnd1 & Hdisj & Hnd2).
  apply NoDup_cons in Hnd2 as [Hw2 Hnd2].
  assert (w ∉ l1) as Hw1 by (intros Hx; apply (Hdisj w Hx); now left).
  split; [|split; [|split]].
  - apply (zlinks_ext s3); try reflexivity; [intros x; split; reflexivity|].
    apply (zlinks_links_eq s2); assumption.
  - cbn. rewrite length_insert, B4, Hpu2. exact Hlu1.
  - intros x. unfold live. cbn [poolUsed set_windowCount set_poolUsed].
    rewrite B4, Hpu2.
    destruct (Nat.eq_dec x w) as [-> | Hne].
    + rewrite nth_insert_eq by (rewrite Hlu1; exact Hw16).
      rewrite andb_false_r. split; [|discriminate].
      intros Hx. apply elem_of_app in Hx as [Hx|Hx]; contradiction.
    + rewrite nth_insert_ne by congruence.
      rewrite <- (Hlive1 x). unfold live.
      rewrite !elem_of_app, elem_of_cons. intuition congruence.
  - intros x Hx.
    change (id (win_at s3 x) = Z.of_nat x).
    destruct (B5 x) as (_ & _ & ->). rewrite Hid2. apply Hid1.
    apply elem_of_app in Hx as [Hx|Hx]; apply elem_of_app;
      [now left | right; now right].
Qed.

Lemma zrep_relink s s' l l' :
  zrep s l -> zlinks s' l' -> poolUsed s' = poolUsed s ->
  (forall x, id (win_at s' x) = id (win_at s x)) ->
  (forall x, x ∈ l' <-> x ∈ l) ->
  zrep s' l'.
Proof.
  intros (Hz & Hlu & Hlive & Hid) Hz' Hpu Hid' Hperm.
  split; [assumption|]. split; [now rewrite Hpu|]. split.
  - intros x. rewrite Hperm, Hlive. unfold live. now rewrite Hpu.
  - intros x Hx. rewrite Hid'. apply Hid. now apply Hperm.
Qed.

Lemma Select_zrep s l w :
  zrep s l -> live s w = true ->
  exists l', zrep (WM_SelectWindow (Some w) s) l'.
Proof.
  intros Hrep Hlv. unfold WM_SelectWindow.
  destruct (ptr_eqb (Some w) (topWindow s)); [now exists l|].
  assert (w ∈ l) as Hin by (apply Hrep; exact Hlv).
  apply list_elem_of_split in Hin. destruct Hin as (l1 & l2 & ->).
  exists (w :: l1 ++ l2). cbv zeta.
  set (s1 := match activeWindow s with
             | Some a =>
                 WM_InvalidateWindow (Some a)
                   (upd_win a (clear_flag WF_HILITED) s)
             | None => s
             end).
  assert (links_eq s s1) as H01.
  { subst s1. destruct (activeWindow s); [|apply links_eq_refl].
    eapply links_eq_trans;
      [apply links_eq_clear_flag | apply links_eq_InvalidateWindow]. }
  assert (zrep s1 (l1 ++ w :: l2)) as Hrep1 by (now apply (zrep_links_eq s)).
  pose proof Hrep1 as (Hz1 & _).
  pose proof Hz1 as (_ & Hnd & Hbound & _).
  destruct (unlink_zlinks s1 l1 w l2 Hz1) as (Hz2 & Hpu2 & _ & Hid2).
  apply NoDup_app in Hnd as (Hnd1 & Hdisj & Hnd2).
  apply NoDup_cons in Hnd2 as [Hw2 Hnd2].
  assert (w ∉ l1 ++ l2) as Hw.
  { apply not_elem_of_app. split; [|assumption].
    intros Hx. apply (Hdisj w Hx). now left. }
  assert (w < WM_MAX_WINDOWS)%nat as Hw16
    by (apply Hbound; apply elem_of_app; right; now left).
  destruct (push_top_zlinks (zorder_unlink w s1) (l1 ++ l2) w Hz2 Hw Hw16)
    as (Hz3 & Hpu3 & _ & Hid3).
  set (sp := zorder_push_top w (zorder_unlink w s1)) in *.
  assert (zrep sp (w :: l1 ++ l2)) as Hrep3.
  { apply (zrep_relink s1 sp (l1 ++ w :: l2)); auto.
    - congruence.
    - intros x. now rewrite Hid3, Hid2.
    - intros x. rewrite elem_of_cons, !elem_of_app, elem_of_cons. tauto. }
  apply (zrep_links_eq sp); [|assumption].
  eapply links_eq_trans; [apply links_eq_set_activeWindow|].
  eapply links_eq_trans;
    [apply links_eq_or_flag | apply links_eq_InvalidateWindow].
Qed.

Lemma SendToBack_zrep s l w :
  zrep s l -> live s w = true ->
  exists l', zrep (WM_SendToBack (Some w) s) l'.
Proof.
  intros Hrep Hlv. unfold WM_SendToBack.
  destruct (ptr_eqb (Some w) (bottomWindow s)); [now exists l|].
  assert (w ∈ l) as Hin by (apply Hrep; exact Hlv).
  apply list_elem_of_split in Hin. destruct Hin as (l1 & l2 & ->).
  exists ((l1 ++ l2) ++ [w]).
  pose proof Hrep as (Hz1 & _).
  pose proof Hz1 as (_ & Hnd & Hbound & _).
  destruct (unlink_zlinks s l1 w l2 Hz1) as (Hz2 & Hpu2 & _ & Hid2).
  apply NoDup_app in Hnd as (Hnd1 & Hdisj & Hnd2).
  apply NoDup_cons in Hnd2 as [Hw2 Hnd2].
  assert (w ∉ l1 ++ l2) as Hw.
  { apply not_elem_of_app. split; [|assumption].
    intros Hx. apply (Hdisj w Hx). now left. }
  assert (w < WM_MAX_WINDOWS)%nat as Hw16
    by (apply Hbound; apply elem_of_app; right; now left).
  pose proof (push_bottom_zlinks (zorder_unlink w s) (l1 ++ l2) w Hz2 Hw Hw16)
    as Hpb.
  cbv zeta in Hpb |- *. destruct Hpb as (Hz3 & Hpu3 & _ & Hid3).
  match goal with
  | |- zrep (WM_InvalidateRect _ ?sb) _ => set (s6 := sb) in *
  end.
  apply (zrep_links_eq s6); [apply links_eq_InvalidateRect|].
  apply (zrep_relink s s6 (l1 ++ w :: l2)); auto.
  - congruence.
  - intros x. now rewrite Hid3, Hid2.
  - intros x. rewrite !elem_of_app, !elem_of_cons, elem_of_nil. tauto.
Qed.

Ltac keeps_links :=
  intros W;
  first [ destruct W; reflexivity
        | unfold compute_window_rects; destruct (_ || _); destruct W;
          reflexivity ].

Ltac links_chain :=
  repeat first
    [ apply links_eq_refl
    | apply links_eq_InvalidateWindow
    | apply links_eq_InvalidateRect
    | apply links_eq_set_activeWindow
    | apply links_eq_upd; keeps_links
    | eapply links_eq_trans;
      [ | first [ apply links_eq_InvalidateWindow
                | apply links_eq_InvalidateRect
                | apply links_eq_set_activeWindow
                | apply links_eq_upd; keeps_links ] ] ].

Lemma pool_alloc_none s s0 : pool_alloc s = (None, s0) -> s0 = s.
Proof.
  unfold pool_alloc. destruct (pool_scan _ _ _); [discriminate|].
  now intros [= <-].
Qed.

Lemma NewWindow_zrep s l bounds ttl sty flgs :
  zrep s l -> exists l', zrep (snd (WM_NewWindow bounds ttl sty flgs s)) l'.
Proof.
  intros Hrep. unfold WM_NewWindow.
  destruct (pool_alloc s) as [[w|] s0] eqn:E.
  2:{ apply pool_alloc_none in E. subst. now exists l. }
  exists (w :: l).
  pose proof Hrep as (Hz & Hlu & Hlive & Hid).
  pose proof Hz as (Hlen & Hnd & Hbound & Hout & Htop & Hbot & Hseg).
  destruct (pool_alloc_some _ _ _ Hlen E)
    as (Hw16 & Hfree & Hl0 & Hw0 & Hoth & Ht0 & Hb0 & _ & Hpu0 & _).
  assert (w ∉ l) as Hw.
  { intros Hin. apply Hlive in Hin. unfold live in Hin.
    rewrite Hfree in Hin. rewrite andb_false_r in Hin. discriminate. }
  assert (zlinks s0 l) as Hz0.
  { apply (zlinks_ext s); auto; [congruence|].
    intros x. destruct (Nat.eq_dec x w) as [-> | Hne].
    - rewrite Hw0. destruct (Hout w Hw) as [-> ->]. split; reflexivity.
    - now rewrite (Hoth x Hne). }
  cbv zeta. cbn [snd].
  (* the stores before the window is linked *)
  match goal with
  | |- context [zorder_push_top w ?sb] => set (s7 := sb)
  end.
  assert (links_eq s0 s7) as H07.
  { subst s7. destruct ttl, (sty =? WM_STYLE_DOCUMENT),
      ((sty =? WM_STYLE_DIALOG) || (sty =? WM_STYLE_ALERT)); links_chain. }
  assert (zlinks s7 l) as Hz7 by (now apply (zlinks_links_eq s0)).
  destruct (push_top_zlinks s7 l w Hz7 Hw Hw16) as (Hz8 & Hpu8 & _ & Hid8).
  set (s8 := zorder_push_top w s7) in *.
  pose proof H07 as (_ & _ & _ & Hpu7 & Hp7).
  assert (zrep s8 (w :: l)) as Hrep8.
  { split; [assumption|]. split; [|split].
    - rewrite Hpu8, Hpu7, Hpu0, length_insert. exact Hlu.
    - intros x. unfold live. rewrite Hpu8, Hpu7, Hpu0.
      destruct (Nat.eq_dec x w) as [-> | Hne].
      + rewrite nth_insert_eq by (rewrite Hlu; exact Hw16).
        apply Nat.ltb_lt in Hw16. rewrite Hw16. cbn.
        split; [reflexivity | intros _; now left].
      + rewrite nth_insert_ne by congruence.
        rewrite elem_of_cons. rewrite (Hlive x). unfold live.
        intuition congruence.
    - intros x Hx. rewrite Hid8. destruct (Hp7 x) as (_ & _ & ->).
      apply elem_of_cons in Hx as [-> | Hx].
      + rewrite Hw0. reflexivity.
      + rewrite Hoth; [now apply Hid|]. intros ->. contradiction. }
  apply (zrep_links_eq s8); [|assumption].
  clearbody s8. clear - s8.
  destruct (flag_set flgs WF_VISIBLE), (activeWindow s8); links_chain.
Qed.

(** ** Z-order: from the representation to the walks *)

Lemma nth_replicate_same {A} (n i : nat) (d : A) : nth i (replicate n d) d = d.
Proof.
  revert i; induction n as [|n IH]; intros [|i]; simpl; auto.
Qed.

Lemma zrep_Init : zrep WM_Init [].
Proof.
  split; [|split; [reflexivity|split]].
  - split; [reflexivity|]. split; [apply NoDup_nil; exact I|].
    split; [intros w Hw; now apply elem_of_nil in Hw|].
    split.
    { intros w _. unfold win_at. cbn [pool WM_Init].
      rewrite nth_replicate_same. split; reflexivity. }
    repeat split.
  - intros w. rewrite elem_of_nil. unfold live. cbn [poolUsed WM_Init].
    rewrite nth_replicate_same. rewrite andb_false_r.
    split; [contradiction | discriminate].
  - intros w Hw. now apply elem_of_nil in Hw.
Qed.

Lemma walk_below_seg s l : forall p fuel,
  seg s p l None -> (length l <= fuel)%nat ->
  walk_below s (head l) fuel = Some l.
Proof.
  induction l as [|w r IH]; intros p fuel Hs Hf.
  - destruct fuel; reflexivity.
  - cbn [seg] in Hs. destruct Hs as (_ & Hb & Hr).
    destruct fuel as [|fuel]; [cbn in Hf; lia|].
    cbn [head walk_below]. rewrite Hb, hd_or_None.
    rewrite (IH (Some w) fuel); [reflexivity | assumption | cbn in Hf; lia].
Qed.

Lemma walk_above_seg s l : forall n fuel,
  seg s None l n -> (length l <= fuel)%nat ->
  walk_above s (last l) fuel = Some (rev l).
Proof.
  induction l as [|w r IH] using rev_ind; intros n fuel Hs Hf.
  - destruct fuel; reflexivity.
  - apply seg_app in Hs. destruct Hs as [Hs1 Hs2].
    cbn [seg] in Hs2. destruct Hs2 as (Ha & _ & _).
    rewrite last_or_None in Ha.
    rewrite length_app in Hf. cbn in Hf.
    destruct fuel as [|fuel]; [lia|].
    rewrite last_snoc, rev_unit. cbn [walk_above]. rewrite Ha.
    rewrite (IH (hd_or n [w]) fuel); [reflexivity | assumption | lia].
Qed.

Lemma zlinks_length s l : zlinks s l -> (length l <= WM_MAX_WINDOWS)%nat.
Proof.
  intros (_ & Hnd & Hbound & _).
  assert (l ⊆+ seq 0 WM_MAX_WINDOWS) as Hsub.
  { apply NoDup_submseteq; [assumption|].
    intros x Hx. apply elem_of_seq. specialize (Hbound x Hx). lia. }
  apply submseteq_length in Hsub. now rewrite length_seq in Hsub.
Qed.

Lemma seg_neighbours s l1 b a l2 p n :
  seg s p (l1 ++ b :: a :: l2) n ->
  below (win_at s b) = Some a /\ above (win_at s a) = Some b.
Proof.
  intros Hs. apply seg_app in Hs. destruct Hs as [_ Hs].
  cbn [seg hd_or] in Hs. tauto.
Qed.

Lemma zlinks_above_below s l a b :
  zlinks s l -> above (win_at s a) = Some b -> below (win_at s b) = Some a.
Proof.
  intros (_ & Hnd & _ & Hout & _ & _ & Hseg) Hab.
  destruct (decide (a ∈ l)) as [Hin|Hout'].
  2:{ destruct (Hout a Hout') as [E _]. congruence. }
  apply list_elem_of_split in Hin. destruct Hin as (l1 & l2 & ->).
  pose proof Hseg as Hseg'.
  apply seg_app in Hseg'. destruct Hseg' as [_ Hs2].
  cbn [seg] in Hs2. destruct Hs2 as (Ha & _).
  rewrite last_or_None, Hab in Ha. symmetry in Ha.
  apply last_Some in Ha. destruct Ha as (l1' & ->).
  rewrite <- app_assoc in Hseg. cbn [app] in Hseg.
  now apply seg_neighbours in Hseg.
Qed.

Lemma zlinks_below_above s l a b :
  zlinks s l -> below (win_at s a) = Some b -> above (win_at s b) = Some a.
Proof.
  intros (_ & Hnd & _ & Hout & _ & _ & Hseg) Hab.
  destruct (decide (a ∈ l)) as [Hin|Hout'].
  2:{ destruct (Hout a Hout') as [_ E]. congruence. }
  apply list_elem_of_split in Hin. destruct Hin as (l1 & l2 & ->).
  pose proof Hseg as Hseg'.
  apply seg_app in Hseg'. destruct Hseg' as [_ Hs2].
  cbn [seg] in Hs2. destruct Hs2 as (_ & Hb & _).
  rewrite hd_or_None, Hab in Hb. symmetry in Hb.
  apply head_Some in Hb. destruct Hb as (l2' & ->).
  now apply seg_neighbours in Hseg.
Qed.

Lemma zrep_consistent s l : zrep s l -> zorder_consistent s.
Proof.
  intros (Hz & _ & Hlive & _).
  split; [intros a b; now apply (zlinks_above_below s l)|].
  split; [intros a b; now apply (zlinks_below_above s l)|].
  exists l. pose proof (zlinks_length s l Hz) as Hlen.
  destruct Hz as (_ & Hnd & _ & _ & Htop & Hbot & Hseg).
  rewrite Htop, Hbot.
  split; [now apply (walk_below_seg s l None)|].
  split; [now apply (walk_above_seg s l None)|].
  repeat split; auto; apply Hlive.
Qed.

Lemma zops_run_zrep ops : forall s l s',
  zrep s l -> zops_run ops s = Some s' -> exists l', zrep s' l'.
Proof.
  induction ops as [|o ops IH]; intros s l s' Hrep Hrun; cbn [zops_run] in Hrun.
  - injection Hrun as <-. now exists l.
  - destruct (zop_ok o s) eqn:Hok; [|discriminate].
    assert (exists l1, zrep (zop_apply o s) l1) as [l1 H1].
    { destruct o; cbn [zop_apply zop_ok] in Hok |- *.
      - now apply (NewWindow_zrep s l).
      - now apply (Dispose_zrep s l).
      - now apply (Select_zrep s l).
      - now apply (SendToBack_zrep s l). }
    exact (IH (zop_apply o s) l1 s' H1 Hrun).
Qed.

(** C2: after any sequence of [WM_NewWindow], [WM_DisposeWindow],
    [WM_SelectWindow] and [WM_SendToBack] calls on live windows, started
    from [WM_Init], the links are mutually consistent, the walk from
    [topWindow] along [below] ends within 16 steps and visits the live
    windows once each, ending at [bottomWindow], and the walk from
    [bottomWindow] along [above] visits the same windows in reverse
    order; with no live window both ends are null. *)
Theorem zorder_consistency ops s :
  zops_run ops WM_Init = Some s -> zorder_consistent s.
Proof.
  intros Hrun.
  destruct (zops_run_zrep ops WM_Init [] s zrep_Init Hrun) as [l Hl].
  now apply (zrep_consistent s l).
Qed.

Lemma zorder_consistency_witness :
  zops_run z_example_ops WM_Init = Some z_example_state
  /\ zorder_consistent z_example_state.
Proof.
  assert (zops_run z_example_ops WM_Init = Some z_example_state) as E
    by (vm_compute; reflexivity).
  split; [exact E | exact (zorder_consistency _ _ E)].
Defined.

(** * Window manager: further properties *)

(** ** Rectangles *)

Ltac rect_bools :=
  repeat match goal with
         | H : _ && _ = true |- _ => apply andb_true_iff in H; destruct H
         | H : (_ <=? _) = true |- _ => apply Z.leb_le in H
         | H : (_ <? _) = true |- _ => apply Z.ltb_lt in H
         | |- _ && _ = true => apply andb_true_iff; split
         | |- (_ <=? _) = true => apply Z.leb_le
         | |- (_ <? _) = true => apply Z.ltb_lt
         end.

Ltac rect_cases :=
  repeat match goal with
         | |- context [if ?a <? ?b then _ else _] =>
             destruct (Z.ltb_spec a b)
         | H : context [if ?a <? ?b then _ else _] |- _ =>
             destruct (Z.ltb_spec a b)
         end.

Lemma clip_inside_screen r :
  rect_nonempty (rect_clip_to_screen r) = true ->
  rect_inside (rect_clip_to_screen r) screen_rect = true.
Proof.
  destruct r as [t l b rr].
  unfold rect_clip_to_screen, rect_inside, rect_nonempty, screen_rect,
    WM_SCREEN_W, WM_SCREEN_H.
  cbn [top left bottom right]. intros H.
  rect_bools; cbn [top left bottom right] in *; rect_cases; lia.
Qed.

(** X1.  [rect_clip_to_screen] cuts a rectangle to the 320x224 screen:
    clipping twice is clipping once, a rectangle inside the screen is
    returned as it is, and a result that is not empty lies inside the
    screen and inside the argument. *)
Theorem clip_to_screen_intersection r :
  rect_clip_to_screen (rect_clip_to_screen r) = rect_clip_to_screen r
  /\ (rect_inside r screen_rect = true -> rect_clip_to_screen r = r)
  /\ (rect_nonempty (rect_clip_to_screen r) = true ->
      rect_inside (rect_clip_to_screen r) screen_rect = true
      /\ rect_inside (rect_clip_to_screen r) r = true).
Proof.
  destruct r as [t l b rr].
  unfold rect_clip_to_screen, rect_inside, rect_nonempty, screen_rect,
    WM_SCREEN_W, WM_SCREEN_H.
  cbn [top left bottom right]. split; [|split].
  - rect_cases; f_equal; lia.
  - intros H. rect_bools. cbn [top left bottom right] in *.
    rect_cases; f_equal; lia.
  - intros H. rect_bools; cbn [top left bottom right] in *;
      rect_cases; lia.
Qed.

Lemma clip_to_screen_intersection_witness :
  rect_clip_to_screen (mkRect (-5) 300 40 400) = mkRect 0 300 40 320
  /\ rect_inside (rect_clip_to_screen (mkRect (-5) 300 40 400)) screen_rect
     = true.
Proof.
  split; [reflexivity|].
  apply (proj2 (proj2 (clip_to_screen_intersection (mkRect (-5) 300 40 400)))).
  reflexivity.
Defined.

Lemma rect_union_covers_l a b : rect_inside a (rect_union a b) = true.
Proof.
  destruct a as [ta la ba ra], b as [tb lb bb rb].
  unfold rect_union, rect_inside. cbn [top left bottom right].
  rect_bools; rect_cases; lia.
Qed.

Lemma rect_union_covers_r a b : rect_inside b (rect_union a b) = true.
Proof.
  destruct a as [ta la ba ra], b as [tb lb bb rb].
  unfold rect_union, rect_inside. cbn [top left bottom right].
  rect_bools; rect_cases; lia.
Qed.

(** X2.  [rect_union] is the least rectangle that covers both arguments: it
    covers each of them, any rectangle that covers both covers it, and
    the order of the arguments does not matter. *)
Theorem rect_union_least a b :
  rect_inside a (rect_union a b) = true
  /\ rect_inside b (rect_union a b) = true
  /\ rect_union a b = rect_union b a
  /\ (forall c, rect_inside a c = true -> rect_inside b c = true ->
                rect_inside (rect_union a b) c = true).
Proof.
  destruct a as [ta la ba ra], b as [tb lb bb rb].
  unfold rect_union, rect_inside. cbn [top left bottom right].
  split; [|split; [|split]].
  - rect_bools; rect_cases; lia.
  - rect_bools; rect_cases; lia.
  - rect_cases; f_equal; lia.
  - intros [tc lc bc rc] Ha Hb. cbn [top left bottom right] in *.
    rect_bools; rect_cases; lia.
Qed.

Lemma rect_union_least_witness :
  rect_inside (rect_union (mkRect 0 0 10 10) (mkRect 5 20 30 40))
    (mkRect 0 0 100 100) = true.
Proof.
  apply (proj2 (proj2 (proj2
           (rect_union_least (mkRect 0 0 10 10) (mkRect 5 20 30 40)))));
    reflexivity.
Defined.

(** ** The dirty accumulator *)

Lemma rect_inside_refl r : rect_inside r r = true.
Proof. unfold rect_inside. rect_bools; lia. Qed.

Lemma dirty_merge_some rs c : forall n i rs',
  dirty_merge rs c i n = Some rs' ->
  exists k, (i <= k < i + n)%nat
    /\ rs' = <[k := mkDirty (rect_union (rect (nth k rs zero_dirty)) c)
                     (valid (nth k rs zero_dirty))]> rs.
Proof.
  induction n as [|n IH]; intros i rs' H; cbn [dirty_merge] in H;
    [discriminate|].
  destruct (negb (valid (nth i rs zero_dirty) =? 0)
            && rect_intersects (rect (nth i rs zero_dirty)) c).
  - injection H as <-. exists i. split; [lia | reflexivity].
  - destruct (IH _ _ H) as (k & Hk & ->). exists k. split; [lia | reflexivity].
Qed.

Lemma wm_wf_dirty s : wm_wf s = true -> length (dirtyRects s) = 32%nat.
Proof.
  unfold wm_wf. rewrite !andb_true_iff. intros [[_ H] _].
  now apply Nat.eqb_eq in H.
Qed.

Lemma InvalidateRect_facts s r :
  wm_wf s = true -> 0 <= dirtyCount s <= 32 ->
  0 <= dirtyCount (WM_InvalidateRect (Some r) s) <= 32
  /\ wm_wf (WM_InvalidateRect (Some r) s) = true
  /\ dirty_grows s (WM_InvalidateRect (Some r) s)
  /\ (rect_nonempty (rect_clip_to_screen r) = true ->
      dirty_covers (WM_InvalidateRect (Some r) s) (rect_clip_to_screen r)).
Proof.
  intros Hwf Hc. pose proof (wm_wf_dirty s Hwf) as Hl.
  assert (forall rs, length rs = 32%nat -> wm_wf (set_dirtyRects rs s) = true)
    as Hwf'.
  { intros rs Hrs. unfold wm_wf in *. cbn [pool poolUsed dirtyRects
      set_dirtyRects]. rewrite !andb_true_iff in *.
    destruct Hwf as [[[H1 H2] _] H4]. repeat split; auto.
    now apply Nat.eqb_eq. }
  assert (dirty_grows s s) as Hrefl.
  { intros i Hi. split; [assumption | apply rect_inside_refl]. }
  unfold WM_InvalidateRect, dirty_grows, dirty_covers in *.
  destruct ((right (rect_clip_to_screen r) <=? left (rect_clip_to_screen r))
            || (bottom (rect_clip_to_screen r) <=? top (rect_clip_to_screen r)))
    eqn:Hempty.
  { split; [assumption|]. split; [assumption|]. split; [assumption|].
    intros Hne. rewrite (nonempty_not_empty _ Hne) in Hempty. discriminate. }
  set (c := rect_clip_to_screen r) in *.
  destruct (dirty_merge (dirtyRects s) c 0 (Z.to_nat (dirtyCount s)))
    as [rs|] eqn:Hm.
  - (* merged into a pending entry *)
    destruct (dirty_merge_some _ _ _ _ _ Hm) as (k & Hk & ->).
    cbn [dirtyCount dirtyRects set_dirtyRects].
    assert (k < length (dirtyRects s))%nat as Hkl by lia.
    split; [assumption|].
    split; [apply Hwf'; now rewrite length_insert|].
    split.
    + intros i Hi. split; [assumption|].
      destruct (Nat.eq_dec i k) as [-> | Hne].
      * rewrite nth_insert_eq by assumption. cbn [rect].
        apply rect_union_covers_l.
      * rewrite nth_insert_ne by congruence. apply rect_inside_refl.
    + intros _. exists k. split; [lia|].
      rewrite nth_insert_eq by assumption. cbn [rect].
      apply rect_union_covers_r.
  - destruct (dirtyCount s <? Z.of_nat WM_MAX_DIRTY_RECTS) eqn:Hlt.
    + (* appended *)
      apply Z.ltb_lt in Hlt. unfold WM_MAX_DIRTY_RECTS in Hlt.
      cbn [dirtyCount dirtyRects set_dirtyRects set_dirtyCount].
      assert (to_u8 (dirtyCount s + 1) = dirtyCount s + 1) as ->
        by (unfold to_u8; apply Z.mod_small; lia).
      split; [lia|].
      split.
      { specialize (Hwf' (<[Z.to_nat (dirtyCount s) := mkDirty c 1]>
                            (dirtyRects s))).
        rewrite length_insert in Hwf'. specialize (Hwf' Hl).
        unfold wm_wf in *. exact Hwf'. }
      split.
      * intros i Hi. split; [lia|].
        rewrite nth_insert_ne by lia. apply rect_inside_refl.
      * intros _. exists (Z.to_nat (dirtyCount s)). split; [lia|].
        rewrite nth_insert_eq by lia. apply rect_inside_refl.
    + (* full: folded into entry 0 *)
      apply Z.ltb_ge in Hlt. unfold WM_MAX_DIRTY_RECTS in Hlt.
      cbn [dirtyCount dirtyRects set_dirtyRects].
      split; [assumption|].
      split; [apply Hwf'; now rewrite length_insert|].
      split.
      * intros i Hi. split; [assumption|].
        destruct (Nat.eq_dec i 0%nat) as [-> | Hne].
        -- rewrite nth_insert_eq by lia. cbn [rect].
           apply rect_union_covers_l.
        -- rewrite nth_insert_ne by congruence. apply rect_inside_refl.
      * intros _. exists 0%nat. split; [lia|].
        rewrite nth_insert_eq by lia. cbn [rect].
        apply rect_union_covers_r.
Qed.

(** X3.  [WM_InvalidateRect] never forgets and never overflows.  On a window
    manager with at most 32 pending entries: the count stays within
    0..32 and the array keeps its 32 slots, every entry that was pending
    is still pending and covers at least what it covered, and the
    rectangle just invalidated, cut to the screen, is covered by a
    pending entry unless it is empty (also when the accumulator is full
    and the rectangle is folded into entry 0). *)
Theorem InvalidateRect_keeps_dirt s r :
  wm_wf s = true -> 0 <= dirtyCount s <= 32 ->
  0 <= dirtyCount (WM_InvalidateRect (Some r) s) <= 32
  /\ wm_wf (WM_InvalidateRect (Some r) s) = true
  /\ dirty_grows s (WM_InvalidateRect (Some r) s)
  /\ (rect_nonempty (rect_clip_to_screen r) = true ->
      dirty_covers (WM_InvalidateRect (Some r) s) (rect_clip_to_screen r)).
Proof. exact (InvalidateRect_facts s r). Qed.

Lemma InvalidateRect_keeps_dirt_witness :
  dirtyCount full_dirty = 32
  /\ dirtyCount (WM_InvalidateRect (Some (mkRect 100 0 110 5)) full_dirty) = 32
  /\ dirty_covers (WM_InvalidateRect (Some (mkRect 100 0 110 5)) full_dirty)
       (rect_clip_to_screen (mkRect 100 0 110 5)).
Proof.
  split; [reflexivity|]. split; [reflexivity|].
  apply (proj2 (proj2 (proj2
           (InvalidateRect_keeps_dirt full_dirty (mkRect 100 0 110 5)
              eq_refl ltac:(vm_compute; split; discriminate))))).
  reflexivity.
Defined.

Lemma length_EndUpdate s :
  length (dirtyRects s) = 32%nat ->
  length (dirtyRects (WM_EndUpdate s)) = 32%nat.
Proof.
  intros H. unfold WM_EndUpdate. cbn [dirtyRects set_menuBarDirty
    set_dirtyCount set_dirtyRects].
  rewrite length_app, length_map, length_take, length_drop.
  unfold WM_MAX_DIRTY_RECTS. lia.
Qed.

(** X4.  [WM_EndUpdate] ends the update cycle: whatever was pending,
    [WM_BeginUpdate] then returns 0, [WM_GetDirtyRect] returns null for
    every index, no slot is marked valid, the windows and the z-order are
    untouched, and the next invalidation of a rectangle that is not
    empty on the screen is the only pending entry. *)
Theorem EndUpdate_clears s :
  wm_wf s = true ->
  WM_BeginUpdate (WM_EndUpdate s) = 0
  /\ (forall i, 0 <= i -> WM_GetDirtyRect i (WM_EndUpdate s) = None)
  /\ (forall i, valid (nth i (dirtyRects (WM_EndUpdate s)) zero_dirty) = 0)
  /\ pool (WM_EndUpdate s) = pool s
  /\ topWindow (WM_EndUpdate s) = topWindow s
  /\ bottomWindow (WM_EndUpdate s) = bottomWindow s
  /\ (forall r, rect_nonempty (rect_clip_to_screen r) = true ->
        dirty_entries (WM_InvalidateRect (Some r) (WM_EndUpdate s))
        = [mkDirty (rect_clip_to_screen r) 1]).
Proof.
  intros Hwf. pose proof (wm_wf_dirty s Hwf) as Hl.
  split; [reflexivity|]. split.
  { intros i Hi. unfold WM_GetDirtyRect. cbn [dirtyCount WM_EndUpdate
      set_menuBarDirty set_dirtyCount].
    now rewrite (ltb_false i 0). }
  split.
  { intros i. unfold WM_EndUpdate. cbn [dirtyRects set_menuBarDirty
      set_dirtyCount set_dirtyRects].
    rewrite firstn_all2 by (unfold WM_MAX_DIRTY_RECTS; fold (length (dirtyRects s)); lia).
    rewrite skipn_all2 by (unfold WM_MAX_DIRTY_RECTS; fold (length (dirtyRects s)); lia).
    rewrite app_nil_r.
    destruct (Nat.lt_ge_cases i (length (dirtyRects s))) as [Hlt|Hge].
    - rewrite (nth_indep _ zero_dirty (mkDirty (rect zero_dirty) 0))
        by (rewrite length_map; exact Hlt).
      now rewrite (map_nth (fun d => mkDirty (rect d) 0)).
    - rewrite nth_overflow by (rewrite length_map; exact Hge). reflexivity. }
  split; [reflexivity|]. split; [reflexivity|]. split; [reflexivity|].
  intros r Hne.
  destruct (Invalidate_first (WM_EndUpdate s) r eq_refl Hne) as [Hc Hr].
  unfold dirty_entries. rewrite Hc, Hr.
  pose proof (length_EndUpdate s Hl) as Hl'.
  destruct (dirtyRects (WM_EndUpdate s)) as [|d0 rest]; [discriminate|].
  reflexivity.
Qed.

Lemma EndUpdate_clears_witness :
  dirtyCount full_dirty = 32
  /\ dirty_entries
       (WM_InvalidateRect (Some (mkRect 100 0 110 5)) (WM_EndUpdate full_dirty))
     = [mkDirty (mkRect 100 0 110 5) 1].
Proof.
  split; [reflexivity|].
  apply (proj2 (proj2 (proj2 (proj2 (proj2 (proj2
           (EndUpdate_clears full_dirty eq_refl))))))).
  reflexivity.
Defined.

(** ** The z-order list, call by call *)

Lemma windowCount_InvalidateRect r s :
  windowCount (WM_InvalidateRect r s) = windowCount s.
Proof.
  unfold WM_InvalidateRect. destruct r as [r|]; [|reflexivity].
  destruct (_ || _); [reflexivity|].
  destruct (dirty_merge _ _ _ _); [reflexivity|].
  now destruct (_ <? _).
Qed.

Lemma windowCount_InvalidateWindow w s :
  windowCount (WM_InvalidateWindow w s) = windowCount s.
Proof. destruct w; [apply windowCount_InvalidateRect | reflexivity]. Qed.

Lemma windowCount_unlink w s : windowCount (zorder_unlink w s) = windowCount s.
Proof.
  unfold zorder_unlink. cbv zeta.
  destruct (above (win_at s w));
    match goal with
    | |- context [match below ?x with _ => _ end] => destruct (below x)
    end; reflexivity.
Qed.

Lemma windowCount_push_top w s :
  windowCount (zorder_push_top w s) = windowCount s.
Proof.
  unfold zorder_push_top. cbv zeta.
  match goal with
  | |- context [match topWindow ?x with _ => _ end] => destruct (topWindow x)
  end;
  match goal with
  | |- context [match bottomWindow ?x with _ => _ end] =>
      destruct (bottomWindow x)
  end; reflexivity.
Qed.

Lemma Dispose_exact s l1 w l2 :
  zrep s (l1 ++ w :: l2) ->
  zrep (WM_DisposeWindow (Some w) s) (l1 ++ l2)
  /\ windowCount (WM_DisposeWindow (Some w) s) = to_u8 (windowCount s - 1)
  /\ activeWindow (WM_DisposeWindow (Some w) s)
     = (if ptr_eqb (activeWindow s) (Some w) then head (l1 ++ l2)
        else activeWindow s)
  /\ poolUsed (WM_DisposeWindow (Some w) s) = <[w := 0]> (poolUsed s).
Proof.
  intros Hrep. unfold WM_DisposeWindow.
  set (s1 := WM_InvalidateRect (Some (frame (win_at s w))) s).
  assert (zrep s1 (l1 ++ w :: l2)) as Hrep1
    by (apply (zrep_links_eq s); [apply links_eq_InvalidateRect | assumption]).
  assert (windowCount s1 = windowCount s) as Hwc1
    by apply windowCount_InvalidateRect.
  assert (activeWindow s1 = activeWindow s) as Hac1
    by apply InvalidateRect_fields.
  assert (poolUsed s1 = poolUsed s) as Hpu1 by apply InvalidateRect_fields.
  destruct Hrep1 as (Hz1 & Hlu1 & Hlive1 & Hid1).
  pose proof Hz1 as (_ & Hnd & _).
  destruct (unlink_zlinks s1 l1 w l2 Hz1) as (Hz2 & Hpu2 & Hact2 & Hid2).
  pose proof (windowCount_unlink w s1) as Hwc2.
  cbv zeta. set (s2 := zorder_unlink w s1) in *.
  set (s3 := if ptr_eqb (activeWindow s2) (Some w)
             then match activeWindow (set_activeWindow (topWindow s2) s2) with
                  | Some a =>
                      upd_win a (or_flag WF_HILITED)
                        (set_activeWindow (topWindow s2) s2)
                  | None => set_activeWindow (topWindow s2) s2
                  end
             else s2).
  assert (links_eq s2 s3) as H23.
  { subst s3. destruct (ptr_eqb _ _); [|apply links_eq_refl].
    destruct (activeWindow (set_activeWindow (topWindow s2) s2)).
    - apply (links_eq_trans _ (set_activeWindow (topWindow s2) s2));
        [apply links_eq_set_activeWindow | apply links_eq_or_flag].
    - apply links_eq_set_activeWindow. }
  assert (windowCount s3 = windowCount s2) as Hwc3.
  { subst s3. destruct (ptr_eqb _ _); [|reflexivity].
    now destruct (activeWindow (set_activeWindow (topWindow s2) s2)). }
  assert (activeWindow s3
          = if ptr_eqb (activeWindow s) (Some w) then head (l1 ++ l2)
            else activeWindow s) as Hac3.
  { subst s3. rewrite Hact2, Hac1.
    destruct (ptr_eqb (activeWindow s) (Some w)); [|congruence].
    destruct Hz2 as (_ & _ & _ & _ & Ht2 & _).
    cbn [activeWindow set_activeWindow]. rewrite Ht2.
    now destruct (head (l1 ++ l2)). }
  pose proof H23 as (B1 & B2 & B3 & B4 & B5).
  assert (w ∈ l1 ++ w :: l2) as Hwl by (apply elem_of_app; right; now left).
  assert (id (win_at s3 w) = Z.of_nat w) as Hidw.
  { destruct (B5 w) as (_ & _ & ->). rewrite Hid2. now apply Hid1. }
  assert (w < WM_MAX_WINDOWS)%nat as Hw16.
  { destruct Hz1 as (_ & _ & Hb & _). now apply Hb. }
  unfold pool_free. rewrite Hidw.
  rewrite (ltb_true (Z.of_nat w) (Z.of_nat WM_MAX_WINDOWS)) by lia.
  rewrite Nat2Z.id. cbv zeta.
  apply NoDup_app in Hnd as (Hnd1 & Hdisj & Hnd2).
  apply NoDup_cons in Hnd2 as [Hw2 Hnd2].
  assert (w ∉ l1) as Hw1 by (intros Hx; apply (Hdisj w Hx); now left).
  split; [|split; [|split]].
  - split; [|split; [|split]].
    + apply (zlinks_ext s3); try reflexivity; [intros x; split; reflexivity|].
      apply (zlinks_links_eq s2); assumption.
    + cbn. rewrite length_insert, B4, Hpu2. exact Hlu1.
    + intros x. unfold live. cbn [poolUsed set_windowCount set_poolUsed].
      rewrite B4, Hpu2.
      destruct (Nat.eq_dec x w) as [-> | Hne].
      * rewrite nth_insert_eq by (rewrite Hlu1; exact Hw16).
        rewrite andb_false_r. split; [|discriminate].
        intros Hx. apply elem_of_app in Hx as [Hx|Hx]; contradiction.
      * rewrite nth_insert_ne by congruence.
        rewrite <- (Hlive1 x). unfold live.
        rewrite !elem_of_app, elem_of_cons. intuition congruence.
    + intros x Hx.
      change (id (win_at s3 x) = Z.of_nat x).
      destruct (B5 x) as (_ & _ & ->). rewrite Hid2. apply Hid1.
      apply elem_of_app in Hx as [Hx|Hx]; apply elem_of_app;
        [now left | right; now right].
  - cbn [windowCount set_windowCount set_poolUsed]. congruence.
  - exact Hac3.
  - cbn [poolUsed set_windowCount set_poolUsed]. congruence.
Qed.

Lemma ptr_eqb_eq p q : ptr_eqb p q = true <-> p = q.
Proof.
  destruct p as [a|], q as [b|]; cbn; split; try congruence; try discriminate.
  - intros H. apply Nat.eqb_eq in H. congruence.
  - intros [= ->]. apply Nat.eqb_refl.
Qed.

Lemma Select_exact s l1 w l2 :
  zrep s (l1 ++ w :: l2) ->
  zrep (WM_SelectWindow (Some w) s) (w :: l1 ++ l2)
  /\ windowCount (WM_SelectWindow (Some w) s) = windowCount s
  /\ activeWindow (WM_SelectWindow (Some w) s)
     = (if ptr_eqb (Some w) (topWindow s) then activeWindow s else Some w)
  /\ poolUsed (WM_SelectWindow (Some w) s) = poolUsed s.
Proof.
  intros Hrep. unfold WM_SelectWindow.
  pose proof Hrep as (Hz & _).
  pose proof Hz as (_ & Hnd & Hbound & _ & Htop & _).
  apply NoDup_app in Hnd as (Hnd1 & Hdisj & Hnd2).
  apply NoDup_cons in Hnd2 as [Hw2 Hnd2].
  assert (w ∉ l1) as Hw1 by (intros Hx; apply (Hdisj w Hx); now left).
  destruct (ptr_eqb (Some w) (topWindow s)) eqn:Hp.
  { apply ptr_eqb_eq in Hp. rewrite Htop in Hp.
    destruct l1 as [|a l1'].
    - split; [exact Hrep | repeat split].
    - cbn in Hp. injection Hp as <-. exfalso. apply Hw1. now left. }
  cbv zeta.
  set (s1 := match activeWindow s with
             | Some a =>
                 WM_InvalidateWindow (Some a)
                   (upd_win a (clear_flag WF_HILITED) s)
             | None => s
             end).
  assert (links_eq s s1) as H01.
  { subst s1. destruct (activeWindow s); [|apply links_eq_refl].
    eapply links_eq_trans;
      [apply links_eq_clear_flag | apply links_eq_InvalidateWindow]. }
  assert (windowCount s1 = windowCount s) as Hwc1.
  { subst s1. destruct (activeWindow s); [|reflexivity].
    now rewrite windowCount_InvalidateWindow. }
  assert (zrep s1 (l1 ++ w :: l2)) as Hrep1 by (now apply (zrep_links_eq s)).
  pose proof Hrep1 as (Hz1 & _).
  destruct (unlink_zlinks s1 l1 w l2 Hz1) as (Hz2 & Hpu2 & _ & Hid2).
  assert (w ∉ l1 ++ l2) as Hw by (now apply not_elem_of_app).
  assert (w < WM_MAX_WINDOWS)%nat as Hw16
    by (apply Hbound; apply elem_of_app; right; now left).
  destruct (push_top_zlinks (zorder_unlink w s1) (l1 ++ l2) w Hz2 Hw Hw16)
    as (Hz3 & Hpu3 & _ & Hid3).
  pose proof (windowCount_push_top w (zorder_unlink w s1)) as Hwc3.
  rewrite windowCount_unlink in Hwc3.
  set (sp := zorder_push_top w (zorder_unlink w s1)) in *.
  assert (zrep sp (w :: l1 ++ l2)) as Hrep3.
  { apply (zrep_relink s1 sp (l1 ++ w :: l2)); auto.
    - congruence.
    - intros x. now rewrite Hid3, Hid2.
    - intros x. rewrite elem_of_cons, !elem_of_app, elem_of_cons. tauto. }
  pose proof H01 as (_ & _ & _ & Hpu01 & _).
  clearbody sp s1.
  split; [|split; [|split]].
  - apply (zrep_links_eq sp); [|assumption].
    eapply links_eq_trans; [apply links_eq_set_activeWindow|].
    eapply links_eq_trans;
      [apply links_eq_or_flag | apply links_eq_InvalidateWindow].
  - rewrite windowCount_InvalidateWindow.
    cbn [windowCount upd_win set_pool set_activeWindow]. congruence.
  - rewrite activeWindow_InvalidateWindow. reflexivity.
  - unfold WM_InvalidateWindow.
    match goal with
    | |- poolUsed (WM_InvalidateRect ?r ?x) = _ =>
        rewrite (proj1 (proj2 (InvalidateRect_fields r x)))
    end.
    cbn [poolUsed upd_win set_pool set_activeWindow]. congruence.
Qed.

Lemma SendToBack_exact s l1 w l2 :
  zrep s (l1 ++ w :: l2) ->
  zrep (WM_SendToBack (Some w) s) ((l1 ++ l2) ++ [w])
  /\ windowCount (WM_SendToBack (Some w) s) = windowCount s
  /\ activeWindow (WM_SendToBack (Some w) s) = activeWindow s
  /\ poolUsed (WM_SendToBack (Some w) s) = poolUsed s.
Proof.
  intros Hrep. unfold WM_SendToBack.
  pose proof Hrep as (Hz1 & _).
  pose proof Hz1 as (_ & Hnd & Hbound & _ & _ & Hbot & _).
  apply NoDup_app in Hnd as (Hnd1 & Hdisj & Hnd2).
  apply NoDup_cons in Hnd2 as [Hw2 Hnd2].
  assert (w ∉ l1) as Hw1 by (intros Hx; apply (Hdisj w Hx); now left).
  destruct (ptr_eqb (Some w) (bottomWindow s)) eqn:Hp.
  { apply ptr_eqb_eq in Hp. rewrite Hbot in Hp.
    assert (l2 = []) as ->.
    { destruct l2 as [|b l2'] using rev_ind; [reflexivity|].
      rewrite app_comm_cons, app_assoc, last_snoc in Hp.
      injection Hp as <-. exfalso. apply Hw2.
      apply elem_of_app. right. now left. }
    rewrite app_nil_r. split; [exact Hrep | repeat split]. }
  destruct (unlink_zlinks s l1 w l2 Hz1) as (Hz2 & Hpu2 & Hac2 & Hid2).
  assert (w ∉ l1 ++ l2) as Hw by (now apply not_elem_of_app).
  assert (w < WM_MAX_WINDOWS)%nat as Hw16
    by (apply Hbound; apply elem_of_app; right; now left).
  pose proof (push_bottom_zlinks (zorder_unlink w s) (l1 ++ l2) w Hz2 Hw Hw16)
    as Hpb.
  pose proof (windowCount_unlink w s) as Hwc2.
  cbv zeta in Hpb |- *. destruct Hpb as (Hz3 & Hpu3 & Hac3 & Hid3).
  match goal with
  | |- zrep (WM_InvalidateRect _ ?sb) _ /\ _ => set (s6 := sb) in *
  end.
  assert (windowCount s6 = windowCount s) as Hwc6.
  { rewrite <- Hwc2. subst s6.
    repeat match goal with
           | |- context [match ?o with Some _ => _ | None => _ end] =>
               destruct o
           end; reflexivity. }
  clearbody s6.
  split; [|split; [|split]].
  - apply (zrep_links_eq s6); [apply links_eq_InvalidateRect|].
    apply (zrep_relink s s6 (l1 ++ w :: l2)); auto.
    + congruence.
    + intros x. now rewrite Hid3, Hid2.
    + intros x. rewrite !elem_of_app, !elem_of_cons, elem_of_nil. tauto.
  - rewrite windowCount_InvalidateRect. exact Hwc6.
  - rewrite (proj2 (proj2 (proj2 (proj2 (InvalidateRect_fields _ s6))))).
    congruence.
  - rewrite (proj1 (proj2 (InvalidateRect_fields _ s6))). congruence.
Qed.

Lemma pool_scan_first used : forall n i k,
  pool_scan used i n = Some k ->
  forall j, (i <= j < k)%nat -> nth j used 0 <> 0.
Proof.
  induction n as [|n IH]; intros i k H j Hj; simpl in H; [discriminate|].
  destruct (nth i used 0 =? 0) eqn:E.
  - injection H as <-. lia.
  - destruct (Nat.eq_dec j i) as [-> | Hne].
    + now apply Z.eqb_neq.
    + apply (IH _ _ H). lia.
Qed.

Lemma pool_scan_none_all used : forall n i,
  pool_scan used i n = None ->
  forall j, (i <= j < i + n)%nat -> nth j used 0 <> 0.
Proof.
  induction n as [|n IH]; intros i H j Hj; simpl in H; [lia|].
  destruct (nth i used 0 =? 0) eqn:E; [discriminate|].
  destruct (Nat.eq_dec j i) as [-> | Hne].
  - now apply Z.eqb_neq.
  - apply (IH _ H). lia.
Qed.

Lemma pool_alloc_first s w s0 :
  pool_alloc s = (Some w, s0) ->
  first_free s w /\ windowCount s0 = to_u8 (windowCount s + 1).
Proof.
  unfold pool_alloc.
  destruct (pool_scan (poolUsed s) 0 WM_MAX_WINDOWS) as [i|] eqn:E;
    [|discriminate].
  intros [= <- <-]. split; [|reflexivity].
  pose proof (pool_scan_some _ _ _ _ E) as [Hi Hfree].
  pose proof (pool_scan_first _ _ _ _ E) as Hfirst.
  unfold first_free, live. split; [lia|]. split.
  - rewrite Hfree. cbn. apply andb_false_r.
  - intros j Hj.
    assert (j < WM_MAX_WINDOWS)%nat as Hj16 by lia.
    apply Nat.ltb_lt in Hj16. rewrite Hj16. cbn.
    apply negb_true_iff, Z.eqb_neq, Hfirst. lia.
Qed.

Lemma pool_alloc_none_live s :
  fst (pool_alloc s) = None ->
  forall j, (j < WM_MAX_WINDOWS)%nat -> live s j = true.
Proof.
  unfold pool_alloc.
  destruct (pool_scan (poolUsed s) 0 WM_MAX_WINDOWS) as [i|] eqn:E;
    [discriminate|].
  intros _ j Hj. unfold live.
  pose proof Hj as Hj'. apply Nat.ltb_lt in Hj'. rewrite Hj'. cbn.
  apply negb_true_iff, Z.eqb_neq. apply (pool_scan_none_all _ _ _ E). lia.
Qed.

Lemma NewWindow_exact s l bounds ttl sty flgs w s0 :
  zrep s l -> pool_alloc s = (Some w, s0) ->
  fst (WM_NewWindow bounds ttl sty flgs s) = Some w
  /\ zrep (snd (WM_NewWindow bounds ttl sty flgs s)) (w :: l)
  /\ windowCount (snd (WM_NewWindow bounds ttl sty flgs s))
     = to_u8 (windowCount s + 1)
  /\ activeWindow (snd (WM_NewWindow bounds ttl sty flgs s)) = Some w
  /\ poolUsed (snd (WM_NewWindow bounds ttl sty flgs s))
     = <[w := 1]> (poolUsed s).
Proof.
  intros Hrep E. unfold WM_NewWindow. rewrite E.
  pose proof (pool_alloc_first _ _ _ E) as [_ Hwc0].
  pose proof Hrep as (Hz & Hlu & Hlive & Hid).
  pose proof Hz as (Hlen & Hnd & Hbound & Hout & Htop & Hbot & Hseg).
  destruct (pool_alloc_some _ _ _ Hlen E)
    as (Hw16 & Hfree & Hl0 & Hw0 & Hoth & Ht0 & Hb0 & _ & Hpu0 & _).
  assert (w ∉ l) as Hw.
  { intros Hin. apply Hlive in Hin. unfold live in Hin.
    rewrite Hfree in Hin. rewrite andb_false_r in Hin. discriminate. }
  assert (zlinks s0 l) as Hz0.
  { apply (zlinks_ext s); auto; [congruence|].
    intros x. destruct (Nat.eq_dec x w) as [-> | Hne].
    - rewrite Hw0. destruct (Hout w Hw) as [-> ->]. split; reflexivity.
    - now rewrite (Hoth x Hne). }
  cbv zeta. cbn [fst snd].
  match goal with
  | |- context [zorder_push_top w ?sb] => set (s7 := sb)
  end.
  assert (links_eq s0 s7) as H07.
  { subst s7. destruct ttl, (sty =? WM_STYLE_DOCUMENT),
      ((sty =? WM_STYLE_DIALOG) || (sty =? WM_STYLE_ALERT)); links_chain. }
  assert (windowCount s7 = windowCount s0) as Hwc7.
  { subst s7. destruct ttl, (sty =? WM_STYLE_DOCUMENT),
      ((sty =? WM_STYLE_DIALOG) || (sty =? WM_STYLE_ALERT)); reflexivity. }
  assert (zlinks s7 l) as Hz7 by (now apply (zlinks_links_eq s0)).
  destruct (push_top_zlinks s7 l w Hz7 Hw Hw16) as (Hz8 & Hpu8 & _ & Hid8).
  pose proof (windowCount_push_top w s7) as Hwc8.
  set (s8 := zorder_push_top w s7) in *.
  pose proof H07 as (_ & _ & _ & Hpu7 & Hp7).
  assert (zrep s8 (w :: l)) as Hrep8.
  { split; [assumption|]. split; [|split].
    - rewrite Hpu8, Hpu7, Hpu0, length_insert. exact Hlu.
    - intros x. unfold live. rewrite Hpu8, Hpu7, Hpu0.
      destruct (Nat.eq_dec x w) as [-> | Hne].
      + rewrite nth_insert_eq by (rewrite Hlu; exact Hw16).
        apply Nat.ltb_lt in Hw16. rewrite Hw16. cbn.
        split; [reflexivity | intros _; now left].
      + rewrite nth_insert_ne by congruence.
        rewrite elem_of_cons. rewrite (Hlive x). unfold live.
        intuition congruence.
    - intros x Hx. rewrite Hid8. destruct (Hp7 x) as (_ & _ & ->).
      apply elem_of_cons in Hx as [-> | Hx].
      + rewrite Hw0. reflexivity.
      + rewrite Hoth; [now apply Hid|]. intros ->. contradiction. }
  assert (windowCount s8 = to_u8 (windowCount s + 1)) as Hwc by congruence.
  assert (poolUsed s8 = <[w := 1]> (poolUsed s)) as Hpu by congruence.
  clearbody s8. clear - Hrep8 Hwc Hpu.
  match goal with
  | |- _ /\ zrep ?sf _ /\ _ => assert (links_eq s8 sf) as Hle
  end.
  { clear.
    destruct (flag_set flgs WF_VISIBLE), (activeWindow s8); links_chain. }
  split; [reflexivity|]. split; [|split; [|split]].
  - now apply (zrep_links_eq s8).
  - rewrite <- Hwc.
    destruct (flag_set flgs WF_VISIBLE), (activeWindow s8);
      rewrite ?windowCount_InvalidateWindow; reflexivity.
  - destruct (flag_set flgs WF_VISIBLE), (activeWindow s8);
      rewrite ?activeWindow_InvalidateWindow; reflexivity.
  - destruct Hle as (_ & _ & _ & -> & _). exact Hpu.
Qed.

(** ** The invariant of the reachable states *)

Lemma zrep_z_list s l : zrep s l -> z_list s = Some l.
Proof.
  intros (Hz & _). pose proof (zlinks_length s l Hz) as Hlen.
  destruct Hz as (_ & _ & _ & _ & Htop & _ & Hseg).
  unfold z_list. rewrite Htop. now apply (walk_below_seg s l None).
Qed.

Lemma head_elem_of {A} (l : list A) a : head l = Some a -> a ∈ l.
Proof. destruct l; cbn; [discriminate|]. intros [= ->]. now left. Qed.

Lemma head_none_nil {A} (l : list A) : head l = None -> l = [].
Proof. now destruct l. Qed.

Lemma wm_inv_Init : wm_inv WM_Init [].
Proof. split; [apply zrep_Init|]. split; reflexivity. Qed.

Lemma wm_inv_Dispose s l1 w l2 :
  wm_inv s (l1 ++ w :: l2) -> wm_inv (WM_DisposeWindow (Some w) s) (l1 ++ l2).
Proof.
  intros (Hrep & Hc & Ha).
  pose proof Hrep as (Hz & _).
  pose proof (zlinks_length _ _ Hz) as Hlen.
  destruct Hz as (_ & Hnd & _).
  destruct (Dispose_exact s l1 w l2 Hrep) as (Hrep' & Hc' & Ha' & _).
  split; [assumption|]. split.
  - rewrite Hc', Hc, !length_app. rewrite length_app in Hlen.
    cbn [length] in *.
    unfold to_u8, WM_MAX_WINDOWS in *. rewrite Z.mod_small; lia.
  - rewrite Ha'. destruct (ptr_eqb (activeWindow s) (Some w)) eqn:Hp.
    + destruct (head (l1 ++ l2)) eqn:Hh.
      * now apply head_elem_of.
      * now apply head_none_nil.
    + destruct (activeWindow s) as [a|] eqn:Hact.
      * assert (a <> w) as Hne.
        { intros ->. cbn in Hp. now rewrite Nat.eqb_refl in Hp. }
        revert Ha. rewrite !elem_of_app, elem_of_cons. tauto.
      * destruct l1; discriminate Ha.
Qed.

Lemma wm_inv_Select s l1 w l2 :
  wm_inv s (l1 ++ w :: l2) -> wm_inv (WM_SelectWindow (Some w) s) (w :: l1 ++ l2).
Proof.
  intros (Hrep & Hc & Ha).
  destruct (Select_exact s l1 w l2 Hrep) as (Hrep' & Hc' & Ha' & _).
  split; [assumption|]. split.
  - rewrite Hc', Hc. rewrite !length_app. cbn [length].
    rewrite length_app. lia.
  - rewrite Ha'. destruct (ptr_eqb (Some w) (topWindow s)); [|now left].
    destruct (activeWindow s) as [a|].
    + revert Ha. rewrite elem_of_cons, !elem_of_app, elem_of_cons. tauto.
    + destruct l1; discriminate Ha.
Qed.

Lemma wm_inv_SendToBack s l1 w l2 :
  wm_inv s (l1 ++ w :: l2) ->
  wm_inv (WM_SendToBack (Some w) s) ((l1 ++ l2) ++ [w]).
Proof.
  intros (Hrep & Hc & Ha).
  destruct (SendToBack_exact s l1 w l2 Hrep) as (Hrep' & Hc' & Ha' & _).
  split; [assumption|]. split.
  - rewrite Hc', Hc. rewrite !length_app. cbn [length]. lia.
  - rewrite Ha'. destruct (activeWindow s) as [a|].
    + revert Ha. rewrite !elem_of_app, !elem_of_cons, elem_of_nil. tauto.
    + destruct l1; discriminate Ha.
Qed.

Lemma wm_inv_New s l bounds ttl sty flgs w s0 :
  wm_inv s l -> pool_alloc s = (Some w, s0) ->
  wm_inv (snd (WM_NewWindow bounds ttl sty flgs s)) (w :: l).
Proof.
  intros (Hrep & Hc & Ha) E.
  destruct (NewWindow_exact s l bounds ttl sty flgs w s0 Hrep E)
    as (_ & Hrep' & Hc' & Ha' & _).
  pose proof Hrep' as (Hz' & _).
  pose proof (zlinks_length _ _ Hz') as Hlen.
  split; [assumption|]. split.
  - rewrite Hc', Hc. cbn [length] in *.
    unfold to_u8, WM_MAX_WINDOWS in *. rewrite Z.mod_small; lia.
  - rewrite Ha'. now left.
Qed.

Lemma wm_inv_step o s l :
  wm_inv s l -> zop_ok o s = true -> exists l', wm_inv (zop_apply o s) l'.
Proof.
  intros Hinv Hok. pose proof Hinv as ((_ & _ & Hlive & _) & _).
  destruct o as [bounds ttl sty flgs | w | w | w]; cbn [zop_apply zop_ok] in *.
  - destruct (pool_alloc s) as [[w|] s0] eqn:E.
    + exists (w :: l). now apply (wm_inv_New s l bounds ttl sty flgs w s0).
    + exists l. unfold WM_NewWindow. rewrite E. cbn [snd].
      apply pool_alloc_none in E. now subst.
  - apply Hlive, list_elem_of_split in Hok as (l1 & l2 & ->).
    exists (l1 ++ l2). apply wm_inv_Dispose. exact Hinv.
  - apply Hlive, list_elem_of_split in Hok as (l1 & l2 & ->).
    exists (w :: l1 ++ l2). apply wm_inv_Select. exact Hinv.
  - apply Hlive, list_elem_of_split in Hok as (l1 & l2 & ->).
    exists ((l1 ++ l2) ++ [w]). apply wm_inv_SendToBack. exact Hinv.
Qed.

(** The calls that leave the z-order alone. *)

Lemma keeps_refl s : keeps s s.
Proof. split; [apply links_eq_refl | split; reflexivity]. Qed.

Lemma keeps_trans s1 s2 s3 : keeps s1 s2 -> keeps s2 s3 -> keeps s1 s3.
Proof.
  intros (L1 & C1 & A1) (L2 & C2 & A2).
  split; [now apply (links_eq_trans _ s2) | split; congruence].
Qed.

Lemma keeps_InvalidateRect r s : keeps s (WM_InvalidateRect r s).
Proof.
  split; [apply links_eq_InvalidateRect|].
  split; [apply windowCount_InvalidateRect | apply InvalidateRect_fields].
Qed.

Lemma keeps_InvalidateWindow w s : keeps s (WM_InvalidateWindow w s).
Proof.
  split; [apply links_eq_InvalidateWindow|].
  split; [apply windowCount_InvalidateWindow
         | apply activeWindow_InvalidateWindow].
Qed.

Lemma keeps_upd s j f :
  (forall W, above (f W) = above W /\ below (f W) = below W
             /\ id (f W) = id W) ->
  keeps s (upd_win j f s).
Proof.
  intros Hf. split; [|split; reflexivity].
  apply links_eq_upd; intros W; apply Hf.
Qed.

Ltac keeps_body :=
  intros W;
  first [ destruct W; repeat split; reflexivity
        | unfold compute_window_rects; destruct (_ || _); destruct W;
          repeat split; reflexivity ].

Lemma keeps_EndUpdate s : keeps s (WM_EndUpdate s).
Proof. repeat split. Qed.

Lemma keeps_Show w s : keeps s (WM_ShowWindow (Some w) s).
Proof.
  unfold WM_ShowWindow. destruct (flag_set _ _); [apply keeps_refl|].
  eapply keeps_trans; [|apply keeps_InvalidateWindow].
  apply keeps_upd. keeps_body.
Qed.

Lemma keeps_Hide w s : keeps s (WM_HideWindow (Some w) s).
Proof.
  unfold WM_HideWindow. destruct (negb _); [apply keeps_refl|]. cbv zeta.
  eapply keeps_trans; [|apply keeps_InvalidateRect].
  apply keeps_upd. keeps_body.
Qed.

Lemma keeps_Move w px py s : keeps s (WM_MoveWindow (Some w) px py s).
Proof.
  unfold WM_MoveWindow. cbv zeta.
  eapply keeps_trans; [|apply keeps_InvalidateWindow].
  eapply keeps_trans; [|apply keeps_InvalidateRect].
  eapply keeps_trans; [|apply keeps_upd; keeps_body].
  apply keeps_upd. keeps_body.
Qed.

Lemma keeps_Size w pw ph s : keeps s (WM_SizeWindow (Some w) pw ph s).
Proof.
  unfold WM_SizeWindow. cbv zeta.
  eapply keeps_trans; [|apply keeps_InvalidateWindow].
  eapply keeps_trans; [|apply keeps_InvalidateRect].
  eapply keeps_trans; [|apply keeps_upd; keeps_body].
  apply keeps_upd. keeps_body.
Qed.

Lemma keeps_SetTitle w ttl s : keeps s (WM_SetTitle (Some w) (Some ttl) s).
Proof.
  unfold WM_SetTitle. cbv zeta.
  eapply keeps_trans; [|apply keeps_InvalidateRect].
  apply keeps_upd. keeps_body.
Qed.

Lemma keeps_SetDesktopPattern p s : keeps s (WM_SetDesktopPattern p s).
Proof.
  unfold WM_SetDesktopPattern. destruct (negb _); [|apply keeps_refl].
  eapply keeps_trans; [|apply keeps_InvalidateRect]. repeat split.
Qed.

Lemma wm_inv_keeps s s' l : keeps s s' -> wm_inv s l -> wm_inv s' l.
Proof.
  intros (L & C & A) (Hrep & Hc & Ha).
  split; [now apply (zrep_links_eq s)|]. split; [congruence|].
  now rewrite A.
Qed.

Lemma call_keeps c s :
  match c with CallZ _ => True | _ => keeps s (call_apply c s) end.
Proof.
  destruct c; cbn [call_apply];
    [ exact I | apply keeps_Show | apply keeps_Hide | apply keeps_Move
    | apply keeps_Size | apply keeps_SetTitle | apply keeps_InvalidateRect
    | apply keeps_InvalidateWindow | apply keeps_EndUpdate
    | apply keeps_SetDesktopPattern ].
Qed.

Lemma wm_inv_call c s l :
  wm_inv s l -> call_ok c s = true -> exists l', wm_inv (call_apply c s) l'.
Proof.
  intros Hinv Hok. pose proof (call_keeps c s) as Hk.
  destruct c; try (exists l; now apply (wm_inv_keeps s)).
  now apply (wm_inv_step o s l).
Qed.

Lemma calls_run_inv cs : forall s l s',
  wm_inv s l -> calls_run cs s = Some s' -> exists l', wm_inv s' l'.
Proof.
  induction cs as [|c cs IH]; intros s l s' Hinv Hrun;
    cbn [calls_run] in Hrun.
  - injection Hrun as <-. now exists l.
  - destruct (call_ok c s) eqn:Hok; [|discriminate].
    destruct (wm_inv_call c s l Hinv Hok) as [l1 H1].
    exact (IH _ l1 s' H1 Hrun).
Qed.

Lemma reachable_inv s : reachable s -> exists l, wm_inv s l.
Proof.
  intros [cs Hrun].
  exact (calls_run_inv cs WM_Init [] s wm_inv_Init Hrun).
Qed.

Lemma reachable_list s l :
  reachable s -> z_list s = Some l -> wm_inv s l.
Proof.
  intros Hr Hl. destruct (reachable_inv s Hr) as [l' Hinv].
  pose proof Hinv as (Hrep & _). apply zrep_z_list in Hrep.
  congruence.
Qed.

Lemma reachable_step c s :
  reachable s -> call_ok c s = true -> reachable (call_apply c s).
Proof.
  intros [cs Hrun] Hok. exists (cs ++ [c]).
  revert Hrun. generalize WM_Init. induction cs as [|p cs IH]; intros s0 H.
  - cbn in H. injection H as ->. cbn [app calls_run]. now rewrite Hok.
  - cbn [app calls_run] in *. destruct (call_ok p s0); [|discriminate].
    now apply IH.
Qed.

Lemma reachable_zops ops s : zops_run ops WM_Init = Some s -> reachable s.
Proof.
  intros H. exists (map CallZ ops). revert H. generalize WM_Init.
  induction ops as [|o ops IH]; intros s0 H; [exact H|].
  cbn [map calls_run call_ok call_apply zops_run] in *.
  destruct (zop_ok o s0); [now apply IH | discriminate].
Qed.

Lemma reachable_by c s s' :
  reachable s -> call_ok c s = true -> s' = call_apply c s -> reachable s'.
Proof. intros Hr Hok ->. now apply reachable_step. Qed.

Ltac reach_by c R :=
  apply (reachable_by c _ _ R);
  [cbn [call_ok zop_ok]; first [assumption | reflexivity]
  | cbn [call_apply zop_apply]; reflexivity].

Lemma GetWindowById_live s i w :
  0 <= i ->
  WM_GetWindowById i s = Some w <-> i = Z.of_nat w /\ live s w = true.
Proof.
  intros Hi. unfold WM_GetWindowById, live, WM_MAX_WINDOWS.
  destruct (i <? Z.of_nat 16) eqn:Hlt; cbn [andb].
  - apply Z.ltb_lt in Hlt.
    destruct (nth (Z.to_nat i) (poolUsed s) 0 =? 0) eqn:Hu; cbn [negb].
    + split; [discriminate|]. intros [-> H]. rewrite Nat2Z.id in Hu.
      rewrite Hu in H. now rewrite andb_false_r in H.
    + split.
      * intros [= <-]. rewrite Z2Nat.id by lia. split; [reflexivity|].
        rewrite Hu. cbn [negb]. rewrite andb_true_r. apply Nat.ltb_lt. lia.
      * intros [-> _]. now rewrite Nat2Z.id.
  - apply Z.ltb_ge in Hlt. split; [discriminate|]. intros [-> H].
    apply andb_true_iff in H as [H _]. apply Nat.ltb_lt in H. lia.
Qed.

Lemma NewWindow_fst bounds ttl sty flgs s :
  fst (WM_NewWindow bounds ttl sty flgs s) = fst (pool_alloc s).
Proof.
  unfold WM_NewWindow. destruct (pool_alloc s) as [[w|] s0]; reflexivity.
Qed.

Lemma full_list_length (l : list nat) :
  (forall j, (j < WM_MAX_WINDOWS)%nat -> j ∈ l) ->
  (WM_MAX_WINDOWS <= length l)%nat.
Proof.
  intros H.
  assert (seq 0 WM_MAX_WINDOWS ⊆+ l) as Hsub.
  { apply NoDup_submseteq; [apply NoDup_seq|].
    intros x Hx. apply elem_of_seq in Hx. apply H. lia. }
  apply submseteq_length in Hsub. now rewrite length_seq in Hsub.
Qed.

(** X5.  In every state reached from [WM_Init] the walk from the top
    window ends within 16 steps; [WM_GetWindowCount] is the number of
    windows it meets; [WM_GetWindowById] accepts exactly the ids of
    these windows, each stored in the slot of its id; and the active
    window is one of them, or null when there is none. *)
Theorem reachable_window_list s :
  reachable s ->
  exists l,
    z_list s = Some l
    /\ WM_GetWindowCount s = Z.of_nat (length l)
    /\ (length l <= WM_MAX_WINDOWS)%nat
    /\ NoDup l
    /\ (forall i w, 0 <= i ->
          WM_GetWindowById i s = Some w <-> i = Z.of_nat w /\ w ∈ l)
    /\ (forall w, w ∈ l -> id (win_at s w) = Z.of_nat w)
    /\ match WM_GetActiveWindow s with
       | Some a => a ∈ l
       | None => l = []
       end.
Proof.
  intros Hr. destruct (reachable_inv s Hr) as [l (Hrep & Hc & Ha)].
  exists l. pose proof Hrep as (Hz & _ & Hlive & Hid).
  split; [now apply zrep_z_list|]. split; [exact Hc|].
  split; [now apply (zlinks_length s)|].
  split; [apply Hz|]. split; [|split; assumption].
  intros i w Hi. rewrite (GetWindowById_live s i w Hi), (Hlive w).
  reflexivity.
Qed.

Lemma reachable_window_list_witness :
  reachable z_example_state
  /\ exists l,
       z_list z_example_state = Some l
       /\ WM_GetWindowCount z_example_state = Z.of_nat (length l)
       /\ (length l <= WM_MAX_WINDOWS)%nat
       /\ NoDup l
       /\ (forall i w, 0 <= i ->
             WM_GetWindowById i z_example_state = Some w
             <-> i = Z.of_nat w /\ w ∈ l)
       /\ (forall w, w ∈ l -> id (win_at z_example_state w) = Z.of_nat w)
       /\ match WM_GetActiveWindow z_example_state with
          | Some a => a ∈ l
          | None => l = []
          end.
Proof.
  assert (reachable z_example_state) as R
    by (apply (reachable_zops z_example_ops); vm_compute; reflexivity).
  split; [exact R | exact (reachable_window_list _ R)].
Defined.

(** X6.  [WM_DisposeWindow] on a window of the list takes it out and
    leaves the order of the others; the count drops by one, the id is no
    longer accepted, and when the window was the active one the new top
    window (or null) becomes active. *)
Theorem DisposeWindow_removes s l1 w l2 :
  reachable s -> z_list s = Some (l1 ++ w :: l2) ->
  reachable (WM_DisposeWindow (Some w) s)
  /\ z_list (WM_DisposeWindow (Some w) s) = Some (l1 ++ l2)
  /\ WM_GetWindowCount (WM_DisposeWindow (Some w) s)
     = WM_GetWindowCount s - 1
  /\ WM_GetWindowById (Z.of_nat w) (WM_DisposeWindow (Some w) s) = None
  /\ WM_GetActiveWindow (WM_DisposeWindow (Some w) s)
     = (if ptr_eqb (WM_GetActiveWindow s) (Some w) then head (l1 ++ l2)
        else WM_GetActiveWindow s).
Proof.
  intros Hr Hl. pose proof (reachable_list s _ Hr Hl) as Hinv.
  pose proof Hinv as (Hrep & Hc & _).
  pose proof Hrep as ((_ & Hnd & _) & _ & Hlive & _).
  assert (live s w = true) as Hw
    by (apply Hlive, elem_of_app; right; now left).
  pose proof (wm_inv_Dispose s l1 w l2 Hinv) as (Hrep' & Hc' & _).
  destruct (Dispose_exact s l1 w l2 Hrep) as (_ & _ & Ha' & _).
  split; [reach_by (CallZ (OpDispose w)) Hr|].
  split; [now apply zrep_z_list|]. split; [|split; [|exact Ha']].
  - unfold WM_GetWindowCount. rewrite Hc', Hc, !length_app. cbn [length]. lia.
  - destruct (WM_GetWindowById _ _) as [x|] eqn:E; [|reflexivity].
    apply GetWindowById_live in E; [|lia]. destruct E as [Hx E].
    apply Nat2Z.inj in Hx. subst x. exfalso.
    destruct Hrep' as (_ & _ & Hlive' & _). apply Hlive' in E.
    apply NoDup_app in Hnd as (_ & Hdisj & Hnd2).
    apply NoDup_cons in Hnd2 as [Hw2 _].
    apply elem_of_app in E as [E | E]; [|contradiction].
    apply (Hdisj w E). now left.
Qed.

Lemma DisposeWindow_removes_witness :
  reachable z_example_state
  /\ z_list z_example_state = Some ([2%nat] ++ 1%nat :: [0%nat])
  /\ z_list (WM_DisposeWindow (Some 1%nat) z_example_state)
     = Some ([2%nat] ++ [0%nat]).
Proof.
  assert (reachable z_example_state) as R
    by (apply (reachable_zops z_example_ops); vm_compute; reflexivity).
  assert (z_list z_example_state = Some ([2%nat] ++ 1%nat :: [0%nat])) as L
    by (vm_compute; reflexivity).
  split; [exact R|]. split; [exact L|].
  exact (proj1 (proj2 (DisposeWindow_removes _ _ _ _ R L))).
Defined.

(** X7.  [WM_SelectWindow] on a window of the list moves it to the
    front and leaves the order of the others; the count is unchanged.
    It becomes the active window unless it already was the top window,
    in which case the call changes nothing at all. *)
Theorem SelectWindow_to_front s l1 w l2 :
  reachable s -> z_list s = Some (l1 ++ w :: l2) ->
  reachable (WM_SelectWindow (Some w) s)
  /\ z_list (WM_SelectWindow (Some w) s) = Some (w :: l1 ++ l2)
  /\ WM_GetWindowCount (WM_SelectWindow (Some w) s) = WM_GetWindowCount s
  /\ (l1 = [] -> WM_SelectWindow (Some w) s = s)
  /\ (l1 <> [] -> WM_GetActiveWindow (WM_SelectWindow (Some w) s) = Some w).
Proof.
  intros Hr Hl. pose proof (reachable_list s _ Hr Hl) as Hinv.
  pose proof Hinv as (Hrep & Hc & _).
  pose proof Hrep as ((_ & Hnd & _ & _ & Htop & _) & _ & Hlive & _).
  assert (live s w = true) as Hw
    by (apply Hlive, elem_of_app; right; now left).
  destruct (Select_exact s l1 w l2 Hrep) as (Hrep' & Hc' & Ha' & _).
  split; [reach_by (CallZ (OpSelect w)) Hr|].
  split; [now apply zrep_z_list|]. split; [exact Hc'|]. split.
  - intros ->. unfold WM_SelectWindow. rewrite Htop. cbn [app head ptr_eqb].
    now rewrite Nat.eqb_refl.
  - intros Hne. unfold WM_GetActiveWindow. rewrite Ha'.
    destruct (ptr_eqb (Some w) (topWindow s)) eqn:Hp; [|reflexivity].
    apply ptr_eqb_eq in Hp. rewrite Htop in Hp.
    destruct l1 as [|a l1']; [contradiction|].
    cbn in Hp. injection Hp as <-. exfalso.
    apply NoDup_app in Hnd as (_ & Hdisj & _).
    apply (Hdisj w); now left.
Qed.

Lemma SelectWindow_to_front_witness :
  reachable z_example_state
  /\ z_list z_example_state = Some ([2%nat; 1%nat] ++ 0%nat :: [])
  /\ z_list (WM_SelectWindow (Some 0%nat) z_example_state)
     = Some (0%nat :: [2%nat; 1%nat] ++ []).
Proof.
  assert (reachable z_example_state) as R
    by (apply (reachable_zops z_example_ops); vm_compute; reflexivity).
  assert (z_list z_example_state = Some ([2%nat; 1%nat] ++ 0%nat :: []))
    as L by (vm_compute; reflexivity).
  split; [exact R|]. split; [exact L|].
  exact (proj1 (proj2 (SelectWindow_to_front _ _ _ _ R L))).
Defined.

(** X8.  [WM_SendToBack] on a window of the list moves it to the back
    and leaves the order of the others.  The count and the active
    window are unchanged: a window sent to the back stays active. *)
Theorem SendToBack_to_bottom s l1 w l2 :
  reachable s -> z_list s = Some (l1 ++ w :: l2) ->
  reachable (WM_SendToBack (Some w) s)
  /\ z_list (WM_SendToBack (Some w) s) = Some ((l1 ++ l2) ++ [w])
  /\ WM_GetBottomWindow (WM_SendToBack (Some w) s) = Some w
  /\ WM_GetWindowCount (WM_SendToBack (Some w) s) = WM_GetWindowCount s
  /\ WM_GetActiveWindow (WM_SendToBack (Some w) s) = WM_GetActiveWindow s.
Proof.
  intros Hr Hl. pose proof (reachable_list s _ Hr Hl) as Hinv.
  pose proof Hinv as (Hrep & Hc & _).
  pose proof Hrep as (_ & _ & Hlive & _).
  assert (live s w = true) as Hw
    by (apply Hlive, elem_of_app; right; now left).
  destruct (SendToBack_exact s l1 w l2 Hrep) as (Hrep' & Hc' & Ha' & _).
  split; [reach_by (CallZ (OpSendToBack w)) Hr|].
  split; [now apply zrep_z_list|]. split; [|split; assumption].
  destruct Hrep' as ((_ & _ & _ & _ & _ & Hbot & _) & _).
  unfold WM_GetBottomWindow. rewrite Hbot. apply last_snoc.
Qed.

Lemma SendToBack_to_bottom_witness :
  reachable z_example_state
  /\ z_list z_example_state = Some ([] ++ 2%nat :: [1%nat; 0%nat])
  /\ z_list (WM_SendToBack (Some 2%nat) z_example_state)
     = Some (([] ++ [1%nat; 0%nat]) ++ [2%nat])
  /\ WM_GetActiveWindow (WM_SendToBack (Some 2%nat) z_example_state)
     = Some 2%nat.
Proof.
  assert (reachable z_example_state) as R
    by (apply (reachable_zops z_example_ops); vm_compute; reflexivity).
  assert (z_list z_example_state = Some ([] ++ 2%nat :: [1%nat; 0%nat]))
    as L by (vm_compute; reflexivity).
  split; [exact R|]. split; [exact L|].
  destruct (SendToBack_to_bottom _ _ _ _ R L) as (_ & Hz & _ & _ & Ha).
  split; [exact Hz|]. rewrite Ha. vm_compute. reflexivity.
Defined.

Lemma NewWindow_facts s l bounds ttl sty flgs :
  reachable s -> z_list s = Some l ->
  (fst (WM_NewWindow bounds ttl sty flgs s) = None
   <-> WM_GetWindowCount s = Z.of_nat WM_MAX_WINDOWS)
  /\ forall w, fst (WM_NewWindow bounds ttl sty flgs s) = Some w ->
       first_free s w
       /\ reachable (snd (WM_NewWindow bounds ttl sty flgs s))
       /\ z_list (snd (WM_NewWindow bounds ttl sty flgs s)) = Some (w :: l)
       /\ WM_GetWindowCount (snd (WM_NewWindow bounds ttl sty flgs s))
          = WM_GetWindowCount s + 1
       /\ WM_GetActiveWindow (snd (WM_NewWindow bounds ttl sty flgs s))
          = Some w
       /\ WM_GetWindowById (Z.of_nat w)
            (snd (WM_NewWindow bounds ttl sty flgs s)) = Some w.
Proof.
  intros Hr Hl. pose proof (reachable_list s _ Hr Hl) as Hinv.
  pose proof Hinv as (Hrep & Hc & _).
  pose proof Hrep as (Hz & _ & Hlive & _).
  pose proof (zlinks_length s l Hz) as Hlen.
  assert (forall w, fst (pool_alloc s) = Some w ->
            wm_inv (snd (WM_NewWindow bounds ttl sty flgs s)) (w :: l)
            /\ first_free s w) as Hsome.
  { intros w E. destruct (pool_alloc s) as [o s0] eqn:E0.
    cbn [fst] in E. subst o. split.
    - exact (wm_inv_New s l bounds ttl sty flgs w s0 Hinv E0).
    - exact (proj1 (pool_alloc_first s w s0 E0)). }
  rewrite NewWindow_fst. split.
  - unfold WM_GetWindowCount. rewrite Hc. split.
    + intros E. pose proof (pool_alloc_none_live s E) as Hall.
      assert (WM_MAX_WINDOWS <= length l)%nat as Hge.
      { apply full_list_length. intros j Hj. now apply Hlive, Hall. }
      f_equal. lia.
    + intros Hfull. apply Nat2Z.inj in Hfull.
      destruct (fst (pool_alloc s)) as [w|] eqn:E; [|reflexivity].
      destruct (Hsome w eq_refl) as [((Hz' & _) & _) _].
      apply zlinks_length in Hz'. cbn [length] in Hz'. lia.
  - intros w E. destruct (Hsome w E) as [(Hrep' & Hc' & Ha') Hfree].
    split; [exact Hfree|].
    split; [reach_by (CallZ (OpNew bounds ttl sty flgs)) Hr|].
    split; [now apply zrep_z_list|].
    split; [unfold WM_GetWindowCount; rewrite Hc', Hc; cbn [length]; lia|].
    destruct (pool_alloc s) as [o s0] eqn:E0. cbn [fst] in E. subst o.
    destruct (NewWindow_exact s l bounds ttl sty flgs w s0 Hrep E0)
      as (_ & _ & _ & Hact & _).
    split; [exact Hact|].
    apply GetWindowById_live; [lia|]. split; [reflexivity|].
    destruct Hrep' as (_ & _ & Hlive' & _). apply Hlive'. now left.
Qed.

(** X9.  In a reachable state [WM_NewWindow] returns null exactly when
    the window count is 16.  Otherwise the window it returns takes the
    lowest free pool slot, goes to the front of the list, becomes the
    active window and is found under its id; the count grows by one. *)
Theorem NewWindow_on_top s l bounds ttl sty flgs :
  reachable s -> z_list s = Some l ->
  (fst (WM_NewWindow bounds ttl sty flgs s) = None
   <-> WM_GetWindowCount s = Z.of_nat WM_MAX_WINDOWS)
  /\ forall w, fst (WM_NewWindow bounds ttl sty flgs s) = Some w ->
       first_free s w
       /\ reachable (snd (WM_NewWindow bounds ttl sty flgs s))
       /\ z_list (snd (WM_NewWindow bounds ttl sty flgs s)) = Some (w :: l)
       /\ WM_GetWindowCount (snd (WM_NewWindow bounds ttl sty flgs s))
          = WM_GetWindowCount s + 1
       /\ WM_GetActiveWindow (snd (WM_NewWindow bounds ttl sty flgs s))
          = Some w
       /\ WM_GetWindowById (Z.of_nat w)
            (snd (WM_NewWindow bounds ttl sty flgs s)) = Some w.
Proof. exact (NewWindow_facts s l bounds ttl sty flgs). Qed.

Lemma NewWindow_on_top_witness :
  reachable z_example_state
  /\ z_list z_example_state = Some [2%nat; 1%nat; 0%nat]
  /\ z_list (snd (WM_NewWindow (mkRect 30 20 150 200) None
                    WM_STYLE_PLAIN WF_VISIBLE z_example_state))
     = Some [3%nat; 2%nat; 1%nat; 0%nat].
Proof.
  assert (reachable z_example_state) as R
    by (apply (reachable_zops z_example_ops); vm_compute; reflexivity).
  assert (z_list z_example_state = Some [2%nat; 1%nat; 0%nat]) as L
    by (vm_compute; reflexivity).
  split; [exact R|]. split; [exact L|].
  destruct (NewWindow_on_top z_example_state _ (mkRect 30 20 150 200) None
              WM_STYLE_PLAIN WF_VISIBLE R L) as [_ H].
  destruct (H 3%nat ltac:(vm_compute; reflexivity)) as (_ & _ & Hz & _).
  exact Hz.
Defined.

(** X10.  Opening a window and disposing of it at once gives back the
    window list and the count, and frees the slot again; the active
    window is then the top window, whichever window was active
    before. *)
Theorem NewWindow_then_Dispose s l bounds ttl sty flgs w :
  reachable s -> z_list s = Some l ->
  fst (WM_NewWindow bounds ttl sty flgs s) = Some w ->
  z_list (WM_DisposeWindow (Some w) (snd (WM_NewWindow bounds ttl sty flgs s)))
  = Some l
  /\ WM_GetWindowCount
       (WM_DisposeWindow (Some w) (snd (WM_NewWindow bounds ttl sty flgs s)))
     = WM_GetWindowCount s
  /\ WM_GetActiveWindow
       (WM_DisposeWindow (Some w) (snd (WM_NewWindow bounds ttl sty flgs s)))
     = WM_GetTopWindow s
  /\ poolUsed
       (WM_DisposeWindow (Some w) (snd (WM_NewWindow bounds ttl sty flgs s)))
     = poolUsed s.
Proof.
  intros Hr Hl E. pose proof (reachable_list s _ Hr Hl) as Hinv.
  pose proof Hinv as (Hrep & Hc & _).
  pose proof Hrep as (Hz & Hlu & _).
  pose proof Hz as (Hlen & _ & _ & _ & Htop & _).
  rewrite NewWindow_fst in E.
  destruct (pool_alloc s) as [o s0] eqn:E0. cbn [fst] in E. subst o.
  pose proof (wm_inv_New s l bounds ttl sty flgs w s0 Hinv E0) as Hinv1.
  destruct (NewWindow_exact s l bounds ttl sty flgs w s0 Hrep E0)
    as (_ & Hrep1 & _ & Hact1 & Hpu1).
  destruct (pool_alloc_some _ _ _ Hlen E0)
    as (Hw16 & Hfree & _ & _ & _ & _ & _ & _ & Hpu0 & _).
  set (s1 := snd (WM_NewWindow bounds ttl sty flgs s)) in *.
  clearbody s1.
  pose proof (wm_inv_Dispose s1 [] w l Hinv1) as (Hrep2 & Hc2 & _).
  destruct (Dispose_exact s1 [] w l Hrep1) as (_ & _ & Ha2 & Hpu2).
  cbn [app] in *.
  split; [now apply zrep_z_list|]. split; [|split].
  - unfold WM_GetWindowCount. congruence.
  - unfold WM_GetActiveWindow, WM_GetTopWindow. rewrite Ha2, Hact1, Htop.
    cbn [ptr_eqb]. now rewrite Nat.eqb_refl.
  - rewrite Hpu2, Hpu1. rewrite list_insert_insert_eq.
    apply list_insert_id'. intros Hlt.
    destruct (nth_lookup_or_length (poolUsed s) w 0) as [Hx | Hx]; [|lia].
    now rewrite Hfree in Hx.
Qed.

Lemma NewWindow_then_Dispose_witness :
  reachable back_example_state
  /\ z_list back_example_state = Some [1%nat; 0%nat; 2%nat]
  /\ fst (WM_NewWindow (mkRect 30 20 150 200) None WM_STYLE_PLAIN WF_VISIBLE
            back_example_state) = Some 3%nat
  /\ WM_GetActiveWindow back_example_state = Some 2%nat
  /\ WM_GetActiveWindow
       (WM_DisposeWindow (Some 3%nat)
          (snd (WM_NewWindow (mkRect 30 20 150 200) None WM_STYLE_PLAIN
                  WF_VISIBLE back_example_state)))
     = Some 1%nat.
Proof.
  assert (reachable back_example_state) as R
    by (apply (reachable_zops (z_example_ops ++ [OpSendToBack 2%nat]));
        vm_compute; reflexivity).
  assert (z_list back_example_state = Some [1%nat; 0%nat; 2%nat]) as L
    by (vm_compute; reflexivity).
  assert (fst (WM_NewWindow (mkRect 30 20 150 200) None WM_STYLE_PLAIN
                 WF_VISIBLE back_example_state) = Some 3%nat) as E
    by (vm_compute; reflexivity).
  split; [exact R|]. split; [exact L|]. split; [exact E|].
  split; [vm_compute; reflexivity|].
  destruct (NewWindow_then_Dispose _ _ _ _ _ _ _ R L E) as (_ & _ & Ha & _).
  rewrite Ha. vm_compute. reflexivity.
Defined.

(** ** Hit testing *)

Lemma find_walk_seg s pt l : forall p fuel,
  seg s p l None -> (length l <= fuel)%nat ->
  find_walk s pt (head l) fuel
  = Some match first_hit s pt l with
         | Some w => (hit_part (win_at s w) pt, Some w)
         | None => (WM_PART_DESKTOP, None)
         end.
Proof.
  induction l as [|w r IH]; intros p fuel Hs Hf.
  - destruct fuel; reflexivity.
  - cbn [seg] in Hs. destruct Hs as (_ & Hb & Hr).
    destruct fuel as [|fuel]; [cbn in Hf; lia|].
    assert (length r <= fuel)%nat as Hf' by (cbn in Hf; lia).
    specialize (IH (Some w) fuel Hr Hf').
    unfold first_hit in *. cbn [head find_walk List.find]. cbv zeta.
    rewrite Hb, hd_or_None.
    destruct (flag_set (flags (win_at s w)) WF_VISIBLE); cbn [negb andb];
      [|exact IH].
    destruct (rect_contains_point (frame (win_at s w)) pt);
      [reflexivity | exact IH].
Qed.

Lemma hit_part_range W pt :
  hit_part W pt = WM_PART_CLOSE \/ hit_part W pt = WM_PART_GROW
  \/ hit_part W pt = WM_PART_DRAG \/ hit_part W pt = WM_PART_CONTENT.
Proof.
  unfold hit_part. cbv zeta.
  repeat match goal with
         | |- context [if ?c then _ else _] => destruct c
         end; tauto.
Qed.

Lemma find_some_elem (f : nat -> bool) l w :
  List.find f l = Some w -> w ∈ l /\ f w = true.
Proof.
  induction l as [|a r IH]; cbn [List.find]; [discriminate|].
  destruct (f a) eqn:E.
  - intros [= <-]. split; [now left | assumption].
  - intros H. destruct (IH H). split; [now right | assumption].
Qed.

Lemma FindWindow_facts s l pt :
  reachable s -> z_list s = Some l ->
  WM_FindWindow WM_MAX_WINDOWS pt s
  = Some (if y pt <? WM_MENUBAR_H then (WM_PART_MENUBAR, None)
          else match first_hit s pt l with
               | Some w => (hit_part (win_at s w) pt, Some w)
               | None => (WM_PART_DESKTOP, None)
               end)
  /\ forall part w,
       WM_FindWindow WM_MAX_WINDOWS pt s = Some (part, Some w) ->
       w ∈ l
       /\ flag_set (flags (win_at s w)) WF_VISIBLE = true
       /\ rect_contains_point (frame (win_at s w)) pt = true
       /\ (part = WM_PART_CLOSE \/ part = WM_PART_GROW
           \/ part = WM_PART_DRAG \/ part = WM_PART_CONTENT).
Proof.
  intros Hr Hl. pose proof (reachable_list s _ Hr Hl) as ((Hz & _) & _).
  pose proof (zlinks_length s l Hz) as Hlen.
  destruct Hz as (_ & _ & _ & _ & Htop & _ & Hseg).
  assert (WM_FindWindow WM_MAX_WINDOWS pt s
          = Some (if y pt <? WM_MENUBAR_H then (WM_PART_MENUBAR, None)
                  else match first_hit s pt l with
                       | Some w => (hit_part (win_at s w) pt, Some w)
                       | None => (WM_PART_DESKTOP, None)
                       end)) as E.
  { unfold WM_FindWindow. destruct (y pt <? WM_MENUBAR_H); [reflexivity|].
    rewrite Htop. now apply (find_walk_seg s pt l None). }
  split; [exact E|]. intros part w. rewrite E.
  destruct (y pt <? WM_MENUBAR_H); [discriminate|].
  destruct (first_hit s pt l) as [x|] eqn:Hx; [|discriminate].
  intros [= <- <-]. apply find_some_elem in Hx as [Hin Hx].
  apply andb_true_iff in Hx as [Hv Hc].
  repeat split; try assumption. apply hit_part_range.
Qed.

(** X11.  In a reachable state the loop of [WM_FindWindow] ends within
    16 steps.  Below the menu bar the call reports the first window of
    the list, front to back, that is visible and whose frame holds the
    point, with the part of it that the point is in, and the desktop
    when there is none; a reported window comes with one of the parts
    close, grow, drag, content. *)
Theorem FindWindow_first_hit s l pt :
  reachable s -> z_list s = Some l ->
  WM_FindWindow WM_MAX_WINDOWS pt s
  = Some (if y pt <? WM_MENUBAR_H then (WM_PART_MENUBAR, None)
          else match first_hit s pt l with
               | Some w => (hit_part (win_at s w) pt, Some w)
               | None => (WM_PART_DESKTOP, None)
               end)
  /\ forall part w,
       WM_FindWindow WM_MAX_WINDOWS pt s = Some (part, Some w) ->
       w ∈ l
       /\ flag_set (flags (win_at s w)) WF_VISIBLE = true
       /\ rect_contains_point (frame (win_at s w)) pt = true
       /\ (part = WM_PART_CLOSE \/ part = WM_PART_GROW
           \/ part = WM_PART_DRAG \/ part = WM_PART_CONTENT).
Proof. exact (FindWindow_facts s l pt). Qed.

Lemma FindWindow_first_hit_witness :
  reachable z_example_state
  /\ z_list z_example_state = Some [2%nat; 1%nat; 0%nat]
  /\ WM_FindWindow WM_MAX_WINDOWS (mkPoint 100 100) z_example_state
     = Some (WM_PART_CONTENT, Some 1%nat).
Proof.
  assert (reachable z_example_state) as R
    by (apply (reachable_zops z_example_ops); vm_compute; reflexivity).
  assert (z_list z_example_state = Some [2%nat; 1%nat; 0%nat]) as L
    by (vm_compute; reflexivity).
  split; [exact R|]. split; [exact L|].
  rewrite (proj1 (FindWindow_first_hit _ _ (mkPoint 100 100) R L)).
  vm_compute. reflexivity.
Defined.

(** ** Flag bits *)

Lemma flag_set_bit f k : 0 <= k -> flag_set f (2 ^ k) = Z.testbit f k.
Proof.
  intros Hk. unfold flag_set.
  assert (Z.land f (2 ^ k) = if Z.testbit f k then 2 ^ k else 0) as ->.
  { apply Z.bits_inj'. intros n Hn. rewrite Z.land_spec.
    rewrite Z.pow2_bits_eqb by assumption.
    destruct (Z.eqb_spec k n) as [-> | Hne].
    - destruct (Z.testbit f n); [|now rewrite Z.bits_0].
      rewrite Z.pow2_bits_true by assumption. reflexivity.
    - rewrite andb_false_r. destruct (Z.testbit f k); [|now rewrite Z.bits_0].
      rewrite Z.pow2_bits_false by assumption. reflexivity. }
  destruct (Z.testbit f k); [|reflexivity].
  apply negb_true_iff, Z.eqb_neq. pose proof (Z.pow_pos_nonneg 2 k). lia.
Qed.

Lemma testbit_u8 f j : 0 <= j < 8 -> Z.testbit (to_u8 f) j = Z.testbit f j.
Proof.
  intros Hj. unfold to_u8. change 256 with (2 ^ 8).
  apply Z.mod_pow2_bits_low. lia.
Qed.

Lemma flag_or f k j :
  0 <= k < 8 -> 0 <= j < 8 ->
  flag_set (to_u8 (Z.lor f (2 ^ k))) (2 ^ j)
  = (k =? j) || flag_set f (2 ^ j).
Proof.
  intros Hk Hj. rewrite !flag_set_bit by lia. rewrite testbit_u8 by lia.
  rewrite Z.lor_spec, Z.pow2_bits_eqb by lia. apply orb_comm.
Qed.

Lemma flag_clear f k j :
  0 <= k < 8 -> 0 <= j < 8 ->
  flag_set (to_u8 (Z.land f (Z.lnot (2 ^ k)))) (2 ^ j)
  = negb (k =? j) && flag_set f (2 ^ j).
Proof.
  intros Hk Hj. rewrite !flag_set_bit by lia. rewrite testbit_u8 by lia.
  rewrite Z.land_spec, Z.lnot_spec, Z.pow2_bits_eqb by lia. apply andb_comm.
Qed.

(** ** What the z-order stores leave alone *)

Section Projection.
Context {A : Type} (g : Window -> A).
Hypothesis g_above : forall v W, g (set_above v W) = g W.
Hypothesis g_below : forall v W, g (set_below v W) = g W.

Lemma proj_unlink w s x : g (win_at (zorder_unlink w s) x) = g (win_at s x).
Proof.
  unfold zorder_unlink. cbv zeta.
  rewrite !(proj_upd g) by (intros; auto).
  match goal with
  | |- context [match below ?W with _ => _ end] => destruct (below W)
  end;
  destruct (above (win_at s w));
  repeat first [ rewrite (proj_upd g) by (intros; auto)
               | rewrite win_at_set_topWindow
               | rewrite win_at_set_bottomWindow ];
  reflexivity.
Qed.

Lemma proj_push_top w s x :
  g (win_at (zorder_push_top w s) x) = g (win_at s x).
Proof.
  unfold zorder_push_top. cbv zeta.
  match goal with
  | |- context [match bottomWindow ?S with _ => _ end] =>
      destruct (bottomWindow S)
  end;
  match goal with
  | |- context [match topWindow ?S with _ => _ end] => destruct (topWindow S)
  end;
  repeat first [ rewrite (proj_upd g) by (intros; auto)
               | rewrite win_at_set_topWindow
               | rewrite win_at_set_bottomWindow ];
  reflexivity.
Qed.
End Projection.

Lemma win_at_pool_free p s x : win_at (pool_free p s) x = win_at s x.
Proof.
  unfold pool_free. destruct p as [w|]; [|reflexivity].
  destruct (_ <? _); reflexivity.
Qed.

(** What the four z-order calls leave alone in the windows that were
    there: everything but the links and the highlight bit. *)
Section Body.
Context {A : Type} (g : Window -> A).
Hypothesis g_above : forall v W, g (set_above v W) = g W.
Hypothesis g_below : forall v W, g (set_below v W) = g W.
Hypothesis g_or : forall W, g (or_flag WF_HILITED W) = g W.
Hypothesis g_clear : forall W, g (clear_flag WF_HILITED W) = g W.

Ltac body_step :=
  first [ rewrite win_at_InvalidateWindow
        | rewrite win_at_InvalidateRect
        | rewrite win_at_pool_free
        | rewrite win_at_set_activeWindow
        | rewrite win_at_set_topWindow
        | rewrite win_at_set_bottomWindow
        | rewrite (proj_unlink g) by (intros; auto)
        | rewrite (proj_push_top g) by (intros; auto)
        | rewrite (proj_upd g) by (intros; auto) ].

Lemma body_Dispose w s x :
  g (win_at (WM_DisposeWindow (Some w) s) x) = g (win_at s x).
Proof.
  unfold WM_DisposeWindow. cbv zeta. rewrite win_at_pool_free.
  destruct (ptr_eqb _ _); [|now repeat body_step].
  match goal with
  | |- context [match ?o with Some _ => _ | None => _ end] => destruct o
  end; now repeat body_step.
Qed.

Lemma body_Select w s x :
  g (win_at (WM_SelectWindow (Some w) s) x) = g (win_at s x).
Proof.
  unfold WM_SelectWindow. destruct (ptr_eqb _ _); [reflexivity|]. cbv zeta.
  repeat body_step. destruct (activeWindow s); now repeat body_step.
Qed.

Lemma body_SendToBack w s x :
  g (win_at (WM_SendToBack (Some w) s) x) = g (win_at s x).
Proof.
  unfold WM_SendToBack. destruct (ptr_eqb _ _); [reflexivity|]. cbv zeta.
  rewrite win_at_InvalidateRect.
  repeat match goal with
         | |- context [match ?o with Some _ => _ | None => _ end] =>
             destruct o
         end; now repeat body_step.
Qed.

Lemma body_New s bounds ttl sty flgs w x :
  length (pool s) = WM_MAX_WINDOWS ->
  fst (WM_NewWindow bounds ttl sty flgs s) = Some w -> x <> w ->
  g (win_at (snd (WM_NewWindow bounds ttl sty flgs s)) x) = g (win_at s x).
Proof.
  intros Hlen E Hx. rewrite NewWindow_fst in E.
  destruct (pool_alloc s) as [o s0] eqn:E0. cbn [fst] in E. subst o.
  destruct (pool_alloc_some _ _ _ Hlen E0) as (_ & _ & _ & _ & Hoth & _).
  unfold WM_NewWindow. rewrite E0. cbv zeta. cbn [snd].
  rewrite <- (Hoth x Hx).
  destruct (flag_set flgs WF_VISIBLE); repeat body_step;
    rewrite ?win_at_upd_ne by congruence;
    match goal with
    | |- context [match ?o with Some _ => _ | None => _ end] => destruct o
    end; repeat body_step;
    destruct ttl, (sty =? WM_STYLE_DOCUMENT),
      ((sty =? WM_STYLE_DIALOG) || (sty =? WM_STYLE_ALERT));
    rewrite ?win_at_upd_ne by congruence; reflexivity.
Qed.
End Body.

(** ** The highlight bit *)

Lemma hil_proj s s' x :
  flags (win_at s' x) = flags (win_at s x) -> hil s' x = hil s x.
Proof. unfold hil. now intros ->. Qed.

Lemma hil_unlink w s x : hil (zorder_unlink w s) x = hil s x.
Proof.
  apply hil_proj, (proj_unlink flags); intros v W; destruct W; reflexivity.
Qed.

Lemma hil_push_top w s x : hil (zorder_push_top w s) x = hil s x.
Proof.
  apply hil_proj, (proj_push_top flags); intros v W; destruct W; reflexivity.
Qed.

Lemma hil_upd_ne s j f x : x <> j -> hil (upd_win j f s) x = hil s x.
Proof. intros H. unfold hil. rewrite win_at_upd_ne by congruence. reflexivity. Qed.

Lemma hil_upd_keep s j f x :
  (forall W, flag_set (flags (f W)) WF_HILITED = flag_set (flags W) WF_HILITED) ->
  hil (upd_win j f s) x = hil s x.
Proof.
  intros Hf. unfold hil.
  now apply (proj_upd (fun W => flag_set (flags W) WF_HILITED)).
Qed.

Lemma hil_or s j x :
  (j < length (pool s))%nat ->
  hil (upd_win j (or_flag WF_HILITED) s) x = (x =? j)%nat || hil s x.
Proof.
  intros Hj. destruct (Nat.eqb_spec x j) as [-> | Hne].
  - unfold hil. rewrite win_at_upd_eq by assumption.
    destruct (win_at s j); cbn [flags or_flag set_flags].
    change WF_HILITED with (2 ^ 1). now rewrite flag_or by lia.
  - now apply hil_upd_ne.
Qed.

Lemma hil_clear s j x :
  hil (upd_win j (clear_flag WF_HILITED) s) x = negb (x =? j)%nat && hil s x.
Proof.
  destruct (Nat.eqb_spec x j) as [-> | Hne]; [|now apply hil_upd_ne].
  cbn [negb andb]. unfold hil.
  destruct (Nat.lt_ge_cases j (length (pool s))) as [Hlt | Hge].
  - rewrite win_at_upd_eq by assumption.
    destruct (win_at s j); cbn [flags clear_flag set_flags].
    change WF_HILITED with (2 ^ 1). now rewrite flag_clear by lia.
  - unfold win_at, upd_win. cbn [pool set_pool].
    rewrite list_insert_ge by lia. now rewrite nth_overflow by lia.
Qed.

Lemma hil_set_activeWindow v s x : hil (set_activeWindow v s) x = hil s x.
Proof. reflexivity. Qed.

Lemma hil_InvalidateRect r s x : hil (WM_InvalidateRect r s) x = hil s x.
Proof. apply hil_proj. now rewrite win_at_InvalidateRect. Qed.

Lemma hil_InvalidateWindow w s x : hil (WM_InvalidateWindow w s) x = hil s x.
Proof. apply hil_proj. now rewrite win_at_InvalidateWindow. Qed.

Lemma hil_pool_free p s x : hil (pool_free p s) x = hil s x.
Proof. apply hil_proj. now rewrite win_at_pool_free. Qed.

Lemma pool_InvalidateWindow w s : pool (WM_InvalidateWindow w s) = pool s.
Proof. destruct w; [apply pool_InvalidateRect | reflexivity]. Qed.

Lemma hil_Dispose s l1 w l2 x :
  zrep s (l1 ++ w :: l2) ->
  hil (WM_DisposeWindow (Some w) s) x
  = (ptr_eqb (activeWindow s) (Some w) && ptr_eqb (head (l1 ++ l2)) (Some x))
    || hil s x.
Proof.
  intros Hrep. unfold WM_DisposeWindow. cbv zeta. rewrite hil_pool_free.
  set (s1 := WM_InvalidateRect (Some (frame (win_at s w))) s).
  assert (zrep s1 (l1 ++ w :: l2)) as Hrep1
    by (apply (zrep_links_eq s); [apply links_eq_InvalidateRect | assumption]).
  assert (activeWindow s1 = activeWindow s) as Hac1
    by apply InvalidateRect_fields.
  assert (forall y, hil s1 y = hil s y) as Hh1
    by (intros y; apply hil_InvalidateRect).
  destruct Hrep1 as (Hz1 & _).
  destruct (unlink_zlinks s1 l1 w l2 Hz1) as (Hz2 & _ & Hact2 & _).
  pose proof (hil_unlink w s1) as Hh2.
  set (s2 := zorder_unlink w s1) in *. clearbody s2 s1.
  destruct Hz2 as (Hlen2 & _ & Hb2 & _ & Ht2 & _).
  rewrite Hact2, Hac1.
  destruct (ptr_eqb (activeWindow s) (Some w)); cbn [andb orb];
    [|now rewrite Hh2, Hh1].
  cbn [activeWindow set_activeWindow]. rewrite Ht2.
  destruct (head (l1 ++ l2)) as [a|] eqn:Hh; cbn [ptr_eqb].
  - rewrite hil_or.
    + rewrite hil_set_activeWindow, Hh2, Hh1. now rewrite Nat.eqb_sym.
    + cbn [pool set_activeWindow]. rewrite Hlen2. apply Hb2.
      now apply head_elem_of.
  - now rewrite hil_set_activeWindow, Hh2, Hh1.
Qed.

Lemma hil_Select s l1 w l2 x :
  wm_inv s (l1 ++ w :: l2) -> ptr_eqb (Some w) (topWindow s) = false ->
  hil (WM_SelectWindow (Some w) s) x
  = (x =? w)%nat
    || (negb (ptr_eqb (activeWindow s) (Some x)) && hil s x).
Proof.
  intros (Hrep & _ & Ha) Hp.
  destruct (Select_exact s l1 w l2 Hrep) as (((Hlen' & _) & _) & _).
  pose proof Hrep as ((Hlen & _ & Hb & _) & _).
  revert Hlen'. unfold WM_SelectWindow. rewrite Hp. cbv zeta.
  rewrite pool_InvalidateWindow, pool_length_upd. intros Hlen'.
  rewrite hil_InvalidateWindow.
  rewrite hil_or by (rewrite Hlen'; apply Hb, elem_of_app; right; now left).
  f_equal. rewrite hil_set_activeWindow, hil_push_top, hil_unlink.
  destruct (activeWindow s) as [a|]; cbn [ptr_eqb negb andb];
    [|reflexivity].
  rewrite hil_InvalidateWindow, hil_clear. now rewrite Nat.eqb_sym.
Qed.

Lemma hil_SendToBack w s x : hil (WM_SendToBack (Some w) s) x = hil s x.
Proof.
  apply hil_proj, (body_SendToBack flags); intros; destruct W; reflexivity.
Qed.

Lemma hil_New s l bounds ttl sty flgs w s0 x :
  wm_inv s l -> pool_alloc s = (Some w, s0) ->
  hil (snd (WM_NewWindow bounds ttl sty flgs s)) x
  = (x =? w)%nat
    || (negb (ptr_eqb (activeWindow s) (Some x)) && hil s x).
Proof.
  intros (Hrep & _ & Ha) E.
  destruct (NewWindow_exact s l bounds ttl sty flgs w s0 Hrep E)
    as (_ & ((Hlen' & _ & Hb' & _) & _) & _).
  pose proof Hrep as ((Hlen & _) & _).
  destruct (pool_alloc_some _ _ _ Hlen E)
    as (_ & _ & _ & _ & Hoth & _ & _ & Hact0 & _).
  assert (w < WM_MAX_WINDOWS)%nat as Hw16 by (apply Hb'; now left).
  revert Hlen'. unfold WM_NewWindow. rewrite E. cbv zeta. cbn [snd].
  match goal with
  | |- context [upd_win w (or_flag WF_HILITED) ?S] => set (s10 := S)
  end.
  intros Hlen'.
  assert (length (pool s10) = WM_MAX_WINDOWS) as Hlen10.
  { rewrite <- Hlen'. destruct (flag_set flgs WF_VISIBLE);
      rewrite ?pool_InvalidateWindow, pool_length_upd; reflexivity. }
  assert (hil (upd_win w (or_flag WF_HILITED) s10) x
          = (x =? w)%nat
            || (negb (ptr_eqb (activeWindow s) (Some x)) && hil s x)) as H.
  { rewrite hil_or by (rewrite Hlen10; exact Hw16).
    destruct (Nat.eqb_spec x w) as [-> | Hne]; [reflexivity|]. cbn [orb].
    subst s10. rewrite hil_set_activeWindow.
    match goal with
    | |- context [zorder_push_top w ?S] => set (s7 := S)
    end.
    assert (activeWindow (zorder_push_top w s7) = activeWindow s) as Hact8.
    { rewrite <- Hact0. unfold zorder_push_top. cbv zeta.
      repeat match goal with
             | |- context [match ?o with Some _ => _ | None => _ end] =>
                 destruct o eqn:?
             end; subst s7;
      destruct ttl, (sty =? WM_STYLE_DOCUMENT),
        ((sty =? WM_STYLE_DIALOG) || (sty =? WM_STYLE_ALERT)); reflexivity. }
    assert (hil s7 x = hil s x) as Hh7.
    { apply hil_proj. rewrite <- (Hoth x Hne). subst s7.
      destruct ttl, (sty =? WM_STYLE_DOCUMENT),
        ((sty =? WM_STYLE_DIALOG) || (sty =? WM_STYLE_ALERT));
        rewrite ?win_at_upd_ne by congruence; reflexivity. }
    rewrite Hact8. clearbody s7.
    destruct (activeWindow s) as [a|]; cbn [ptr_eqb negb andb].
    - rewrite hil_clear, hil_push_top, Hh7. now rewrite Nat.eqb_sym.
    - now rewrite hil_push_top, Hh7. }
  destruct (flag_set flgs WF_VISIBLE); rewrite ?hil_InvalidateWindow;
    exact H.
Qed.

Ltac keep_flag :=
  intros W;
  first [ destruct W; reflexivity
        | unfold compute_window_rects; destruct (_ || _); destruct W;
          reflexivity
        | destruct W; cbn [flags or_flag clear_flag set_flags];
          change WF_HILITED with (2 ^ 1); change WF_VISIBLE with (2 ^ 0);
          first [ rewrite flag_or by lia | rewrite flag_clear by lia ];
          reflexivity ].

Lemma hil_call c s x :
  match c with CallZ _ => True | _ => hil (call_apply c s) x = hil s x end.
Proof.
  destruct c; cbn [call_apply]; try exact I.
  - unfold WM_ShowWindow. destruct (flag_set _ _); [reflexivity|].
    rewrite hil_InvalidateWindow. apply hil_upd_keep. keep_flag.
  - unfold WM_HideWindow. destruct (negb _); [reflexivity|]. cbv zeta.
    rewrite hil_InvalidateRect. apply hil_upd_keep. keep_flag.
  - unfold WM_MoveWindow. cbv zeta.
    rewrite hil_InvalidateWindow, hil_InvalidateRect.
    rewrite !hil_upd_keep by keep_flag. reflexivity.
  - unfold WM_SizeWindow. cbv zeta.
    rewrite hil_InvalidateWindow, hil_InvalidateRect.
    rewrite !hil_upd_keep by keep_flag. reflexivity.
  - unfold WM_SetTitle. cbv zeta.
    rewrite hil_InvalidateRect. apply hil_upd_keep. keep_flag.
  - apply hil_InvalidateRect.
  - apply hil_InvalidateWindow.
  - reflexivity.
  - unfold WM_SetDesktopPattern. destruct (negb _); [|reflexivity].
    now rewrite hil_InvalidateRect.
Qed.

Lemma hilite_keeps s s' l :
  keeps s s' -> (forall x, hil s' x = hil s x) ->
  hilite_inv s l -> hilite_inv s' l.
Proof.
  intros (_ & _ & A) Hh H x Hx. rewrite Hh, A. now apply H.
Qed.

Lemma hilite_Dispose s l1 w l2 :
  wm_ok s (l1 ++ w :: l2) ->
  hilite_inv (WM_DisposeWindow (Some w) s) (l1 ++ l2).
Proof.
  intros ((Hrep & _) & Hh) x Hx.
  pose proof Hrep as ((_ & Hnd & _) & _).
  destruct (Dispose_exact s l1 w l2 Hrep) as (_ & _ & -> & _).
  rewrite (hil_Dispose s l1 w l2 x Hrep).
  assert (x <> w) as Hne.
  { intros ->. apply NoDup_app in Hnd as (_ & Hdisj & Hnd2).
    apply NoDup_cons in Hnd2 as [Hw2 _].
    apply elem_of_app in Hx as [Hx | Hx]; [|contradiction].
    apply (Hdisj w Hx). now left. }
  assert (x ∈ l1 ++ w :: l2) as Hx'.
  { revert Hx. rewrite !elem_of_app, elem_of_cons. tauto. }
  destruct (ptr_eqb (activeWindow s) (Some w)) eqn:Hp; cbn [andb orb].
  - apply ptr_eqb_eq in Hp.
    destruct (hil s x) eqn:Hhx.
    + apply (Hh x Hx') in Hhx. congruence.
    + rewrite orb_false_r. apply ptr_eqb_eq.
  - now apply Hh.
Qed.

Lemma hilite_Select s l1 w l2 :
  wm_ok s (l1 ++ w :: l2) ->
  hilite_inv (WM_SelectWindow (Some w) s) (w :: l1 ++ l2).
Proof.
  intros (Hinv & Hh) x Hx. pose proof Hinv as (Hrep & _).
  assert (x ∈ l1 ++ w :: l2) as Hx'.
  { revert Hx. rewrite elem_of_cons, !elem_of_app, elem_of_cons. tauto. }
  destruct (ptr_eqb (Some w) (topWindow s)) eqn:Hp.
  - unfold WM_SelectWindow. rewrite Hp. now apply Hh.
  - destruct (Select_exact s l1 w l2 Hrep) as (_ & _ & -> & _).
    rewrite Hp, (hil_Select s l1 w l2 x Hinv Hp).
    destruct (Nat.eqb_spec x w) as [-> | Hne]; [tauto|]. cbn [orb].
    destruct (hil s x) eqn:Hhx.
    + apply (Hh x Hx') in Hhx. rewrite Hhx. cbn [ptr_eqb].
      rewrite Nat.eqb_refl. cbn. split; [discriminate | congruence].
    + rewrite andb_false_r. split; [discriminate | congruence].
Qed.

Lemma hilite_SendToBack s l1 w l2 :
  wm_ok s (l1 ++ w :: l2) ->
  hilite_inv (WM_SendToBack (Some w) s) ((l1 ++ l2) ++ [w]).
Proof.
  intros ((Hrep & _) & Hh) x Hx.
  destruct (SendToBack_exact s l1 w l2 Hrep) as (_ & _ & -> & _).
  rewrite hil_SendToBack. apply Hh.
  revert Hx. rewrite !elem_of_app, !elem_of_cons, elem_of_nil. tauto.
Qed.

Lemma hilite_New s l bounds ttl sty flgs w s0 :
  wm_ok s l -> pool_alloc s = (Some w, s0) ->
  hilite_inv (snd (WM_NewWindow bounds ttl sty flgs s)) (w :: l).
Proof.
  intros (Hinv & Hh) E x Hx. pose proof Hinv as (Hrep & _).
  destruct (NewWindow_exact s l bounds ttl sty flgs w s0 Hrep E)
    as (_ & _ & _ & -> & _).
  rewrite (hil_New s l bounds ttl sty flgs w s0 x Hinv E).
  destruct (Nat.eqb_spec x w) as [-> | Hne]; [tauto|]. cbn [orb].
  apply elem_of_cons in Hx as [-> | Hx]; [contradiction|].
  destruct (hil s x) eqn:Hhx.
  - apply (Hh x Hx) in Hhx. rewrite Hhx. cbn [ptr_eqb].
    rewrite Nat.eqb_refl. cbn. split; [discriminate | congruence].
  - rewrite andb_false_r. split; [discriminate | congruence].
Qed.

Lemma wm_ok_Init : wm_ok WM_Init [].
Proof.
  split; [apply wm_inv_Init|]. intros x Hx. now apply elem_of_nil in Hx.
Qed.

Lemma wm_ok_call c s l :
  wm_ok s l -> call_ok c s = true -> exists l', wm_ok (call_apply c s) l'.
Proof.
  intros Hok Hc. pose proof Hok as (Hinv & Hh).
  pose proof Hinv as ((_ & _ & Hlive & _) & _).
  pose proof (call_keeps c s) as Hk.
  pose proof (fun x => hil_call c s x) as Hhc.
  destruct c as [o| | | | | | | | |];
    try (exists l; split;
         [now apply (wm_inv_keeps s) | now apply (hilite_keeps s)]).
  clear Hk Hhc.
  destruct o as [bounds ttl sty flgs | w | w | w];
    cbn [call_apply call_ok zop_apply zop_ok] in *.
  - destruct (pool_alloc s) as [[w|] s0] eqn:E.
    + exists (w :: l). split.
      * now apply (wm_inv_New s l bounds ttl sty flgs w s0).
      * now apply (hilite_New s l bounds ttl sty flgs w s0).
    + exists l. unfold WM_NewWindow. rewrite E. cbn [snd].
      apply pool_alloc_none in E. now subst.
  - apply Hlive, list_elem_of_split in Hc as (l1 & l2 & ->).
    exists (l1 ++ l2).
    split; [apply wm_inv_Dispose; exact Hinv | now apply hilite_Dispose].
  - apply Hlive, list_elem_of_split in Hc as (l1 & l2 & ->).
    exists (w :: l1 ++ l2).
    split; [apply wm_inv_Select; exact Hinv | now apply hilite_Select].
  - apply Hlive, list_elem_of_split in Hc as (l1 & l2 & ->).
    exists ((l1 ++ l2) ++ [w]).
    split; [apply wm_inv_SendToBack; exact Hinv | now apply hilite_SendToBack].
Qed.

Lemma calls_run_ok cs : forall s l s',
  wm_ok s l -> calls_run cs s = Some s' -> exists l', wm_ok s' l'.
Proof.
  induction cs as [|c cs IH]; intros s l s' Hok Hrun;
    cbn [calls_run] in Hrun.
  - injection Hrun as <-. now exists l.
  - destruct (call_ok c s) eqn:Hc; [|discriminate].
    destruct (wm_ok_call c s l Hok Hc) as [l1 H1].
    exact (IH _ l1 s' H1 Hrun).
Qed.

(** X12.  In a reachable state, of the windows of the list exactly the
    active one has the highlight flag set. *)
Theorem active_window_highlighted s l x :
  reachable s -> z_list s = Some l -> x ∈ l ->
  flag_set (flags (win_at s x)) WF_HILITED = true
  <-> WM_GetActiveWindow s = Some x.
Proof.
  intros [cs Hrun] Hl Hx.
  destruct (calls_run_ok cs WM_Init [] s wm_ok_Init Hrun)
    as [l' ((Hrep & _) & Hh)].
  apply zrep_z_list in Hrep.
  assert (l' = l) as -> by congruence.
  exact (Hh x Hx).
Qed.

Lemma active_window_highlighted_witness :
  reachable back_example_state
  /\ z_list back_example_state = Some [1%nat; 0%nat; 2%nat]
  /\ (flag_set (flags (win_at back_example_state 2%nat)) WF_HILITED = true
      <-> WM_GetActiveWindow back_example_state = Some 2%nat).
Proof.
  assert (reachable back_example_state) as R
    by (apply (reachable_zops (z_example_ops ++ [OpSendToBack 2%nat]));
        vm_compute; reflexivity).
  assert (z_list back_example_state = Some [1%nat; 0%nat; 2%nat]) as L
    by (vm_compute; reflexivity).
  split; [exact R|]. split; [exact L|].
  apply (active_window_highlighted _ _ 2%nat R L).
  apply elem_of_cons. right. apply elem_of_cons. right. now left.
Defined.

(** ** Hit testing after a call *)

Lemma vis_or_hilite W :
  flag_set (flags (or_flag WF_HILITED W)) WF_VISIBLE
  = flag_set (flags W) WF_VISIBLE.
Proof.
  destruct W; cbn [flags or_flag set_flags].
  change WF_HILITED with (2 ^ 1). change WF_VISIBLE with (2 ^ 0).
  now rewrite flag_or by lia.
Qed.

Lemma vis_clear_hilite W :
  flag_set (flags (clear_flag WF_HILITED W)) WF_VISIBLE
  = flag_set (flags W) WF_VISIBLE.
Proof.
  destruct W; cbn [flags clear_flag set_flags].
  change WF_HILITED with (2 ^ 1). change WF_VISIBLE with (2 ^ 0).
  now rewrite flag_clear by lia.
Qed.

Lemma hit_part_or_hilite pt W :
  hit_part (or_flag WF_HILITED W) pt = hit_part W pt.
Proof.
  destruct W; unfold hit_part;
    cbn [flags frame titleBar content or_flag set_flags].
  change WF_HILITED with (2 ^ 1). change WF_HAS_CLOSE with (2 ^ 2).
  change WF_HAS_GROW with (2 ^ 3). now rewrite !flag_or by lia.
Qed.

Lemma hit_part_clear_hilite pt W :
  hit_part (clear_flag WF_HILITED W) pt = hit_part W pt.
Proof.
  destruct W; unfold hit_part;
    cbn [flags frame titleBar content clear_flag set_flags].
  change WF_HILITED with (2 ^ 1). change WF_HAS_CLOSE with (2 ^ 2).
  change WF_HAS_GROW with (2 ^ 3). now rewrite !flag_clear by lia.
Qed.

(** X13.  A second click in the same place finds the same thing: when
    [WM_FindWindow] reports a window and [WM_SelectWindow] is then
    called on it, as the mouse-down handler does, [WM_FindWindow] at the
    same point reports the same window and the same part. *)
Theorem FindWindow_after_Select s pt part w :
  reachable s ->
  WM_FindWindow WM_MAX_WINDOWS pt s = Some (part, Some w) ->
  WM_FindWindow WM_MAX_WINDOWS pt (WM_SelectWindow (Some w) s)
  = Some (part, Some w).
Proof.
  intros Hr Hf. destruct (reachable_inv s Hr) as [l Hinv].
  pose proof Hinv as (Hrep & _). pose proof (zrep_z_list s l Hrep) as Hl.
  destruct (FindWindow_facts s l pt Hr Hl) as [E Hres].
  destruct (Hres part w Hf) as (Hin & Hv & Hc & _).
  rewrite E in Hf.
  destruct (y pt <? WM_MENUBAR_H) eqn:Hy; [discriminate|].
  destruct (first_hit s pt l) as [x|] eqn:Hx; [|discriminate].
  injection Hf as Hpart ->.
  apply list_elem_of_split in Hin as (l1 & l2 & ->).
  assert (live s w = true) as Hw.
  { destruct Hrep as (_ & _ & Hlive & _).
    apply Hlive, elem_of_app. right. now left. }
  assert (reachable (WM_SelectWindow (Some w) s)) as Hr'
    by (reach_by (CallZ (OpSelect w)) Hr).
  pose proof (wm_inv_Select s l1 w l2 Hinv) as (Hrep' & _).
  pose proof (zrep_z_list _ _ Hrep') as Hl'.
  destruct (FindWindow_facts _ _ pt Hr' Hl') as [E' _].
  rewrite E', Hy. unfold first_hit. cbn [List.find].
  rewrite (body_Select (fun W => flag_set (flags W) WF_VISIBLE))
    by (intros; first [apply vis_or_hilite | apply vis_clear_hilite
                      | destruct W; reflexivity]).
  rewrite (body_Select frame) by (intros; destruct W; reflexivity).
  rewrite Hv, Hc. cbn [andb].
  rewrite (body_Select (fun W => hit_part W pt))
    by (intros; first [apply hit_part_or_hilite | apply hit_part_clear_hilite
                      | destruct W; reflexivity]).
  now rewrite Hpart.
Qed.

Lemma FindWindow_after_Select_witness :
  reachable z_example_state
  /\ WM_FindWindow WM_MAX_WINDOWS (mkPoint 100 100) z_example_state
     = Some (WM_PART_CONTENT, Some 1%nat)
  /\ WM_FindWindow WM_MAX_WINDOWS (mkPoint 100 100)
       (WM_SelectWindow (Some 1%nat) z_example_state)
     = Some (WM_PART_CONTENT, Some 1%nat).
Proof.
  assert (reachable z_example_state) as R
    by (apply (reachable_zops z_example_ops); vm_compute; reflexivity).
  assert (WM_FindWindow WM_MAX_WINDOWS (mkPoint 100 100) z_example_state
          = Some (WM_PART_CONTENT, Some 1%nat)) as F
    by (vm_compute; reflexivity).
  split; [exact R|]. split; [exact F|].
  exact (FindWindow_after_Select _ _ _ _ R F).
Defined.

(** ** The dirty accumulator in the reachable states *)

Lemma union_entry_ok d c :
  dirty_entry_ok d -> rect_nonempty c = true ->
  rect_inside c screen_rect = true ->
  dirty_entry_ok (mkDirty (rect_union (rect d) c) (valid d)).
Proof.
  intros (Hv & Hn & Hi) Hcn Hci. split; [exact Hv|]. cbn [rect].
  destruct (rect d) as [ta la ba ra], c as [tb lb bb rb].
  unfold rect_union, rect_inside, rect_nonempty, screen_rect in *.
  cbn [top left bottom right] in *.
  split; rect_bools; rect_cases; lia.
Qed.

Lemma dirty_ok_InvalidateRect r s :
  dirty_ok s -> dirty_ok (WM_InvalidateRect r s).
Proof.
  intros (Hl & Hc & He). destruct r as [r|]; [|now split].
  unfold WM_MAX_DIRTY_RECTS in *.
  destruct (rect_nonempty (rect_clip_to_screen r)) eqn:Hne.
  2:{ unfold WM_InvalidateRect. unfold rect_nonempty in Hne.
      apply andb_false_iff in Hne.
      destruct Hne as [Hne | Hne]; apply Z.ltb_ge in Hne;
        [rewrite (leb_true _ _ Hne)
        | rewrite (leb_true _ _ Hne), orb_true_r]; now split. }
  pose proof (clip_inside_screen r Hne) as Hscr.
  rewrite (Invalidate_nonempty _ _ Hne). unfold dirty_ok.
  set (c := rect_clip_to_screen r) in *.
  destruct (dirty_merge (dirtyRects s) c 0 (Z.to_nat (dirtyCount s)))
    as [rs|] eqn:Hm.
  - destruct (dirty_merge_some _ _ _ _ _ Hm) as (k & Hk & ->).
    unfold WM_MAX_DIRTY_RECTS.
    split; [cbn [dirtyRects set_dirtyRects]; now rewrite length_insert|].
    split; [exact Hc|].
    cbn [dirtyCount dirtyRects set_dirtyRects]. intros i Hi.
    destruct (Nat.eq_dec i k) as [-> | Hik].
    + rewrite nth_insert_eq by lia. apply union_entry_ok; auto.
    + rewrite nth_insert_ne by congruence. now apply He.
  - destruct (dirtyCount s <? Z.of_nat WM_MAX_DIRTY_RECTS) eqn:Hlt.
    + apply Z.ltb_lt in Hlt. unfold WM_MAX_DIRTY_RECTS in Hlt |- *.
      cbn [dirtyCount dirtyRects set_dirtyRects set_dirtyCount].
      assert (to_u8 (dirtyCount s + 1) = dirtyCount s + 1) as ->
        by (unfold to_u8; apply Z.mod_small; lia).
      split; [now rewrite length_insert|]. split; [lia|].
      intros i Hi.
      destruct (Nat.eq_dec i (Z.to_nat (dirtyCount s))) as [-> | Hik].
      * rewrite nth_insert_eq by lia. now split.
      * rewrite nth_insert_ne by congruence. apply He. lia.
    + apply Z.ltb_ge in Hlt. unfold WM_MAX_DIRTY_RECTS in Hlt |- *.
      cbn [dirtyCount dirtyRects set_dirtyRects].
      split; [now rewrite length_insert|]. split; [exact Hc|].
      intros i Hi. destruct (Nat.eq_dec i 0%nat) as [-> | Hik].
      * rewrite nth_insert_eq by lia. apply union_entry_ok; auto.
      * rewrite nth_insert_ne by congruence. now apply He.
Qed.

Lemma dirty_ok_InvalidateWindow w s :
  dirty_ok s -> dirty_ok (WM_InvalidateWindow w s).
Proof. destruct w; [apply dirty_ok_InvalidateRect | auto]. Qed.

Lemma dirty_ok_EndUpdate s : dirty_ok s -> dirty_ok (WM_EndUpdate s).
Proof.
  intros (Hl & _). split; [now apply length_EndUpdate|].
  split; [cbn; lia|]. intros i Hi. cbn in Hi. lia.
Qed.

Lemma dirty_ok_upd j f s : dirty_ok s -> dirty_ok (upd_win j f s).
Proof. exact (fun H => H). Qed.

Lemma dirty_ok_set_activeWindow v s :
  dirty_ok s -> dirty_ok (set_activeWindow v s).
Proof. exact (fun H => H). Qed.

Lemma dirty_ok_unlink w s : dirty_ok s -> dirty_ok (zorder_unlink w s).
Proof.
  intros H. unfold zorder_unlink. cbv zeta.
  destruct (above (win_at s w));
    match goal with
    | |- context [match below ?x with _ => _ end] => destruct (below x)
    end; exact H.
Qed.

Lemma dirty_ok_push_top w s : dirty_ok s -> dirty_ok (zorder_push_top w s).
Proof.
  intros H. unfold zorder_push_top. cbv zeta.
  match goal with
  | |- context [match topWindow ?x with _ => _ end] => destruct (topWindow x)
  end;
  match goal with
  | |- context [match bottomWindow ?x with _ => _ end] =>
      destruct (bottomWindow x)
  end; exact H.
Qed.

Lemma dirty_ok_pool_free p s : dirty_ok s -> dirty_ok (pool_free p s).
Proof.
  intros H. unfold pool_free. destruct p; [|exact H].
  destruct (_ <? _); exact H.
Qed.

Lemma dirty_ok_pool_alloc s : dirty_ok s -> dirty_ok (snd (pool_alloc s)).
Proof.
  intros H. unfold pool_alloc. destruct (pool_scan _ _ _); exact H.
Qed.

Ltac dirty_chain :=
  repeat match goal with
         | H : dirty_ok ?s |- dirty_ok ?s => exact H
         | |- dirty_ok (WM_InvalidateRect _ _) => apply dirty_ok_InvalidateRect
         | |- dirty_ok (WM_InvalidateWindow _ _) =>
             apply dirty_ok_InvalidateWindow
         | |- dirty_ok (WM_EndUpdate _) => apply dirty_ok_EndUpdate
         | |- dirty_ok (zorder_unlink _ _) => apply dirty_ok_unlink
         | |- dirty_ok (zorder_push_top _ _) => apply dirty_ok_push_top
         | |- dirty_ok (pool_free _ _) => apply dirty_ok_pool_free
         | |- dirty_ok (upd_win _ _ _) => apply dirty_ok_upd
         | |- dirty_ok (set_activeWindow _ _) =>
             apply dirty_ok_set_activeWindow
         | |- dirty_ok (set_bottomWindow _ ?s) => change (dirty_ok s)
         | |- dirty_ok (set_topWindow _ ?s) => change (dirty_ok s)
         | |- dirty_ok (match ?o with Some _ => _ | None => _ end) =>
             destruct o
         | |- dirty_ok (if ?c then _ else _) => destruct c
         end.

Lemma dirty_ok_call c s : dirty_ok s -> dirty_ok (call_apply c s).
Proof.
  intros H. destruct c as [o| | | | | | | | |]; cbn [call_apply].
  - destruct o as [bounds ttl sty flgs | w | w | w]; cbn [zop_apply].
    + unfold WM_NewWindow. pose proof (dirty_ok_pool_alloc s H) as H0.
      destruct (pool_alloc s) as [[w|] s0]; cbn [snd] in *; [|exact H0].
      cbv zeta. clear H. dirty_chain.
    + unfold WM_DisposeWindow. cbv zeta. dirty_chain.
    + unfold WM_SelectWindow. cbv zeta. dirty_chain.
    + unfold WM_SendToBack. cbv zeta. dirty_chain.
  - unfold WM_ShowWindow. dirty_chain.
  - unfold WM_HideWindow. cbv zeta. dirty_chain.
  - unfold WM_MoveWindow. cbv zeta. dirty_chain.
  - unfold WM_SizeWindow. cbv zeta. dirty_chain.
  - unfold WM_SetTitle. cbv zeta. dirty_chain.
  - dirty_chain.
  - dirty_chain.
  - dirty_chain.
  - unfold WM_SetDesktopPattern. destruct (negb _); [|exact H].
    apply dirty_ok_InvalidateRect. exact H.
Qed.

(** ** Array sizes in the reachable states *)

Lemma titles_upd j f s :
  (forall W, length (title W) = 32%nat -> length (title (f W)) = 32%nat) ->
  titles_ok s -> titles_ok (upd_win j f s).
Proof.
  intros Hf H i. destruct (Nat.eq_dec j i) as [-> | Hne].
  - destruct (Nat.lt_ge_cases i (length (pool s))) as [Hlt | Hge].
    + rewrite win_at_upd_eq by assumption. apply Hf, H.
    + unfold win_at, upd_win. cbn [pool set_pool].
      rewrite list_insert_ge by lia. apply H.
  - rewrite win_at_upd_ne by assumption. apply H.
Qed.

Lemma titles_keeps_call c s :
  match c with
  | CallZ _ => True
  | _ => titles_ok s -> titles_ok (call_apply c s)
  end.
Proof.
  assert (forall r s', titles_ok s' -> titles_ok (WM_InvalidateRect r s'))
    as Hir by (intros r s' H i; rewrite win_at_InvalidateRect; apply H).
  assert (forall w s', titles_ok s' -> titles_ok (WM_InvalidateWindow w s'))
    as Hiw by (intros w s' H i; rewrite win_at_InvalidateWindow; apply H).
  destruct c as [o| | | | | | | | |]; cbn [call_apply]; try exact I; intros H.
  - unfold WM_ShowWindow. destruct (flag_set _ _); [exact H|].
    apply Hiw, titles_upd; [|exact H]. intros W; destruct W; auto.
  - unfold WM_HideWindow. destruct (negb _); [exact H|]. cbv zeta.
    apply Hir, titles_upd; [|exact H]. intros W; destruct W; auto.
  - unfold WM_MoveWindow. cbv zeta. apply Hiw, Hir.
    apply titles_upd;
      [intros W; now rewrite title_compute_window_rects|].
    apply titles_upd; [|exact H]. intros W; destruct W; auto.
  - unfold WM_SizeWindow. cbv zeta. apply Hiw, Hir.
    apply titles_upd;
      [intros W; now rewrite title_compute_window_rects|].
    apply titles_upd; [|exact H]. intros W; destruct W; auto.
  - unfold WM_SetTitle. cbv zeta. apply Hir, titles_upd; [|exact H].
    intros W HW. apply (store_title_holds ttl W HW).
  - now apply Hir.
  - now apply Hiw.
  - exact H.
  - unfold WM_SetDesktopPattern. destruct (negb _); [|exact H].
    apply Hir. exact H.
Qed.

Lemma titles_zop o s :
  length (pool s) = WM_MAX_WINDOWS ->
  titles_ok s -> titles_ok (zop_apply o s).
Proof.
  intros Hlen H i.
  destruct o as [bounds ttl sty flgs | w | w | w]; cbn [zop_apply].
  - destruct (fst (WM_NewWindow bounds ttl sty flgs s)) as [w|] eqn:E.
    + destruct (Nat.eq_dec i w) as [-> | Hne].
      * pose proof (NewWindow_title s bounds ttl sty flgs Hlen) as Ht.
        destruct (WM_NewWindow bounds ttl sty flgs s) as [o s'].
        cbn [fst snd] in *. subst o. apply Ht.
      * rewrite (body_New (fun W => length (title W))) with (w := w);
          auto; intros; destruct W; reflexivity.
    + rewrite NewWindow_fst in E. unfold WM_NewWindow.
      destruct (pool_alloc s) as [o s0] eqn:E0. cbn [fst] in E. subst o.
      apply pool_alloc_none in E0. subst s0. apply H.
  - rewrite (body_Dispose (fun W => length (title W))); auto;
      intros; destruct W; reflexivity.
  - rewrite (body_Select (fun W => length (title W))); auto;
      intros; destruct W; reflexivity.
  - rewrite (body_SendToBack (fun W => length (title W))); auto;
      intros; destruct W; reflexivity.
Qed.

Lemma titles_Init : titles_ok WM_Init.
Proof.
  intros i. unfold win_at. cbn [pool WM_Init].
  now rewrite nth_replicate_same.
Qed.

Lemma dirty_ok_Init : dirty_ok WM_Init.
Proof.
  split; [reflexivity|]. split; [cbn; lia|]. intros i Hi. cbn in Hi. lia.
Qed.

Lemma calls_run_sizes cs : forall s l s',
  wm_inv s l -> titles_ok s -> dirty_ok s -> calls_run cs s = Some s' ->
  titles_ok s' /\ dirty_ok s'.
Proof.
  induction cs as [|c cs IH]; intros s l s' Hinv Ht Hd Hrun;
    cbn [calls_run] in Hrun.
  - injection Hrun as <-. now split.
  - destruct (call_ok c s) eqn:Hc; [|discriminate].
    destruct (wm_inv_call c s l Hinv Hc) as [l1 H1].
    apply (IH _ l1 s' H1); [|now apply dirty_ok_call | exact Hrun].
    pose proof (titles_keeps_call c s) as Hk.
    destruct c as [o| | | | | | | | |]; try (now apply Hk).
    apply titles_zop; [|exact Ht]. apply Hinv.
Qed.

Lemma reachable_sizes s : reachable s -> wm_wf s = true /\ dirty_ok s.
Proof.
  intros Hr. destruct (reachable_inv s Hr) as [l Hinv].
  destruct Hr as [cs Hrun].
  destruct (calls_run_sizes cs WM_Init [] s wm_inv_Init titles_Init
              dirty_ok_Init Hrun) as [Ht Hd].
  split; [|exact Hd]. destruct Hd as (Hdl & _).
  destruct Hinv as (((Hpl & _) & Hul & _) & _).
  unfold wm_wf. rewrite Hpl, Hul, Hdl. cbn [Nat.eqb andb].
  apply forallb_forall. intros W HW. apply Nat.eqb_eq.
  apply In_nth with (d := zero_window) in HW.
  destruct HW as (n & _ & <-). apply Ht.
Qed.

(** X14.  In every reachable state the arrays have the sizes of wm.h
    (16 windows, 16 slot flags, 32 dirty entries, 32 title bytes per
    window), between 0 and 32 dirty entries are pending, and
    [WM_GetDirtyRect] returns for each pending index an entry that is
    marked valid, is not empty and lies on the 320x224 screen, and null
    for every other index. *)
Theorem reachable_well_formed s :
  reachable s ->
  wm_wf s = true
  /\ 0 <= WM_BeginUpdate s <= 32
  /\ (forall i, 0 <= i < WM_BeginUpdate s ->
        exists d, WM_GetDirtyRect i s = Some d /\ dirty_entry_ok d)
  /\ (forall i, WM_BeginUpdate s <= i -> WM_GetDirtyRect i s = None).
Proof.
  intros Hr. destruct (reachable_sizes s Hr) as [Hwf (Hdl & Hdc & Hde)].
  unfold WM_BeginUpdate, WM_GetDirtyRect, WM_MAX_DIRTY_RECTS in *.
  split; [exact Hwf|]. split; [lia|]. split.
  - intros i Hi. rewrite (ltb_true i (dirtyCount s)) by lia.
    eexists. split; [reflexivity|]. apply Hde. lia.
  - intros i Hi. now rewrite (ltb_false i (dirtyCount s)) by lia.
Qed.

Lemma reachable_well_formed_witness :
  reachable z_example_state
  /\ wm_wf z_example_state = true
  /\ 0 <= WM_BeginUpdate z_example_state <= 32.
Proof.
  assert (reachable z_example_state) as R
    by (apply (reachable_zops z_example_ops); vm_compute; reflexivity).
  split; [exact R|].
  destruct (reachable_well_formed _ R) as (Hwf & Hc & _).
  split; [exact Hwf | exact Hc].
Defined.

(** ** Geometry calls *)

Lemma to_i16_add_idem a b : to_i16 (a + to_i16 b) = to_i16 (a + b).
Proof.
  unfold to_i16. f_equal.
  replace (a + ((b + 32768) mod 65536 - 32768) + 32768)
    with (a + (b + 32768) mod 65536) by lia.
  rewrite Z.add_mod_idemp_r by lia. f_equal. lia.
Qed.

Lemma to_i16_small z : is_i16 z -> to_i16 z = z.
Proof. unfold is_i16, to_i16. intros H. rewrite Z.mod_small; lia. Qed.

Lemma frame_compute_window_rects W :
  frame (compute_window_rects W) = frame W.
Proof. unfold compute_window_rects. destruct (_ || _); now destruct W. Qed.

Lemma keeps_z_list s s' : reachable s -> keeps s s' -> z_list s' = z_list s.
Proof.
  intros Hr Hk. destruct (reachable_inv s Hr) as [l Hinv].
  pose proof (wm_inv_keeps s s' l Hk Hinv) as (Hrep' & _).
  destruct Hinv as (Hrep & _).
  now rewrite (zrep_z_list s l Hrep), (zrep_z_list s' l Hrep').
Qed.

Lemma live_pool s w :
  reachable s -> live s w = true -> (w < length (pool s))%nat.
Proof.
  intros Hr Hw. destruct (reachable_inv s Hr) as [l (((Hlen & _) & _) & _)].
  rewrite Hlen. unfold live in Hw. apply andb_true_iff in Hw as [Hw _].
  now apply Nat.ltb_lt.
Qed.

Lemma MoveWindow_facts s w px py :
  reachable s -> live s w = true -> is_i16 px -> is_i16 py ->
  win_at (WM_MoveWindow (Some w) px py s) w
  = compute_window_rects
      (set_frame
         (rect_clip_to_screen
            (mkRect py px
               (to_i16 (py + (bottom (frame (win_at s w))
                              - top (frame (win_at s w)))))
               (to_i16 (px + (right (frame (win_at s w))
                              - left (frame (win_at s w)))))))
         (win_at s w))
  /\ (rect_nonempty (frame (win_at s w)) = true ->
      rect_inside (translate_rect (frame (win_at s w)) px py) screen_rect
      = true ->
      frame (win_at (WM_MoveWindow (Some w) px py s) w)
      = translate_rect (frame (win_at s w)) px py)
  /\ (forall x, x <> w ->
        win_at (WM_MoveWindow (Some w) px py s) x = win_at s x)
  /\ z_list (WM_MoveWindow (Some w) px py s) = z_list s
  /\ WM_GetActiveWindow (WM_MoveWindow (Some w) px py s)
     = WM_GetActiveWindow s
  /\ reachable (WM_MoveWindow (Some w) px py s).
Proof.
  intros Hr Hw Hpx Hpy. pose proof (live_pool s w Hr Hw) as Hlt.
  assert (win_at (WM_MoveWindow (Some w) px py s) w
          = compute_window_rects
              (set_frame
                 (rect_clip_to_screen
                    (mkRect py px
                       (to_i16 (py + (bottom (frame (win_at s w))
                                      - top (frame (win_at s w)))))
                       (to_i16 (px + (right (frame (win_at s w))
                                      - left (frame (win_at s w)))))))
                 (win_at s w))) as E.
  { unfold WM_MoveWindow. cbv zeta.
    rewrite win_at_InvalidateWindow, win_at_InvalidateRect.
    rewrite win_at_upd_eq by (now rewrite pool_length_upd).
    rewrite win_at_upd_eq by assumption.
    rewrite !to_i16_add_idem.
    replace (top (frame (win_at s w)) + (py - top (frame (win_at s w))))
      with py by lia.
    replace (left (frame (win_at s w)) + (px - left (frame (win_at s w))))
      with px by lia.
    replace (bottom (frame (win_at s w)) + (py - top (frame (win_at s w))))
      with (py + (bottom (frame (win_at s w)) - top (frame (win_at s w))))
      by lia.
    replace (right (frame (win_at s w)) + (px - left (frame (win_at s w))))
      with (px + (right (frame (win_at s w)) - left (frame (win_at s w))))
      by lia.
    now rewrite (to_i16_small px), (to_i16_small py). }
  split; [exact E|]. split; [|split; [|split; [|split]]].
  - intros Hne Hin. rewrite E, frame_compute_window_rects. clear E.
    destruct (win_at s w) as [? ? ? [t l b r] ? ? ? ? ? ? ? ? ? ? ?].
    cbn [frame set_frame top left bottom right] in *.
    unfold translate_rect, rect_inside, rect_nonempty, screen_rect,
      WM_SCREEN_W, WM_SCREEN_H, is_i16 in *.
    cbn [top left bottom right] in *. rect_bools.
    rewrite (to_i16_small (py + (b - t))) by (unfold is_i16; lia).
    rewrite (to_i16_small (px + (r - l))) by (unfold is_i16; lia).
    unfold rect_clip_to_screen, WM_SCREEN_W, WM_SCREEN_H.
    cbn [top left bottom right]. rect_cases; f_equal; lia.
  - intros x Hx. unfold WM_MoveWindow. cbv zeta.
    rewrite win_at_InvalidateWindow, win_at_InvalidateRect.
    now rewrite !win_at_upd_ne by congruence.
  - apply keeps_z_list; [exact Hr | apply keeps_Move].
  - apply keeps_Move.
  - reach_by (CallMove w px py) Hr.
Qed.

(** X15.  [WM_MoveWindow] puts the top-left corner of the frame at the
    given point and keeps the size, then cuts the frame to the screen:
    when the frame is not empty and fits on the screen at its new place
    it is the old frame carried over unchanged in size.  The
    title bar and content rectangles are recomputed from the new frame;
    no other window, the window list and the active window change. *)
Theorem MoveWindow_frame s w px py :
  reachable s -> live s w = true -> is_i16 px -> is_i16 py ->
  win_at (WM_MoveWindow (Some w) px py s) w
  = compute_window_rects
      (set_frame
         (rect_clip_to_screen
            (mkRect py px
               (to_i16 (py + (bottom (frame (win_at s w))
                              - top (frame (win_at s w)))))
               (to_i16 (px + (right (frame (win_at s w))
                              - left (frame (win_at s w)))))))
         (win_at s w))
  /\ (rect_nonempty (frame (win_at s w)) = true ->
      rect_inside (translate_rect (frame (win_at s w)) px py) screen_rect
      = true ->
      frame (win_at (WM_MoveWindow (Some w) px py s) w)
      = translate_rect (frame (win_at s w)) px py)
  /\ (forall x, x <> w ->
        win_at (WM_MoveWindow (Some w) px py s) x = win_at s x)
  /\ z_list (WM_MoveWindow (Some w) px py s) = z_list s
  /\ WM_GetActiveWindow (WM_MoveWindow (Some w) px py s)
     = WM_GetActiveWindow s
  /\ reachable (WM_MoveWindow (Some w) px py s).
Proof. exact (MoveWindow_facts s w px py). Qed.

Lemma MoveWindow_frame_witness :
  reachable z_example_state
  /\ live z_example_state 1%nat = true
  /\ frame (win_at z_example_state 1%nat) = mkRect 60 50 180 230
  /\ frame (win_at (WM_MoveWindow (Some 1%nat) 10 30 z_example_state) 1%nat)
     = mkRect 30 10 150 190.
Proof.
  assert (reachable z_example_state) as R
    by (apply (reachable_zops z_example_ops); vm_compute; reflexivity).
  assert (live z_example_state 1%nat = true) as L
    by (vm_compute; reflexivity).
  split; [exact R|]. split; [exact L|]. split; [vm_compute; reflexivity|].
  destruct (MoveWindow_frame z_example_state 1%nat 10 30 R L
              ltac:(unfold is_i16; lia) ltac:(unfold is_i16; lia))
    as (_ & H & _).
  rewrite H; vm_compute; reflexivity.
Defined.

(** X16.  [WM_SizeWindow] keeps the top-left corner of the frame and
    sets its width and height, then cuts the frame to the screen; the
    title bar and content rectangles are recomputed from the new frame;
    no other window, the window list and the active window change. *)
Theorem SizeWindow_frame s w pw ph :
  reachable s -> live s w = true ->
  win_at (WM_SizeWindow (Some w) pw ph s) w
  = compute_window_rects
      (set_frame
         (rect_clip_to_screen
            (mkRect (top (frame (win_at s w))) (left (frame (win_at s w)))
               (to_i16 (top (frame (win_at s w)) + ph))
               (to_i16 (left (frame (win_at s w)) + pw))))
         (win_at s w))
  /\ (forall x, x <> w ->
        win_at (WM_SizeWindow (Some w) pw ph s) x = win_at s x)
  /\ z_list (WM_SizeWindow (Some w) pw ph s) = z_list s
  /\ WM_GetActiveWindow (WM_SizeWindow (Some w) pw ph s)
     = WM_GetActiveWindow s
  /\ reachable (WM_SizeWindow (Some w) pw ph s).
Proof.
  intros Hr Hw. pose proof (live_pool s w Hr Hw) as Hlt.
  split; [|split; [|split; [|split]]].
  - unfold WM_SizeWindow. cbv zeta.
    rewrite win_at_InvalidateWindow, win_at_InvalidateRect.
    rewrite win_at_upd_eq by (now rewrite pool_length_upd).
    now rewrite win_at_upd_eq by assumption.
  - intros x Hx. unfold WM_SizeWindow. cbv zeta.
    rewrite win_at_InvalidateWindow, win_at_InvalidateRect.
    now rewrite !win_at_upd_ne by congruence.
  - apply keeps_z_list; [exact Hr | apply keeps_Size].
  - apply keeps_Size.
  - reach_by (CallSize w pw ph) Hr.
Qed.

Lemma SizeWindow_frame_witness :
  reachable z_example_state
  /\ live z_example_state 1%nat = true
  /\ frame (win_at (WM_SizeWindow (Some 1%nat) 400 50 z_example_state) 1%nat)
     = mkRect 60 50 110 320.
Proof.
  assert (reachable z_example_state) as R
    by (apply (reachable_zops z_example_ops); vm_compute; reflexivity).
  assert (live z_example_state 1%nat = true) as L
    by (vm_compute; reflexivity).
  split; [exact R|]. split; [exact L|].
  rewrite (proj1 (SizeWindow_frame z_example_state 1%nat 400 50 R L)).
  vm_compute. reflexivity.
Defined.

(** ** Visibility calls *)

Lemma vis_Hide s w : vis (WM_HideWindow (Some w) s) w = false.
Proof.
  unfold WM_HideWindow, vis.
  destruct (flag_set (flags (win_at s w)) WF_VISIBLE) eqn:E; cbn [negb];
    [|exact E].
  cbv zeta. rewrite win_at_InvalidateRect.
  destruct (Nat.lt_ge_cases w (length (pool s))) as [Hlt | Hge].
  - rewrite win_at_upd_eq by assumption.
    destruct (win_at s w); cbn [flags clear_flag set_flags].
    change WF_VISIBLE with (2 ^ 0). now rewrite flag_clear by lia.
  - unfold win_at, upd_win. cbn [pool set_pool].
    rewrite list_insert_ge by lia. now rewrite nth_overflow by lia.
Qed.

Lemma vis_Show s w :
  (w < length (pool s))%nat -> vis (WM_ShowWindow (Some w) s) w = true.
Proof.
  intros Hlt. unfold WM_ShowWindow, vis.
  destruct (flag_set (flags (win_at s w)) WF_VISIBLE) eqn:E; [exact E|].
  rewrite win_at_InvalidateWindow, win_at_upd_eq by assumption.
  destruct (win_at s w); cbn [flags or_flag set_flags].
  change WF_VISIBLE with (2 ^ 0). now rewrite flag_or by lia.
Qed.

Lemma keeps_live s s' w : keeps s s' -> live s' w = live s w.
Proof. intros ((_ & _ & _ & Hpu & _) & _). unfold live. now rewrite Hpu. Qed.

(** X17.  [WM_HideWindow] clears the visible flag of the window, after
    which [WM_FindWindow] reports it at no point, and [WM_ShowWindow]
    sets the flag again.  Neither call changes the frame of the window,
    any other window, the window list or the active window. *)
Theorem HideWindow_not_hit s w :
  reachable s -> live s w = true ->
  vis (WM_HideWindow (Some w) s) w = false
  /\ (forall pt part,
        WM_FindWindow WM_MAX_WINDOWS pt (WM_HideWindow (Some w) s)
        <> Some (part, Some w))
  /\ vis (WM_ShowWindow (Some w) (WM_HideWindow (Some w) s)) w = true
  /\ frame (win_at (WM_ShowWindow (Some w) (WM_HideWindow (Some w) s)) w)
     = frame (win_at s w)
  /\ (forall x, x <> w ->
        win_at (WM_ShowWindow (Some w) (WM_HideWindow (Some w) s)) x
        = win_at s x)
  /\ z_list (WM_ShowWindow (Some w) (WM_HideWindow (Some w) s)) = z_list s
  /\ WM_GetActiveWindow (WM_ShowWindow (Some w) (WM_HideWindow (Some w) s))
     = WM_GetActiveWindow s.
Proof.
  intros Hr Hw.
  assert (reachable (WM_HideWindow (Some w) s)) as Hr1
    by (reach_by (CallHide w) Hr).
  pose proof (keeps_Hide w s) as Hk1.
  pose proof (keeps_Show w (WM_HideWindow (Some w) s)) as Hk2.
  assert (live (WM_HideWindow (Some w) s) w = true) as Hw1
    by (now rewrite (keeps_live s _ w Hk1)).
  pose proof (live_pool _ w Hr1 Hw1) as Hlt1.
  split; [apply vis_Hide|]. split; [|split; [|split; [|split; [|split]]]].
  - intros pt part Hf.
    destruct (reachable_inv _ Hr1) as [l (Hrep & _)].
    pose proof (zrep_z_list _ l Hrep) as Hl.
    destruct (FindWindow_facts _ l pt Hr1 Hl) as [_ Hres].
    destruct (Hres part w Hf) as (_ & Hv & _).
    fold (vis (WM_HideWindow (Some w) s) w) in Hv.
    rewrite vis_Hide in Hv. discriminate.
  - now apply vis_Show.
  - unfold WM_ShowWindow, WM_HideWindow.
    repeat match goal with
           | |- context [if ?c then _ else _] => destruct c
           end; cbv zeta;
      rewrite ?win_at_InvalidateWindow, ?win_at_InvalidateRect;
      rewrite ?(proj_upd frame) by (intros W; destruct W; reflexivity);
      rewrite ?win_at_InvalidateWindow, ?win_at_InvalidateRect;
      rewrite ?(proj_upd frame) by (intros W; destruct W; reflexivity);
      reflexivity.
  - intros x Hx. unfold WM_ShowWindow, WM_HideWindow.
    repeat match goal with
           | |- context [if ?c then _ else _] => destruct c
           end; cbv zeta;
      rewrite ?win_at_InvalidateWindow, ?win_at_InvalidateRect;
      rewrite ?win_at_upd_ne by congruence;
      rewrite ?win_at_InvalidateWindow, ?win_at_InvalidateRect;
      rewrite ?win_at_upd_ne by congruence;
      reflexivity.
  - rewrite (keeps_z_list _ _ Hr1 Hk2). now apply keeps_z_list.
  - destruct Hk1 as (_ & _ & A1). destruct Hk2 as (_ & _ & A2).
    unfold WM_GetActiveWindow. congruence.
Qed.

Lemma HideWindow_not_hit_witness :
  reachable z_example_state
  /\ live z_example_state 1%nat = true
  /\ WM_FindWindow WM_MAX_WINDOWS (mkPoint 100 100) z_example_state
     = Some (WM_PART_CONTENT, Some 1%nat)
  /\ WM_FindWindow WM_MAX_WINDOWS (mkPoint 100 100)
       (WM_HideWindow (Some 1%nat) z_example_state)
     <> Some (WM_PART_CONTENT, Some 1%nat).
Proof.
  assert (reachable z_example_state) as R
    by (apply (reachable_zops z_example_ops); vm_compute; reflexivity).
  assert (live z_example_state 1%nat = true) as L
    by (vm_compute; reflexivity).
  split; [exact R|]. split; [exact L|]. split; [vm_compute; reflexivity|].
  exact (proj1 (proj2 (HideWindow_not_hit _ _ R L)) _ _).
Defined.

(** ** The desktop pattern *)

(** X18.  [WM_SetDesktopPattern] with the pattern already set changes
    nothing.  With another pattern, in a reachable state, it stores the
    pattern and invalidates the desktop: a pending dirty entry covers
    the whole screen below the menu bar, what was pending stays
    covered, and the windows, the window list and the active window
    are untouched; calling it again with the same pattern changes
    nothing more. *)
Theorem SetDesktopPattern_invalidates s p :
  reachable s ->
  (p = desktopPattern s -> WM_SetDesktopPattern p s = s)
  /\ (p <> desktopPattern s ->
      desktopPattern (WM_SetDesktopPattern p s) = p
      /\ dirty_covers (WM_SetDesktopPattern p s) desktop_rect
      /\ dirty_grows s (WM_SetDesktopPattern p s))
  /\ pool (WM_SetDesktopPattern p s) = pool s
  /\ z_list (WM_SetDesktopPattern p s) = z_list s
  /\ WM_GetActiveWindow (WM_SetDesktopPattern p s) = WM_GetActiveWindow s
  /\ WM_SetDesktopPattern p (WM_SetDesktopPattern p s)
     = WM_SetDesktopPattern p s
  /\ reachable (WM_SetDesktopPattern p s).
Proof.
  intros Hr. destruct (reachable_sizes s Hr) as [Hwf (_ & Hdc & _)].
  assert (forall r s', desktopPattern (WM_InvalidateRect r s')
                       = desktopPattern s') as Hdp.
  { intros r s'. unfold WM_InvalidateRect. destruct r as [r|]; [|reflexivity].
    destruct (_ || _); [reflexivity|].
    destruct (dirty_merge _ _ _ _); [reflexivity|].
    now destruct (_ <? _). }
  split; [|split; [|split; [|split; [|split; [|split]]]]].
  - intros ->. unfold WM_SetDesktopPattern. now rewrite Z.eqb_refl.
  - intros Hne. unfold WM_SetDesktopPattern.
    rewrite (proj2 (Z.eqb_neq p (desktopPattern s)) Hne). cbn [negb].
    split; [now rewrite Hdp|].
    destruct (InvalidateRect_facts (set_desktopPattern p s) desktop_rect
                Hwf Hdc) as (_ & _ & Hg & Hc).
    split; [apply Hc; reflexivity | exact Hg].
  - unfold WM_SetDesktopPattern. destruct (negb _); [|reflexivity].
    now rewrite pool_InvalidateRect.
  - apply keeps_z_list; [exact Hr | apply keeps_SetDesktopPattern].
  - apply keeps_SetDesktopPattern.
  - destruct (negb (p =? desktopPattern s)) eqn:E.
    + assert (WM_SetDesktopPattern p s
              = WM_InvalidateRect (Some desktop_rect)
                  (set_desktopPattern p s)) as Hs
        by (unfold WM_SetDesktopPattern; now rewrite E).
      rewrite Hs. unfold WM_SetDesktopPattern. rewrite Hdp.
      cbn [desktopPattern set_desktopPattern]. now rewrite Z.eqb_refl.
    + assert (WM_SetDesktopPattern p s = s) as Hs
        by (unfold WM_SetDesktopPattern; now rewrite E).
      rewrite Hs. exact Hs.
  - reach_by (CallSetDesktopPattern p) Hr.
Qed.

Lemma SetDesktopPattern_invalidates_witness :
  reachable z_example_state
  /\ dirty_covers (WM_SetDesktopPattern 2 z_example_state) desktop_rect.
Proof.
  assert (reachable z_example_state) as R
    by (apply (reachable_zops z_example_ops); vm_compute; reflexivity).
  split; [exact R|].
  apply (proj1 (proj2 (SetDesktopPattern_invalidates z_example_state 2 R))).
  vm_compute. discriminate.
Defined.

(** * The two processors: properties *)

(** ** Single-token runs *)

Section SingleToken.
Context {A B : Type} (E : Env).
Implicit Types (s f : Sys A B) (turns sched : list Agent).

Lemma run_app sched1 sched2 s :
  run E (sched1 ++ sched2) s = run E sched2 (run E sched1 s).
Proof. unfold run. apply fold_left_app. Qed.

Lemma run_cons a sched s : run E (a :: sched) s = run E sched (step E a s).
Proof. reflexivity. Qed.

Lemma leads_final s turns f : leads E s turns f -> f = run E turns s.
Proof.
  induction 1 as [s H | s a turns f H Hl IH]; [reflexivity|].
  rewrite run_cons. exact IH.
Qed.

Lemma leads_stuck f turns s : leads E s turns f -> forall a, step E a f = f.
Proof. induction 1; auto. Qed.

(** Whatever the schedule, the machine is somewhere on the path, and a
    turn whose agent was scheduled has been taken. *)
Lemma leads_run sched : forall s turns f,
  leads E s turns f ->
  exists pre post,
    turns = pre ++ post
    /\ run E sched s = run E pre s
    /\ leads E (run E sched s) post f
    /\ (forall a t, turns = a :: t -> a ∈ sched -> pre <> []).
Proof.
  induction sched as [|b sched IH]; intros s turns f Hl.
  - exists [], turns.
    split; [reflexivity|]. split; [reflexivity|]. split; [assumption|].
    intros a t _ Hin. now apply elem_of_nil in Hin.
  - rewrite run_cons. destruct Hl as [s Hst | s a t f Hst Hl'].
    + rewrite Hst.
      destruct (IH s [] s (leads_nil E s Hst))
        as (pre & post & Hp & Hr & Hl2 & _).
      exists pre, post. split; [assumption|]. split; [assumption|].
      split; [assumption|]. intros; discriminate.
    + destruct (decide (b = a)) as [-> | Hne].
      * destruct (IH _ _ _ Hl') as (pre & post & Hp & Hr & Hl2 & _).
        exists (a :: pre), post. subst t.
        split; [reflexivity|]. split; [assumption|]. split; [assumption|].
        intros; discriminate.
      * rewrite (Hst b Hne).
        destruct (IH _ _ _ (leads_cons E s a t f Hst Hl'))
          as (pre & post & Hp & Hr & Hl2 & Hprog).
        exists pre, post.
        split; [assumption|]. split; [assumption|]. split; [assumption|].
        intros a' t' [= <- <-] Hin. apply (Hprog a t eq_refl).
        apply elem_of_cons in Hin as [-> | Hin]; [|assumption].
        contradiction.
Qed.

(** Under any schedule made of enough fair rounds the run reaches the
    end of the path: no busy-wait goes round for ever. *)
Lemma leads_fair rounds : forall s turns f,
  leads E s turns f ->
  Forall fair_round rounds ->
  (length turns <= length rounds)%nat ->
  run E (concat rounds) s = f.
Proof.
  induction rounds as [|r rounds IH]; intros s turns f Hl Hfair Hlen.
  - destruct Hl; [reflexivity | cbn in Hlen; lia].
  - apply Forall_cons in Hfair as [Hr Hfair].
    cbn [concat]. rewrite run_app.
    destruct (leads_run r s turns f Hl) as (pre & post & Hp & _ & Hl2 & Hprog).
    apply (IH _ post f Hl2 Hfair).
    destruct turns as [|a t].
    + destruct pre; [|discriminate]. cbn in Hp. subst post. cbn. lia.
    + assert (pre <> []) as Hne.
      { apply (Hprog a t eq_refl). destruct Hr as (Hm & Hs & Hh).
        destruct a; assumption. }
      assert (length (a :: t) = length pre + length post)%nat as Hsum
        by (rewrite Hp; apply length_app).
      destruct pre; [contradiction|]. cbn in Hsum, Hlen. lia.
Qed.

Lemma trace_step a s : exists o, trace (step E a s) = trace s ++ o.
Proof.
  destruct a; cbn.
  - destruct (exec E Main (ga s) (ncalls s) (mainp s)) as [[[[g n] o] p]|];
      [exists o; reflexivity | exists []; now rewrite app_nil_r].
  - destruct (exec E Sub (ga s) (ncalls s) (subp s)) as [[[[g n] o] p]|];
      [exists o; reflexivity | exists []; now rewrite app_nil_r].
  - destruct (_ =? _); [exists []; now rewrite app_nil_r|].
    eexists; reflexivity.
Qed.

Lemma trace_run sched : forall s, exists o, trace (run E sched s) = trace s ++ o.
Proof.
  induction sched as [|a sched IH]; intros s.
  - exists []. cbn. now rewrite app_nil_r.
  - rewrite run_cons. destruct (IH (step E a s)) as [o1 H1].
    destruct (trace_step a s) as [o2 H2].
    exists (o2 ++ o1). now rewrite H1, H2, app_assoc.
Qed.

(** What any schedule has let happen is a beginning of what the whole
    path does. *)
Lemma leads_trace s turns f sched :
  leads E s turns f ->
  exists rest, trace f = trace (run E sched s) ++ rest.
Proof.
  intros Hl.
  destruct (leads_run sched s turns f Hl) as (pre & post & Hp & _ & Hl2 & _).
  apply leads_final in Hl2. rewrite Hl2. apply trace_run.
Qed.
End SingleToken.

(** ** The dispatcher: unrecognized opcodes *)

Lemma dispatch_default fuel cmd l :
  has_case cmd = false -> dispatch fuel cmd l = (sub_error ;;; Ret l).
Proof.
  unfold has_case. rewrite !orb_false_iff.
  intros [[[[[[H1 H2] H3] H4] H5] H6] H7].
  unfold dispatch. now rewrite H1, H2, H3, H4, H5, H6, H7.
Qed.

Lemma process_command_default fuel cmd l :
  has_case cmd = false -> process_command fuel cmd l = error_path l.
Proof.
  unfold has_case. rewrite !orb_false_iff.
  intros [[[[[[H1 H2] H3] H4] H5] H6] H7].
  unfold process_command, dispatch. rewrite H1, H2, H3, H4, H5, H6, H7.
  reflexivity.
Qed.

Lemma to_u8_small z : 0 <= z < 256 -> to_u8 z = z.
Proof. intros H. unfold to_u8. now apply Z.mod_small. Qed.

(** One turn of a single-token run: every other agent's step leaves the
    state alone, then the state after the turn is computed. *)
Ltac others_wait tac :=
  let b := fresh "b" in
  let Hb := fresh "Hb" in
  intros b Hb; destruct b; try congruence; cbn; tac; reflexivity.

Ltac is_pos_lit p :=
  lazymatch p with
  | xH => idtac
  | xO ?q => is_pos_lit q
  | xI ?q => is_pos_lit q
  end.

Ltac is_Z_lit z :=
  lazymatch z with
  | Z0 => idtac
  | Zpos ?p => is_pos_lit p
  | Zneg ?p => is_pos_lit p
  end.

(** Evaluate the truncations of literal values. *)
Ltac norm_trunc f :=
  repeat match goal with
         | |- context [f ?c] =>
             let c' := eval hnf in c in
             is_Z_lit c';
             let v := eval vm_compute in (f c) in
             progress change (f c) with v
         end.

Ltac norm_flags := norm_trunc to_u8; norm_trunc to_u16.

Ltac turn_with a tac :=
  apply (leads_cons _ _ a); [others_wait tac | cbn; norm_flags; tac].

Ltac turn a := turn_with a idtac.

Ltac halt := apply leads_nil; intros []; reflexivity.

Lemma unknown_leads E fuel l cmd p0 p1 p2 p3 :
  0 < cmd < 256 -> has_case cmd = false ->
  leads E (handshake_sys fuel l cmd p0 p1 p2 p3) unknown_turns
    (unknown_final l cmd p0 p1 p2 p3).
Proof.
  intros Hc Hn.
  assert ((cmd =? CMD_NONE) = false) as Hc0
    by (apply Z.eqb_neq; unfold CMD_NONE; lia).
  unfold handshake_sys, boot, main_command, sub_main_turn, unknown_turns.
  turn Main. turn Main. turn Main. turn Main. turn Main. turn Main.
  rewrite (to_u8_small cmd) by lia.
  turn_with Sub ltac:(rewrite ?Hc0; cbn).
  rewrite (dispatch_default fuel cmd l Hn). cbn.
  turn_with Sub ltac:(rewrite ?Hc0; cbn).
  turn_with Sub ltac:(rewrite ?Hc0; cbn).
  turn_with Main ltac:(rewrite ?Hc0; cbn).
  turn_with Main ltac:(rewrite ?Hc0; cbn).
  turn Sub. turn Sub. turn Main. turn Main.
  halt.
Qed.

Lemma cfs_writes_app t1 t2 :
  cfs_writes (t1 ++ t2) = cfs_writes t1 ++ cfs_writes t2.
Proof. apply omap_app. Qed.

Lemma fair_round_robin n : Forall fair_round (round_robin n).
Proof.
  apply Forall_replicate. unfold fair_round.
  split; [|split]; repeat constructor.
Qed.

(** C7: an opcode with no case in the switch takes the error path.  The
    dispatcher's program for it is: store Busy, store Error, wait until
    the front flag reads None, store Idle.  When the Main CPU sends such
    an opcode and waits for completion, no schedule makes the Sub CPU
    store Done, and after 15 fair rounds of any schedule the handshake
    is over: the Main CPU has the status Error, the Sub CPU is back to
    Idle at the top of its loop, having seen the front flag cleared
    before it stored Idle. *)
Theorem unknown_opcode_error E fuel l cmd p0 p1 p2 p3 :
  has_case cmd = false ->
  process_command fuel cmd l = error_path l
  /\ (0 < cmd < 256 ->
      (forall sched,
          STATUS_DONE ∉
            cfs_writes (trace (run E sched (handshake_sys fuel l cmd p0 p1 p2 p3))))
      /\ (forall rounds,
            Forall fair_round rounds -> (15 <= length rounds)%nat ->
            run E (concat rounds) (handshake_sys fuel l cmd p0 p1 p2 p3)
            = unknown_final l cmd p0 p1 p2 p3)).
Proof.
  intros Hn. split; [now apply process_command_default|].
  intros Hc. pose proof (unknown_leads E fuel l cmd p0 p1 p2 p3 Hc Hn) as Hl.
  split.
  - intros sched Hin.
    destruct (leads_trace E _ _ _ sched Hl) as [rest Hrest].
    assert (STATUS_DONE ∈ cfs_writes (trace (unknown_final l cmd p0 p1 p2 p3)))
      as Hf.
    { rewrite Hrest, cfs_writes_app. apply elem_of_app. now left. }
    cbn in Hf. repeat (apply elem_of_cons in Hf as [Hf|Hf]; [discriminate|]).
    now apply elem_of_nil in Hf.
  - intros rounds Hfair Hlen. now apply (leads_fair E rounds _ unknown_turns).
Qed.

Lemma unknown_opcode_error_witness :
  has_case CMD_DRAW_TEXT = false
  /\ run quiet_env (concat (round_robin 15))
       (handshake_sys 16 sub_boot_state CMD_DRAW_TEXT 1 2 3 4)
     = unknown_final sub_boot_state CMD_DRAW_TEXT 1 2 3 4.
Proof.
  split; [reflexivity|].
  apply (proj2 (unknown_opcode_error quiet_env 16 sub_boot_state
                  CMD_DRAW_TEXT 1 2 3 4 eq_refl)).
  - unfold CMD_DRAW_TEXT. lia.
  - apply fair_round_robin.
  - unfold round_robin. rewrite length_replicate. lia.
Defined.

Arguments WM_NewWindow : simpl never.
Arguments WM_DisposeWindow : simpl never.
Arguments WM_GetWindowById : simpl never.
Arguments WM_EndUpdate : simpl never.
Arguments WM_GetDirtyRect : simpl never.

(** * The two processors: further properties *)

Arguments cstr : simpl never.

(** A path all of whose turns the rounds of a fair schedule let
    happen. *)
Lemma leads_after {A B : Type} E rounds (s f : Sys A B) turns :
  leads E s turns f -> Forall fair_round rounds ->
  (length turns <= length rounds)%nat -> after E rounds s = f.
Proof. intros Hl Hf Hlen. now apply (leads_fair E rounds s turns). Qed.

(** ** Window commands *)

Lemma open_window_leads E fuel l p0 p1 p2 p3 :
  exists f,
    leads E (handshake_sys fuel l CMD_OPEN_WINDOW p0 p1 p2 p3)
      (replicate 6 Main ++ replicate 8 Sub
       ++ [Main; Main; Sub; Sub; Main; Main]) f
    /\ mainp f
       = Ret (STATUS_DONE,
              to_u16 match fst (open_window_call l p0 p1 p2 p3) with
                     | Some w =>
                         id (win_at (snd (open_window_call l p0 p1 p2 p3)) w)
                     | None => 0xFF
                     end)
    /\ subp f = Ret (set_wm (snd (open_window_call l p0 p1 p2 p3)) l)
    /\ cfs_writes (trace f) = [STATUS_BUSY; STATUS_DONE; STATUS_IDLE]
    /\ calls_of (trace f) = []
    /\ cfm (ga f) = CMD_NONE /\ cfs (ga f) = STATUS_IDLE.
Proof.
  eexists. split.
  - unfold handshake_sys, boot, main_command, sub_main_turn.
    cbn [replicate app].
    turn Main. turn Main. turn Main. turn Main. turn Main. turn Main.
    turn Sub. turn Sub. turn Sub. turn Sub. turn Sub. turn Sub.
    fold (open_window_bounds p0 p1 p2 p3).
    fold (open_window_call l p0 p1 p2 p3).
    turn Sub. turn Sub. turn Main. turn Main. turn Sub. turn Sub.
    turn Main. turn Main.
    halt.
  - cbn. repeat split; reflexivity.
Qed.

(** X19.  The open-window command, end to end.  When the Main CPU sends
    [CMD_OPEN_WINDOW] with x, y, width and height and waits, then after
    20 fair rounds of any schedule the handshake is over: the Sub CPU
    has called [WM_NewWindow] once with the bounds made of the four
    registers, title Untitled, document style, visible; it has stored
    Busy, Done and Idle in this order and called no collaborator; the
    Main CPU holds status Done and, from result register 0, the new
    window's id, or 0xFF when no window was made.  In a reachable
    window manager the id is the lowest free pool slot, and 0xFF comes
    back exactly when 16 windows are open. *)
Theorem open_window_handshake E fuel l p0 p1 p2 p3 rounds :
  Forall fair_round rounds -> (20 <= length rounds)%nat ->
  mainp (after E rounds (handshake_sys fuel l CMD_OPEN_WINDOW p0 p1 p2 p3))
  = Ret (STATUS_DONE,
         to_u16 match fst (open_window_call l p0 p1 p2 p3) with
                | Some w => id (win_at (snd (open_window_call l p0 p1 p2 p3)) w)
                | None => 0xFF
                end)
  /\ subp (after E rounds (handshake_sys fuel l CMD_OPEN_WINDOW p0 p1 p2 p3))
     = Ret (set_wm (snd (open_window_call l p0 p1 p2 p3)) l)
  /\ cfs_writes
       (trace (after E rounds
                 (handshake_sys fuel l CMD_OPEN_WINDOW p0 p1 p2 p3)))
     = [STATUS_BUSY; STATUS_DONE; STATUS_IDLE]
  /\ calls_of
       (trace (after E rounds
                 (handshake_sys fuel l CMD_OPEN_WINDOW p0 p1 p2 p3)))
     = []
  /\ (reachable (wm l) ->
      match fst (open_window_call l p0 p1 p2 p3) with
      | Some w =>
          first_free (wm l) w
          /\ mainp (after E rounds
                      (handshake_sys fuel l CMD_OPEN_WINDOW p0 p1 p2 p3))
             = Ret (STATUS_DONE, Z.of_nat w)
      | None =>
          WM_GetWindowCount (wm l) = Z.of_nat WM_MAX_WINDOWS
          /\ mainp (after E rounds
                      (handshake_sys fuel l CMD_OPEN_WINDOW p0 p1 p2 p3))
             = Ret (STATUS_DONE, 0xFF)
      end).
Proof.
  intros Hfair Hlen.
  destruct (open_window_leads E fuel l p0 p1 p2 p3)
    as (f & Hl & Hm & Hs & Hw & Hc & _).
  rewrite (leads_after E rounds _ f _ Hl Hfair)
    by (cbn [replicate app length]; lia).
  split; [exact Hm|]. split; [exact Hs|]. split; [exact Hw|].
  split; [exact Hc|]. intros Hr. rewrite Hm.
  destruct (reachable_inv _ Hr) as [zl (Hrep & _)].
  pose proof (zrep_z_list _ _ Hrep) as Hzl.
  destruct (NewWindow_facts (wm l) zl (open_window_bounds p0 p1 p2 p3)
              (Some (cstr "Untitled"%string)) WM_STYLE_DOCUMENT WF_VISIBLE
              Hr Hzl) as [Hnone Hsome].
  fold (open_window_call l p0 p1 p2 p3) in Hnone, Hsome.
  destruct (fst (open_window_call l p0 p1 p2 p3)) as [w|] eqn:E1.
  - destruct (Hsome w eq_refl) as (Hfree & Hr' & Hzl' & _).
    split; [exact Hfree|].
    destruct (reachable_list _ _ Hr' Hzl') as ((_ & _ & _ & Hid) & _).
    rewrite (Hid w) by (now left).
    destruct Hfree as (Hw16 & _). unfold WM_MAX_WINDOWS in Hw16.
    do 2 f_equal. unfold to_u16. apply Z.mod_small. lia.
  - split; [now apply Hnone | reflexivity].
Qed.

Lemma open_window_handshake_witness :
  mainp (after quiet_env (round_robin 20)
           (handshake_sys 16 sub_boot_state CMD_OPEN_WINDOW 40 50 100 80))
  = Ret (STATUS_DONE, 0).
Proof.
  rewrite (proj1 (open_window_handshake quiet_env 16 sub_boot_state
                    40 50 100 80 (round_robin 20) (fair_round_robin 20)
                    ltac:(unfold round_robin; rewrite length_replicate; lia))).
  vm_compute. reflexivity.
Defined.

Lemma close_window_leads E fuel l p0 p1 p2 p3 :
  exists f,
    leads E (handshake_sys fuel l CMD_CLOSE_WINDOW p0 p1 p2 p3)
      (replicate 6 Main ++ replicate 5 Sub
       ++ [Main; Main; Sub; Sub; Main; Main]) f
    /\ mainp f
       = Ret (STATUS_DONE,
              match WM_GetWindowById (to_u8 (to_u16 p0)) (wm l) with
              | Some _ => 0
              | None => 0xFF
              end)
    /\ subp f
       = Ret match WM_GetWindowById (to_u8 (to_u16 p0)) (wm l) with
             | Some w => set_wm (WM_DisposeWindow (Some w) (wm l)) l
             | None => l
             end
    /\ cfs_writes (trace f) = [STATUS_BUSY; STATUS_DONE; STATUS_IDLE]
    /\ calls_of (trace f) = [].
Proof.
  destruct (WM_GetWindowById (to_u8 (to_u16 p0)) (wm l)) as [w|] eqn:Hid.
  - eexists. split.
    + unfold handshake_sys, boot, main_command, sub_main_turn.
      cbn [replicate app].
      turn Main. turn Main. turn Main. turn Main. turn Main. turn Main.
      turn Sub. turn Sub. turn Sub. rewrite Hid.
      turn Sub. turn Sub. turn Main. turn Main. turn Sub. turn Sub.
      turn Main. turn Main.
      halt.
    + cbn. repeat split; reflexivity.
  - eexists. split.
    + unfold handshake_sys, boot, main_command, sub_main_turn.
      cbn [replicate app].
      turn Main. turn Main. turn Main. turn Main. turn Main. turn Main.
      turn Sub. turn Sub. turn Sub. rewrite Hid.
      turn Sub. turn Sub. turn Main. turn Main. turn Sub. turn Sub.
      turn Main. turn Main.
      halt.
    + cbn. repeat split; reflexivity.
Qed.

(** X20.  The close-window command, end to end.  When the Main CPU
    sends [CMD_CLOSE_WINDOW] with a window id and waits, then after 17
    fair rounds of any schedule the handshake is over with status Done
    whether or not the id named a window: result register 0 reads 0 and
    the window has been disposed of when [WM_GetWindowById] accepted the
    low byte of the id, and reads 0xFF with the window manager untouched
    when it did not.  In a reachable window manager the id of a window
    of the list takes exactly that window out of the list. *)
Theorem close_window_handshake E fuel l p0 p1 p2 p3 rounds :
  Forall fair_round rounds -> (17 <= length rounds)%nat ->
  mainp (after E rounds (handshake_sys fuel l CMD_CLOSE_WINDOW p0 p1 p2 p3))
  = Ret (STATUS_DONE,
         match WM_GetWindowById (to_u8 (to_u16 p0)) (wm l) with
         | Some _ => 0
         | None => 0xFF
         end)
  /\ subp (after E rounds (handshake_sys fuel l CMD_CLOSE_WINDOW p0 p1 p2 p3))
     = Ret match WM_GetWindowById (to_u8 (to_u16 p0)) (wm l) with
           | Some w => set_wm (WM_DisposeWindow (Some w) (wm l)) l
           | None => l
           end
  /\ cfs_writes
       (trace (after E rounds
                 (handshake_sys fuel l CMD_CLOSE_WINDOW p0 p1 p2 p3)))
     = [STATUS_BUSY; STATUS_DONE; STATUS_IDLE]
  /\ (forall l1 w l2,
        reachable (wm l) -> z_list (wm l) = Some (l1 ++ w :: l2) ->
        p0 = Z.of_nat w ->
        exists l',
          subp (after E rounds
                  (handshake_sys fuel l CMD_CLOSE_WINDOW p0 p1 p2 p3))
          = Ret l'
          /\ z_list (wm l') = Some (l1 ++ l2)
          /\ mainp (after E rounds
                      (handshake_sys fuel l CMD_CLOSE_WINDOW p0 p1 p2 p3))
             = Ret (STATUS_DONE, 0)).
Proof.
  intros Hfair Hlen.
  destruct (close_window_leads E fuel l p0 p1 p2 p3)
    as (f & Hl & Hm & Hs & Hw & _).
  rewrite (leads_after E rounds _ f _ Hl Hfair)
    by (cbn [replicate app length]; lia).
  split; [exact Hm|]. split; [exact Hs|]. split; [exact Hw|].
  intros l1 w l2 Hr Hzl ->. rewrite Hm, Hs.
  pose proof (reachable_list _ _ Hr Hzl) as Hinv.
  pose proof Hinv as (((_ & _ & Hb & _) & _ & Hlive & _) & _).
  assert (w ∈ l1 ++ w :: l2) as Hin by (apply elem_of_app; right; now left).
  assert (w < 16)%nat as Hw16 by (now apply Hb).
  assert (to_u8 (to_u16 (Z.of_nat w)) = Z.of_nat w) as ->.
  { unfold to_u8, to_u16.
    rewrite (Z.mod_small (Z.of_nat w) 65536) by lia.
    apply Z.mod_small. lia. }
  rewrite (proj2 (GetWindowById_live (wm l) (Z.of_nat w) w ltac:(lia))
             (conj eq_refl (proj1 (Hlive w) Hin))).
  eexists. split; [reflexivity|]. split; [|reflexivity].
  cbn [wm set_wm]. apply zrep_z_list. now apply wm_inv_Dispose.
Qed.

Lemma close_window_handshake_witness :
  mainp (after quiet_env (round_robin 17)
           (handshake_sys 16 sub_boot_state CMD_CLOSE_WINDOW 3 0 0 0))
  = Ret (STATUS_DONE, 0xFF).
Proof.
  rewrite (proj1 (close_window_handshake quiet_env 16 sub_boot_state
                    3 0 0 0 (round_robin 17) (fair_round_robin 17)
                    ltac:(unfold round_robin; rewrite length_replicate; lia))).
  vm_compute. reflexivity.
Defined.

(** ** Rendering *)

(** A turn around the bank-control register: its bits are literals. *)
Ltac eval_closed t :=
  let v := eval vm_compute in t in
  is_Z_lit v; progress change t with v.

Ltac norm_bits :=
  repeat match goal with
         | |- context [to_u16 (Z.lor ?a ?b)] => eval_closed (to_u16 (Z.lor a b))
         | |- context [to_u8 (Z.shiftr ?a ?b)] =>
             eval_closed (to_u8 (Z.shiftr a b))
         | |- context [Z.lor ?a ?b] => eval_closed (Z.lor a b)
         | |- context [Z.land ?a ?b] => eval_closed (Z.land a b)
         end.

Ltac mem_lits :=
  unfold MEM_MODE_RET, MEM_MODE_DMNA, MEM_MODE_1M, hw_swap; cbn;
  norm_bits; cbn.

Ltac mturn a := turn_with a mem_lits.

Lemma render_idle_leads E fuel l p0 p1 p2 p3 :
  WM_BeginUpdate (wm l) = 0 ->
  exists f turns,
    leads E (handshake_sys fuel l CMD_RENDER_FRAME p0 p1 p2 p3) turns f
    /\ (length turns <= 27)%nat
    /\ mainp f = Ret (STATUS_DONE, SUB_STATE_READY)
    /\ subp f = Ret (set_wm (WM_EndUpdate (wm l)) l)
    /\ calls_of (trace f)
       = [BLT_ResetClip; MenuBar_Draw; MenuBar_IsTracking]
         ++ (if to_u8 (answer E 2) =? 0 then [] else [MenuBar_DrawDropdown])
         ++ [BLT_BlitBitmap1 (cursorX l) (cursorY l)]
    /\ cfs_writes (trace f) = [STATUS_BUSY; STATUS_DONE; STATUS_IDLE]
    /\ main_bank f = 1%nat /\ sub_bank f = 0%nat
    /\ mem_mode (ga f) = MEM_MODE_1M.
Proof.
  intros H0.
  destruct (to_u8 (answer E 2) =? 0) eqn:Ht.
  - eexists. exists (replicate 6 Main ++ replicate 10 Sub ++ [Hardware]
                     ++ [Sub; Sub; Sub; Main; Main; Sub; Sub; Main; Main]).
    split.
    + unfold handshake_sys, boot, main_command, sub_main_turn.
      cbn [replicate app].
      turn Main. turn Main. turn Main. turn Main. turn Main. turn Main.
      turn Sub. turn Sub. turn Sub. rewrite H0.
      turn Sub. change (Z.to_nat 0) with 0%nat. cbn [render_rects bind].
      turn Sub. turn Sub. turn Sub. rewrite Ht.
      turn Sub. mturn Sub. mturn Sub.
      mturn Hardware.
      mturn Sub. mturn Sub. mturn Sub. mturn Main. mturn Main.
      mturn Sub. mturn Sub. mturn Main. mturn Main.
      apply leads_nil; intros []; cbn; reflexivity.
    + cbn. repeat split; try reflexivity; try lia.
  - eexists. exists (replicate 6 Main ++ replicate 11 Sub ++ [Hardware]
                     ++ [Sub; Sub; Sub; Main; Main; Sub; Sub; Main; Main]).
    split.
    + unfold handshake_sys, boot, main_command, sub_main_turn.
      cbn [replicate app].
      turn Main. turn Main. turn Main. turn Main. turn Main. turn Main.
      turn Sub. turn Sub. turn Sub. rewrite H0.
      turn Sub. change (Z.to_nat 0) with 0%nat. cbn [render_rects bind].
      turn Sub. turn Sub. turn Sub. rewrite Ht.
      turn Sub. turn Sub. mturn Sub. mturn Sub.
      mturn Hardware.
      mturn Sub. mturn Sub. mturn Sub. mturn Main. mturn Main.
      mturn Sub. mturn Sub. mturn Main. mturn Main.
      apply leads_nil; intros []; cbn; reflexivity.
    + cbn. repeat split; try reflexivity; try lia.
Qed.

(** X21.  A render command with nothing pending, end to end.  When no
    dirty rectangle is pending and the Main CPU sends
    [CMD_RENDER_FRAME] and waits, then after 27 fair rounds of any
    schedule the handshake is over: the Sub CPU has filled no rectangle
    and drawn no window, it has reset the clip, drawn the menu bar (and
    its pull-down if the menu bar says it is tracking) and the cursor at
    the cursor position, in this order; it has ended the update cycle
    and handed the frame over, so the banks have been exchanged once and
    no exchange is pending; and the Main CPU holds status Done and reads
    Ready from result register 0. *)
Theorem render_nothing_pending E fuel l p0 p1 p2 p3 rounds :
  WM_BeginUpdate (wm l) = 0 ->
  Forall fair_round rounds -> (27 <= length rounds)%nat ->
  mainp (after E rounds (handshake_sys fuel l CMD_RENDER_FRAME p0 p1 p2 p3))
  = Ret (STATUS_DONE, SUB_STATE_READY)
  /\ subp (after E rounds (handshake_sys fuel l CMD_RENDER_FRAME p0 p1 p2 p3))
     = Ret (set_wm (WM_EndUpdate (wm l)) l)
  /\ calls_of
       (trace (after E rounds
                 (handshake_sys fuel l CMD_RENDER_FRAME p0 p1 p2 p3)))
     = [BLT_ResetClip; MenuBar_Draw; MenuBar_IsTracking]
       ++ (if to_u8 (answer E 2) =? 0 then [] else [MenuBar_DrawDropdown])
       ++ [BLT_BlitBitmap1 (cursorX l) (cursorY l)]
  /\ cfs_writes
       (trace (after E rounds
                 (handshake_sys fuel l CMD_RENDER_FRAME p0 p1 p2 p3)))
     = [STATUS_BUSY; STATUS_DONE; STATUS_IDLE]
  /\ main_bank
       (after E rounds (handshake_sys fuel l CMD_RENDER_FRAME p0 p1 p2 p3))
     = sub_bank (handshake_sys fuel l CMD_RENDER_FRAME p0 p1 p2 p3)
  /\ sub_bank
       (after E rounds (handshake_sys fuel l CMD_RENDER_FRAME p0 p1 p2 p3))
     = main_bank (handshake_sys fuel l CMD_RENDER_FRAME p0 p1 p2 p3)
  /\ mem_mode
       (ga (after E rounds
              (handshake_sys fuel l CMD_RENDER_FRAME p0 p1 p2 p3)))
     = MEM_MODE_1M.
Proof.
  intros H0 Hfair Hlen.
  destruct (render_idle_leads E fuel l p0 p1 p2 p3 H0)
    as (f & turns & Hl & Ht & Hm & Hs & Hc & Hw & Hmb & Hsb & Hmm).
  rewrite (leads_after E rounds _ f _ Hl Hfair) by lia.
  repeat split; assumption.
Qed.

Lemma render_nothing_pending_witness :
  WM_BeginUpdate (wm sub_boot_state) = 0
  /\ calls_of
       (trace (after quiet_env (round_robin 27)
                 (handshake_sys 16 sub_boot_state CMD_RENDER_FRAME
                    0 0 320 224)))
     = [BLT_ResetClip; MenuBar_Draw; MenuBar_IsTracking;
        BLT_BlitBitmap1 160 112].
Proof.
  split; [reflexivity|].
  rewrite (proj1 (proj2 (proj2
             (render_nothing_pending quiet_env 16 sub_boot_state 0 0 320 224
                (round_robin 27) eq_refl (fair_round_robin 27)
                ltac:(unfold round_robin; rewrite length_replicate; lia))))).
  reflexivity.
Defined.

(** ** The bank swap command *)

Lemma wram_swap_leads E fuel l p0 p1 p2 p3 :
  exists f,
    leads E (handshake_sys fuel l CMD_WRAM_SWAP p0 p1 p2 p3)
      (replicate 6 Main ++ replicate 4 Sub ++ [Hardware]
       ++ [Sub; Sub; Main; Main; Sub; Sub; Main; Main]) f
    /\ mainp f = Ret (STATUS_DONE, SUB_STATE_READY)
    /\ subp f = Ret l
    /\ trace f
       = [ObsSaw Main R_CFS STATUS_IDLE; ObsWrite Main (R_CMD 0) p0;
          ObsWrite Main (R_CMD 1) p1; ObsWrite Main (R_CMD 2) p2;
          ObsWrite Main (R_CMD 3) p3; ObsWrite Main R_CFM CMD_WRAM_SWAP;
          ObsSaw Sub R_CFM CMD_WRAM_SWAP; ObsWrite Sub R_CFS STATUS_BUSY;
          ObsWrite Sub R_MEM_MODE 5; ObsSwap; ObsSaw Sub R_MEM_MODE 4;
          ObsWrite Sub R_CFS STATUS_DONE; ObsSaw Main R_CFS STATUS_DONE;
          ObsWrite Main R_CFM CMD_NONE; ObsSaw Sub R_CFM CMD_NONE;
          ObsWrite Sub R_CFS STATUS_IDLE; ObsSaw Main R_CFS STATUS_IDLE]
    /\ main_bank f = 1%nat /\ sub_bank f = 0%nat
    /\ mem_mode (ga f) = MEM_MODE_1M.
Proof.
  eexists. split.
  - unfold handshake_sys, boot, main_command, sub_main_turn.
    cbn [replicate app].
    turn Main. turn Main. turn Main. turn Main. turn Main. turn Main.
    turn Sub. turn Sub. mturn Sub. mturn Sub.
    mturn Hardware.
    mturn Sub. mturn Sub. mturn Main. mturn Main.
    mturn Sub. mturn Sub. mturn Main. mturn Main.
    apply leads_nil; intros []; cbn; reflexivity.
  - cbn. repeat split; reflexivity.
Qed.

(** X22.  The bank swap command, end to end.  When the Main CPU sends
    [CMD_WRAM_SWAP] and waits, every schedule of 19 fair rounds gives
    the same observable run: the Sub CPU acknowledges, sets RET, the
    hardware exchanges the banks once, the Sub CPU sees RET clear and
    only then stores Done.  At the end each processor has the bank the
    other one had, both ownership tests answer yes (each for its own
    bank), and the Sub CPU's state is unchanged. *)
Theorem wram_swap_handshake E fuel l p0 p1 p2 p3 rounds :
  Forall fair_round rounds -> (19 <= length rounds)%nat ->
  trace (after E rounds (handshake_sys fuel l CMD_WRAM_SWAP p0 p1 p2 p3))
  = [ObsSaw Main R_CFS STATUS_IDLE; ObsWrite Main (R_CMD 0) p0;
     ObsWrite Main (R_CMD 1) p1; ObsWrite Main (R_CMD 2) p2;
     ObsWrite Main (R_CMD 3) p3; ObsWrite Main R_CFM CMD_WRAM_SWAP;
     ObsSaw Sub R_CFM CMD_WRAM_SWAP; ObsWrite Sub R_CFS STATUS_BUSY;
     ObsWrite Sub R_MEM_MODE 5; ObsSwap; ObsSaw Sub R_MEM_MODE 4;
     ObsWrite Sub R_CFS STATUS_DONE; ObsSaw Main R_CFS STATUS_DONE;
     ObsWrite Main R_CFM CMD_NONE; ObsSaw Sub R_CFM CMD_NONE;
     ObsWrite Sub R_CFS STATUS_IDLE; ObsSaw Main R_CFS STATUS_IDLE]
  /\ mainp (after E rounds (handshake_sys fuel l CMD_WRAM_SWAP p0 p1 p2 p3))
     = Ret (STATUS_DONE, SUB_STATE_READY)
  /\ subp (after E rounds (handshake_sys fuel l CMD_WRAM_SWAP p0 p1 p2 p3))
     = Ret l
  /\ main_bank (after E rounds (handshake_sys fuel l CMD_WRAM_SWAP p0 p1 p2 p3))
     = sub_bank (handshake_sys fuel l CMD_WRAM_SWAP p0 p1 p2 p3)
  /\ sub_bank (after E rounds (handshake_sys fuel l CMD_WRAM_SWAP p0 p1 p2 p3))
     = main_bank (handshake_sys fuel l CMD_WRAM_SWAP p0 p1 p2 p3)
  /\ peek (ga (after E rounds
                 (handshake_sys fuel l CMD_WRAM_SWAP p0 p1 p2 p3)))
       main_has_wram = Some 1
  /\ peek (ga (after E rounds
                 (handshake_sys fuel l CMD_WRAM_SWAP p0 p1 p2 p3)))
       sub_has_wram = Some 1.
Proof.
  intros Hfair Hlen.
  destruct (wram_swap_leads E fuel l p0 p1 p2 p3)
    as (f & Hl & Hm & Hs & Ht & Hmb & Hsb & Hmm).
  rewrite (leads_after E rounds _ f _ Hl Hfair)
    by (cbn [replicate app length]; lia).
  split; [exact Ht|]. split; [exact Hm|]. split; [exact Hs|].
  split; [exact Hmb|]. split; [exact Hsb|].
  unfold main_has_wram, sub_has_wram. cbn [peek read_reg]. rewrite Hmm.
  split; reflexivity.
Qed.

Lemma wram_swap_handshake_witness :
  main_bank (after quiet_env (round_robin 19)
               (handshake_sys 16 sub_boot_state CMD_WRAM_SWAP 0 0 0 0))
  = 1%nat.
Proof.
  rewrite (proj1 (proj2 (proj2 (proj2
             (wram_swap_handshake quiet_env 16 sub_boot_state 0 0 0 0
                (round_robin 19) (fair_round_robin 19)
                ltac:(unfold round_robin; rewrite length_replicate; lia)))))).
  reflexivity.
Defined.

(** ** Mouse events *)

Lemma testbit_small a k n :
  0 <= a < 2 ^ k -> 0 <= k <= n -> Z.testbit a n = false.
Proof.
  intros Ha Hk. rewrite <- (Z.mod_small a (2 ^ k)) by assumption.
  apply Z.mod_pow2_bits_high. assumption.
Qed.

Lemma unpack_type ty bt :
  is_u8 ty -> is_u8 bt ->
  to_u8 (Z.shiftr (to_u16 (Z.lor (Z.shiftl ty 8) bt)) 8) = ty.
Proof.
  unfold is_u8, to_u8, to_u16. intros Ht Hb.
  change 256 with (2 ^ 8) in *. change 65536 with (2 ^ 16).
  apply Z.bits_inj'. intros n Hn.
  destruct (Z.lt_ge_cases n 8) as [Hlt | Hge].
  - rewrite Z.mod_pow2_bits_low by lia.
    rewrite Z.shiftr_spec by lia.
    rewrite Z.mod_pow2_bits_low by lia.
    rewrite Z.lor_spec, Z.shiftl_spec by lia.
    rewrite (testbit_small bt 8 (n + 8)) by lia.
    rewrite orb_false_r. f_equal. lia.
  - rewrite Z.mod_pow2_bits_high by lia.
    symmetry. apply (testbit_small ty 8); lia.
Qed.

Lemma unpack_buttons ty bt :
  is_u8 ty -> is_u8 bt ->
  to_u8 (Z.land (to_u16 (Z.lor (Z.shiftl ty 8) bt)) 255) = bt.
Proof.
  unfold is_u8, to_u8, to_u16. intros Ht Hb.
  change 256 with (2 ^ 8) in *. change 65536 with (2 ^ 16).
  change 255 with (Z.ones 8). rewrite Z.land_ones by lia.
  rewrite Z.mod_mod by lia.
  apply Z.bits_inj'. intros n Hn.
  destruct (Z.lt_ge_cases n 8) as [Hlt | Hge].
  - rewrite Z.mod_pow2_bits_low by lia.
    rewrite Z.mod_pow2_bits_low by lia.
    rewrite Z.lor_spec, Z.shiftl_spec_low by lia. reflexivity.
  - rewrite Z.mod_pow2_bits_high by lia.
    symmetry. apply (testbit_small bt 8); lia.
Qed.

Lemma i16_round_trip z : is_i16 z -> to_i16 (to_u16 (to_u16 z)) = z.
Proof.
  unfold is_i16, to_i16, to_u16. intros H.
  rewrite Z.mod_mod by lia.
  destruct (Z.lt_ge_cases z 0) as [Hneg | Hpos].
  - replace (z mod 65536) with (z + 65536)
      by (apply Z.mod_unique with (-1); lia).
    replace (z + 65536 + 32768) with (z + 32768 + 1 * 65536) by lia.
    rewrite Z.mod_add by lia. rewrite Z.mod_small; lia.
  - rewrite (Z.mod_small z) by lia. rewrite Z.mod_small; lia.
Qed.

Lemma u8_u16 z : is_u8 z -> to_u16 z = z.
Proof. unfold is_u8, to_u16. intros H. apply Z.mod_small. lia. Qed.

(** X23.  What [Input_SendMouseEvent] stores is what
    [Input_DecodeMouseEvent] reads back: once the four parameter
    registers have been stored and [CMD_MOUSE_EVENT] posted, decoding
    gives the event type, the buttons, the position and the horizontal
    delta that were sent; the vertical delta is not transmitted and
    always decodes as 0. *)
Theorem mouse_event_round_trip g mx my ty bt dx :
  (4 <= length (cmd_regs g))%nat ->
  is_i16 mx -> is_i16 my -> is_i16 dx -> is_u8 ty -> is_u8 bt ->
  peek (poke Main g (Input_SendMouseEvent mx my ty bt dx))
    Input_DecodeMouseEvent
  = Some (mkEvt ty bt mx my dx 0)
  /\ cfm (poke Main g (Input_SendMouseEvent mx my ty bt dx))
     = CMD_MOUSE_EVENT.
Proof.
  intros Hlen Hx Hy Hd Ht Hb. split; [|reflexivity].
  destruct g as [fm fs regs st mm]. cbn [cmd_regs] in Hlen.
  destruct regs as [|r0 [|r1 [|r2 [|r3 rest]]]]; cbn in Hlen; try lia.
  cbn. rewrite !i16_round_trip by assumption.
  rewrite (u8_u16 ty Ht), (u8_u16 bt Hb).
  now rewrite unpack_type, unpack_buttons.
Qed.

Lemma mouse_event_round_trip_witness :
  peek (poke Main ga_ready
          (Input_SendMouseEvent 200 (-3) INPUT_EVT_MOUSE_DRAG 1 (-7)))
    Input_DecodeMouseEvent
  = Some (mkEvt INPUT_EVT_MOUSE_DRAG 1 200 (-3) (-7) 0).
Proof.
  apply (mouse_event_round_trip ga_ready 200 (-3) INPUT_EVT_MOUSE_DRAG 1 (-7));
    first [ unfold is_i16, is_u8, INPUT_EVT_MOUSE_DRAG; lia
          | cbn; lia ].
Defined.

(** ** A mouse event followed at once by the render command *)

Lemma step_same_but_trace {A B : Type} E a pre (s1 s2 : Sys A B) :
  same_but_trace pre s1 s2 ->
  same_but_trace pre (step E a s1) (step E a s2).
Proof.
  intros (Hg & Hm & Hs & Hn & Hpm & Hps & Ht).
  destruct s1 as [g1 m1 b1 n1 t1 pm1 ps1], s2 as [g2 m2 b2 n2 t2 pm2 ps2].
  cbn in Hg, Hm, Hs, Hn, Hpm, Hps, Ht. subst.
  destruct a; cbn.
  - destruct (exec E Main g2 n2 pm2) as [[[[g n] o] p]|];
      cbn; repeat split; try reflexivity; symmetry; apply app_assoc.
  - destruct (exec E Sub g2 n2 ps2) as [[[[g n] o] p]|];
      cbn; repeat split; try reflexivity; symmetry; apply app_assoc.
  - destruct (_ =? _); cbn; repeat split; try reflexivity;
      symmetry; apply app_assoc.
Qed.

Lemma run_same_but_trace {A B : Type} E sched : forall pre (s1 s2 : Sys A B),
  same_but_trace pre s1 s2 ->
  same_but_trace pre (run E sched s1) (run E sched s2).
Proof.
  induction sched as [|a sched IH]; intros pre s1 s2 H; [exact H|].
  rewrite !run_cons. apply IH. now apply step_same_but_trace.
Qed.

(** X24.  A mouse event can be lost.  [Input_SendMouseEvent] posts its
    command without waiting, and the idle check of the [main_send_cmd]
    that follows it in [main_loop] passes as long as the Sub CPU has not
    acknowledged.  So when the Main CPU takes its next 11 steps before
    the Sub CPU looks at the command flag, the render command has
    overwritten the four parameters and the opcode of the mouse event,
    and from there on, under any schedule, the machine runs exactly as
    if no mouse event had been sent: it differs from that run only by
    the five stores of the mouse event at the start of its history. *)
Theorem mouse_event_overwritten E fuel l mx my ty bt dx sched :
  same_but_trace
    [ObsWrite Main (R_CMD 0) (to_u16 mx); ObsWrite Main (R_CMD 1) (to_u16 my);
     ObsWrite Main (R_CMD 2) (Z.lor (Z.shiftl (to_u16 ty) 8) (to_u16 bt));
     ObsWrite Main (R_CMD 3) (to_u16 dx);
     ObsWrite Main R_CFM CMD_MOUSE_EVENT]
    (run E (replicate 11 Main ++ sched) (frame_sys fuel l mx my ty bt dx))
    (run E (replicate 6 Main ++ sched) (render_sys fuel l)).
Proof.
  rewrite !run_app. apply run_same_but_trace.
  cbn. norm_flags. repeat split.
Qed.

Arguments WM_InvalidateRect : simpl never.

Lemma stuck_run {A B : Type} E (f : Sys A B) :
  (forall a, step E a f = f) -> forall sched, run E sched f = f.
Proof.
  intros H sched. induction sched as [|a sched IH]; [reflexivity|].
  now rewrite run_cons, H.
Qed.

Lemma mouse_event_deadlock_leads E fuel l mx my dx :
  exists f turns l',
    leads E (acked_sys E fuel l mx my dx) turns f
    /\ (length turns <= 7)%nat
    /\ mainp f = (main_send_cmd CMD_RENDER_FRAME 0 0 320 224 ;;; main_wait_done)
    /\ subp f
       = Spin R_CFM (fun c => negb (c =? CMD_NONE))
           (fun _ => Write R_CFS STATUS_IDLE (Ret l'))
    /\ cfs (ga f) = STATUS_DONE /\ cfm (ga f) = CMD_MOUSE_EVENT.
Proof.
  unfold acked_sys, frame_sys, boot, main_loop_body, sub_main_turn.
  cbn [replicate app]. rewrite !run_cons. cbn. norm_flags. norm_bits. cbn.
  destruct (to_u8 (answer E 0) =? 0) eqn:Ht.
  - eexists. exists (replicate 6 Sub). eexists. split.
    + cbn [replicate].
      turn Sub. turn Sub. turn Sub. turn Sub. norm_bits. cbn.
      turn Sub. rewrite Ht. turn Sub.
      halt.
    + cbn. repeat split; try reflexivity; lia.
  - eexists. exists (replicate 7 Sub). eexists. split.
    + cbn [replicate].
      turn Sub. turn Sub. turn Sub. turn Sub. norm_bits. cbn.
      turn Sub. rewrite Ht. turn Sub. turn Sub.
      halt.
    + cbn. repeat split; try reflexivity; lia.
Qed.

(** X25.  A mouse event can stop both processors.  In the loop turn of
    [main_loop] with a mouse-move event, once the Sub CPU has
    acknowledged the event before the Main CPU has made the idle check
    of [main_send_cmd], every fair schedule of 7 rounds ends in the same
    state, and no schedule leaves it: the Sub CPU has stored Done and
    waits in [sub_done] for the command flag to read None, the Main CPU
    waits at the start of [main_send_cmd] for the status flag to read
    Idle, the command flag still holds [CMD_MOUSE_EVENT], and nothing
    was sent of the render command. *)
Theorem mouse_event_deadlock E fuel l mx my dx rounds :
  Forall fair_round rounds -> (7 <= length rounds)%nat ->
  (forall sched,
      run E sched (after E rounds (acked_sys E fuel l mx my dx))
      = after E rounds (acked_sys E fuel l mx my dx))
  /\ mainp (after E rounds (acked_sys E fuel l mx my dx))
     = (main_send_cmd CMD_RENDER_FRAME 0 0 320 224 ;;; main_wait_done)
  /\ (exists l',
        subp (after E rounds (acked_sys E fuel l mx my dx))
        = Spin R_CFM (fun c => negb (c =? CMD_NONE))
            (fun _ => Write R_CFS STATUS_IDLE (Ret l')))
  /\ cfs (ga (after E rounds (acked_sys E fuel l mx my dx))) = STATUS_DONE
  /\ cfm (ga (after E rounds (acked_sys E fuel l mx my dx)))
     = CMD_MOUSE_EVENT.
Proof.
  intros Hfair Hlen.
  destruct (mouse_event_deadlock_leads E fuel l mx my dx)
    as (f & turns & l' & Hl & Ht & Hm & Hs & Hcs & Hcm).
  rewrite (leads_after E rounds _ f _ Hl Hfair) by lia.
  split; [apply stuck_run; now apply (leads_stuck E f turns _ Hl)|].
  split; [exact Hm|]. split; [now exists l'|]. now split.
Qed.

Lemma mouse_event_deadlock_witness :
  cfs (ga (after quiet_env (round_robin 7)
             (acked_sys quiet_env 16 sub_boot_state 100 100 1)))
  = STATUS_DONE
  /\ run quiet_env (concat (round_robin 50))
       (after quiet_env (round_robin 7)
          (acked_sys quiet_env 16 sub_boot_state 100 100 1))
     = after quiet_env (round_robin 7)
         (acked_sys quiet_env 16 sub_boot_state 100 100 1).
Proof.
  destruct (mouse_event_deadlock quiet_env 16 sub_boot_state 100 100 1
              (round_robin 7) (fair_round_robin 7)
              ltac:(unfold round_robin; rewrite length_replicate; lia))
    as (Hstuck & _ & _ & Hcs & _).
  split; [exact Hcs | apply Hstuck].
Defined.

(** ** Dragging a window *)

Lemma to_i16_sub_idem a b : to_i16 (a - to_i16 b) = to_i16 (a - b).
Proof.
  unfold to_i16. f_equal.
  replace (a - ((b + 32768) mod 65536 - 32768) + 32768)
    with (a + 65536 - (b + 32768) mod 65536) by lia.
  rewrite Zminus_mod_idemp_r. f_equal.
  replace (a + 65536 - (b + 32768)) with (a - b + 32768 + 0 * 65536) by lia.
  rewrite Z.add_0_r. reflexivity.
Qed.

(** X26.  A drag carries the window with the cursor.  After a mouse
    down on the drag part of a window, which selects the window and
    records where it was grabbed, a drag event (the menu bar not
    tracking) moves the window by the way the cursor went since the
    mouse down, provided the frame is not empty and at its new place
    lies on the screen below the menu bar; the window stays the one
    being dragged. *)
Theorem drag_follows_cursor l w down drag t :
  reachable (wm l) -> live (wm l) w = true -> to_u8 t = 0 ->
  rect_nonempty (frame (win_at (wm l) w)) = true ->
  rect_inside (drag_target (frame (win_at (wm l) w)) down drag) screen_rect
  = true ->
  WM_MENUBAR_H <= top (drag_target (frame (win_at (wm l) w)) down drag) ->
  exists l1 k l2,
    mouse_down down (WM_PART_DRAG, Some w) l = Ret l1
    /\ mouse_drag drag l1 = Call MenuBar_IsTracking k
    /\ k t = Ret l2
    /\ frame (win_at (wm l2) w)
       = drag_target (frame (win_at (wm l) w)) down drag
    /\ dragWindow l2 = Some w
    /\ WM_GetActiveWindow (wm l2) = WM_GetActiveWindow (wm l1).
Proof.
  intros Hr Hw Ht Hne Hin Hmb.
  set (s1 := WM_SelectWindow (Some w) (wm l)).
  assert (reachable s1) as Hr1 by (reach_by (CallZ (OpSelect w)) Hr).
  assert (frame (win_at s1 w) = frame (win_at (wm l) w)) as Hf
    by (apply (body_Select frame); intros; destruct W; reflexivity).
  assert (live s1 w = true) as Hw1.
  { destruct (reachable_inv _ Hr) as [zl Hinv].
    pose proof Hinv as ((_ & _ & Hlive & _) & _).
    apply Hlive, list_elem_of_split in Hw as (l1 & l2 & ->).
    pose proof (wm_inv_Select _ l1 w l2 Hinv) as ((_ & _ & Hlive1 & _) & _).
    apply Hlive1. now left. }
  eexists. eexists. eexists.
  split; [reflexivity|]. split; [reflexivity|].
  cbv beta. cbn [bind]. cbv beta. rewrite Ht. cbn [Z.eqb negb].
  cbn [dragWindow set_drag dragOffsetX dragOffsetY wm set_wm]. cbv zeta.
  fold s1. rewrite Hf.
  split; [reflexivity|].
  cbn [wm set_wm dragWindow set_drag].
  set (f := frame (win_at (wm l) w)) in *.
  rewrite !to_i16_sub_idem.
  unfold drag_target, translate_rect, rect_inside, rect_nonempty,
    screen_rect, WM_SCREEN_W, WM_SCREEN_H, WM_MENUBAR_H in Hin, Hmb, Hne.
  cbn [top left bottom right] in Hin, Hmb, Hne.
  assert (0 <= left f + (evt_x drag - evt_x down)
          /\ left f + (evt_x drag - evt_x down) + (right f - left f) <= 320
          /\ 20 <= top f + (evt_y drag - evt_y down)
          /\ top f + (evt_y drag - evt_y down) + (bottom f - top f) <= 224
          /\ left f < right f /\ top f < bottom f) as Hb.
  { clear - Hin Hmb Hne. rect_bools. lia. }
  replace (evt_x drag - (evt_x down - left f))
    with (left f + (evt_x drag - evt_x down)) by lia.
  replace (evt_y drag - (evt_y down - top f))
    with (top f + (evt_y drag - evt_y down)) by lia.
  rewrite (to_i16_small (left f + (evt_x drag - evt_x down)))
    by (unfold is_i16; lia).
  rewrite (to_i16_small (top f + (evt_y drag - evt_y down)))
    by (unfold is_i16; lia).
  unfold WM_MENUBAR_H.
  rewrite (ltb_false (top f + (evt_y drag - evt_y down)) 20) by lia.
  destruct (MoveWindow_facts s1 w (left f + (evt_x drag - evt_x down))
              (top f + (evt_y drag - evt_y down)) Hr1 Hw1
              ltac:(unfold is_i16; lia) ltac:(unfold is_i16; lia))
    as (_ & Hfr & _ & _ & Hact & _).
  rewrite Hf in Hfr. fold f in Hfr.
  split; [|split; [reflexivity | exact Hact]].
  apply Hfr.
  - unfold rect_nonempty. rect_bools; lia.
  - unfold translate_rect, rect_inside, screen_rect, WM_SCREEN_W,
      WM_SCREEN_H. cbn [top left bottom right]. rect_bools; lia.
Qed.

Lemma drag_follows_cursor_witness :
  exists l1 k l2,
    mouse_down (mkEvt INPUT_EVT_MOUSE_DOWN 1 100 65 0 0)
      (WM_PART_DRAG, Some 1%nat) drag_example_state = Ret l1
    /\ mouse_drag (mkEvt INPUT_EVT_MOUSE_DRAG 1 110 75 10 0) l1
       = Call MenuBar_IsTracking k
    /\ k 0 = Ret l2
    /\ frame (win_at (wm l2) 1%nat)
       = drag_target (frame (win_at (wm drag_example_state) 1%nat))
           (mkEvt INPUT_EVT_MOUSE_DOWN 1 100 65 0 0)
           (mkEvt INPUT_EVT_MOUSE_DRAG 1 110 75 10 0)
    /\ dragWindow l2 = Some 1%nat
    /\ WM_GetActiveWindow (wm l2) = WM_GetActiveWindow (wm l1).
Proof.
  apply (drag_follows_cursor drag_example_state 1%nat
           (mkEvt INPUT_EVT_MOUSE_DOWN 1 100 65 0 0)
           (mkEvt INPUT_EVT_MOUSE_DRAG 1 110 75 10 0) 0).
  - apply (reachable_zops z_example_ops). vm_compute. reflexivity.
  - vm_compute. reflexivity.
  - reflexivity.
  - vm_compute. reflexivity.
  - vm_compute. reflexivity.
  - vm_compute. discriminate.
Defined.

(** ** Initialising the desktop *)

Lemma init_os_leads E fuel l p0 p1 p2 p3 :
  0 <= to_i8 (answer E 3) -> 0 <= to_i8 (answer E 9) ->
  0 <= to_i8 (answer E 15) ->
  exists f,
    leads E (handshake_sys fuel l CMD_INIT_OS p0 p1 p2 p3)
      (replicate 6 Main ++ replicate 23 Sub
       ++ [Main; Main; Sub; Sub; Main; Main]) f
    /\ mainp f = Ret (STATUS_DONE, SUB_STATE_READY)
    /\ subp f = Ret (set_wm WM_Init l)
    /\ calls_of (trace f)
       = os_init_calls (to_u8 (to_i8 (answer E 3)))
           (to_u8 (to_i8 (answer E 9))) (to_u8 (to_i8 (answer E 15)))
    /\ cfs_writes (trace f) = [STATUS_BUSY; STATUS_DONE; STATUS_IDLE].
Proof.
  intros H1 H2 H3.
  apply Z.leb_le in H1, H2, H3.
  eexists. split.
  - unfold handshake_sys, boot, main_command, sub_main_turn.
    cbn [replicate app].
    turn Main. turn Main. turn Main. turn Main. turn Main. turn Main.
    turn Sub. turn Sub. turn Sub. turn Sub. turn Sub.
    turn Sub. rewrite H1.
    turn Sub. turn Sub. turn Sub. turn Sub. turn Sub.
    turn Sub. rewrite H2.
    turn Sub. turn Sub. turn Sub. turn Sub. turn Sub.
    turn Sub. rewrite H3.
    turn Sub. turn Sub. turn Sub.
    turn Sub. turn Sub.
    turn Main. turn Main. turn Sub. turn Sub. turn Main. turn Main.
    halt.
  - cbn. repeat split; reflexivity.
Qed.

(** X27.  The init command, end to end.  When the Main CPU sends
    [CMD_INIT_OS] and waits and the menu bar accepts the three menus,
    then after 35 fair rounds of any schedule the handshake is over with
    status Done: the Sub CPU has set up the blitter, reset the window
    manager to its initial state, and built the File, Edit and Apps
    menus, adding to each menu its own items under the id that
    [MenuBar_AddMenu] returned for it, in the order of the source, and
    initialised the memory manager last. *)
Theorem init_os_handshake E fuel l p0 p1 p2 p3 rounds :
  0 <= to_i8 (answer E 3) -> 0 <= to_i8 (answer E 9) ->
  0 <= to_i8 (answer E 15) ->
  Forall fair_round rounds -> (35 <= length rounds)%nat ->
  mainp (after E rounds (handshake_sys fuel l CMD_INIT_OS p0 p1 p2 p3))
  = Ret (STATUS_DONE, SUB_STATE_READY)
  /\ subp (after E rounds (handshake_sys fuel l CMD_INIT_OS p0 p1 p2 p3))
     = Ret (set_wm WM_Init l)
  /\ calls_of
       (trace (after E rounds (handshake_sys fuel l CMD_INIT_OS p0 p1 p2 p3)))
     = os_init_calls (to_u8 (to_i8 (answer E 3)))
         (to_u8 (to_i8 (answer E 9))) (to_u8 (to_i8 (answer E 15)))
  /\ cfs_writes
       (trace (after E rounds (handshake_sys fuel l CMD_INIT_OS p0 p1 p2 p3)))
     = [STATUS_BUSY; STATUS_DONE; STATUS_IDLE].
Proof.
  intros H1 H2 H3 Hfair Hlen.
  destruct (init_os_leads E fuel l p0 p1 p2 p3 H1 H2 H3)
    as (f & Hl & Hm & Hs & Hc & Hw).
  rewrite (leads_after E rounds _ f _ Hl Hfair)
    by (cbn [replicate app length]; lia).
  repeat split; assumption.
Qed.

Lemma init_os_handshake_witness :
  calls_of
    (trace (after quiet_env (round_robin 35)
              (handshake_sys 16 drag_example_state CMD_INIT_OS 0 0 0 0)))
  = os_init_calls 0 0 0
  /\ subp (after quiet_env (round_robin 35)
             (handshake_sys 16 drag_example_state CMD_INIT_OS 0 0 0 0))
     = Ret (set_wm WM_Init drag_example_state).
Proof.
  assert (0 <= to_i8 0) as H0 by (vm_compute; discriminate).
  destruct (init_os_handshake quiet_env 16 drag_example_state 0 0 0 0
              (round_robin 35) H0 H0 H0 (fair_round_robin 35)
              ltac:(unfold round_robin; rewrite length_replicate; lia))
    as (_ & Hs & Hc & _).
  split; [exact Hc | exact Hs].
Defined.

(** ** Title bar and content *)

(** X28.  [compute_window_rects] on a non-empty frame that lies on the
    screen:
    the content is the frame less a 1-pixel border and, for the titled
    styles, less the 18-pixel title bar and its separator line; the
    plain and shadow styles get a title bar that holds no point.  So no
    point is in both the title bar and the content, every point of the
    content is in the frame, the part [WM_FindWindow] reports is
    content only for points of the content, and a window of a plain or
    shadow style has no close box to hit, whatever its flags. *)
Theorem window_rects_layout W :
  rect_nonempty (frame W) = true ->
  rect_inside (frame W) screen_rect = true ->
  frame (compute_window_rects W) = frame W
  /\ titleBar (compute_window_rects W)
     = (if untitled_style W
        then mkRect 0 (left (frame W) + 1) 0 (right (frame W) - 1)
        else mkRect (top (frame W) + 1) (left (frame W) + 1)
               (top (frame W) + 19) (right (frame W) - 1))
  /\ content (compute_window_rects W)
     = mkRect (top (frame W) + (if untitled_style W then 1 else 20))
         (left (frame W) + 1) (bottom (frame W) - 1) (right (frame W) - 1)
  /\ (forall pt,
        rect_contains_point (titleBar (compute_window_rects W)) pt = true ->
        rect_contains_point (content (compute_window_rects W)) pt = false)
  /\ (forall pt,
        rect_contains_point (content (compute_window_rects W)) pt = true ->
        rect_contains_point (frame W) pt = true)
  /\ (forall pt,
        hit_part (compute_window_rects W) pt = WM_PART_CONTENT ->
        rect_contains_point (content (compute_window_rects W)) pt = true)
  /\ (untitled_style W = true ->
      forall pt, hit_part (compute_window_rects W) pt <> WM_PART_CLOSE).
Proof.
  intros Hne Hin.
  assert (titleBar (compute_window_rects W)
          = (if untitled_style W
             then mkRect 0 (left (frame W) + 1) 0 (right (frame W) - 1)
             else mkRect (top (frame W) + 1) (left (frame W) + 1)
                    (top (frame W) + 19) (right (frame W) - 1))
          /\ content (compute_window_rects W)
             = mkRect (top (frame W) + (if untitled_style W then 1 else 20))
                 (left (frame W) + 1) (bottom (frame W) - 1)
                 (right (frame W) - 1)) as [Ht Hc].
  { unfold compute_window_rects, untitled_style, BORDER_W, TITLEBAR_H.
    destruct W as [? sty ? [t l b r] ? ? ? ? ? ? ? ? ? ? ?].
    cbn [frame style top left bottom right] in *.
    unfold rect_inside, screen_rect, WM_SCREEN_W, WM_SCREEN_H in Hin.
    unfold rect_nonempty in Hne.
    cbn [top left bottom right] in Hin, Hne. rect_bools.
    destruct ((sty =? WM_STYLE_PLAIN) || (sty =? WM_STYLE_SHADOW));
      cbn [titleBar content set_titleBar set_content top left bottom right];
      rewrite ?(to_i16_small (t + 1)), ?(to_i16_small (l + 1)),
        ?(to_i16_small (r - 1)), ?(to_i16_small (b - 1)),
        ?(to_i16_small (t + 1 + 18)) by (unfold is_i16; lia);
      rewrite ?(to_i16_small (t + 1 + 18 + 1)) by (unfold is_i16; lia);
      split; f_equal; lia. }
  split; [apply frame_compute_window_rects|].
  split; [exact Ht|]. split; [exact Hc|].
  assert (forall pt,
            rect_contains_point (titleBar (compute_window_rects W)) pt = true ->
            rect_contains_point (content (compute_window_rects W)) pt = false)
    as Hdisj.
  { intros pt. rewrite Ht, Hc. unfold rect_contains_point.
    destruct (untitled_style W); cbn [top left bottom right]; intros H;
      rect_bools; lia. }
  split; [exact Hdisj|]. split; [|split].
  - intros pt. rewrite Hc. unfold rect_contains_point.
    unfold rect_inside, screen_rect in Hin.
    cbn [top left bottom right] in *. intros H.
    destruct (untitled_style W); rect_bools; lia.
  - intros pt. unfold hit_part. cbv zeta.
    repeat match goal with
           | |- context [if ?c then _ else _] => destruct c eqn:?
           end; try discriminate. reflexivity.
  - intros Hu pt. unfold hit_part. cbv zeta.
    assert (rect_contains_point (titleBar (compute_window_rects W)) pt
            = false) as ->.
    { rewrite Ht, Hu. unfold rect_contains_point.
      cbn [top left bottom right].
      destruct (0 <=? y pt) eqn:E1; [|now rewrite andb_false_r].
      apply Z.leb_le in E1. rewrite (ltb_false (y pt) 0) by lia.
      apply andb_false_r. }
    rewrite andb_false_r. cbn [andb].
    repeat match goal with
           | |- context [if ?c then _ else _] => destruct c
           end; discriminate.
Qed.

Lemma window_rects_layout_witness :
  rect_nonempty (frame (win_at z_example_state 2%nat)) = true
  /\ rect_inside (frame (win_at z_example_state 2%nat)) screen_rect = true
  /\ untitled_style (win_at z_example_state 2%nat) = true
  /\ content (compute_window_rects (win_at z_example_state 2%nat))
     = mkRect 51 41 169 219.
Proof.
  assert (rect_inside (frame (win_at z_example_state 2%nat)) screen_rect
          = true) as H by (vm_compute; reflexivity).
  assert (rect_nonempty (frame (win_at z_example_state 2%nat)) = true)
    as H0 by (vm_compute; reflexivity).
  split; [exact H0|]. split; [exact H|]. split; [vm_compute; reflexivity|].
  rewrite (proj1 (proj2 (proj2 (window_rects_layout _ H0 H)))).
  vm_compute. reflexivity.
Defined.
